(** * BitFunnel ingestion core: Slice, Shard, Ingestor and QueryParser

    A shallow embedding of the C++ sources (Slice.cpp, Shard.cpp,
    Ingestor.cpp, QueryParser.cpp) together with the properties the
    specification states about them.

    Conventions.
    - [size_t], [DocIndex] and [RowIndex] are 64-bit unsigned integers: they
      are carried as [Z] and every arithmetic operation of the source is
      followed by [wrap] (reduction modulo 2^64).
    - Pointers (to a Slice, to a slice buffer) are addresses, also carried
      as [Z].
    - A C++ function that may throw returns a [Result]; the state it leaves
      behind is returned next to it, because a throw does not undo the
      writes that preceded it. *)

From Stdlib Require Import ZArith Lia.
From stdpp Require Import gmap strings list.

Local Open Scope Z_scope.

(** ** Machine integers *)

Definition c_sizeModulus : Z := 2 ^ 64.

Definition wrap (z : Z) : Z := z mod c_sizeModulus.

(** The size of a pointer on the 64-bit targets the index is built for. *)
Definition c_sizeofPointer : Z := 8.

(** [c_maxRankValue] of BitFunnelTypes.h (the spec: MaxRank = 6). *)
Definition c_maxRankValue : Z := 6.

(** ** Exceptions *)

Inductive Exn : Type :=
| FatalAssert (message : string)
| RecoverableError (message : string)
| ParseError (message : string) (m_position : Z)
| LengthError
| OutOfRange
| NotImplemented
| ForeignException (what : string).

Inductive Result (A : Type) : Type :=
| Returned (a : A)
| Thrown (e : Exn).

Arguments Returned {A} a.
Arguments Thrown {A} e.

(** Modelled from the spec: the [LogAssertB] macro of
    LoggerInterfaces/Logging.h, which is not among the sources. The spec
    (section 7) classes every failed [LogAssertB] of the core as a fatal
    assertion, a kind of failure distinct from [RecoverableError]. *)
Definition LogAssertB (condition : bool) (message : string) : Result unit :=
  if condition then Returned tt else Thrown (FatalAssert message).

(** ** Collaborators of the shard: terms, rows, term table, schema *)

Record Term : Type := mkTerm {
  term_hash : Z;
  term_streamId : Z;
  term_gramSize : Z;
  term_rank : Z
}.

Record RowId : Type := mkRowId {
  GetRank : Z;
  GetIndex : Z
}.

(** The part of [ITermTable] the shard consumes. [RowIdSequence term] is
    the sequence of rows that iterating [RowIdSequence(term, termTable)]
    yields. *)
Record ITermTable : Type := mkTermTable {
  GetTotalRowCount : Z -> Z;
  GetMaxRankUsed : Z;
  GetDocumentActiveTerm : Term;
  RowIdSequence : Term -> list RowId
}.

(** [IDocumentDataSchema]: the registered blobs. *)
Record IDocumentDataSchema : Type := mkSchema {
  variableSizeBlobCount : Z;
  fixedSizeBlobSizes : list Z
}.

(** [ptrdiff_t]: the signed reading of a 64-bit word. *)
Definition to_ptrdiff (z : Z) : Z :=
  let w := wrap z in if w <? 2 ^ 63 then w else w - c_sizeModulus.

(** Modelled from the spec: [Row::DocumentsInRank0Row(rowCount, maxRank)]
    of Row.h, which is not among the sources; the spec gives
    [DocumentsInRank0Row(1, maxRankUsed) = 2^maxRank * 64]. *)
Definition DocumentsInRank0Row (rowCount maxRank : Z) : Z :=
  wrap (rowCount * (2 ^ maxRank * 64)).

(** ** Slice buffers as byte arrays *)

(** The content of a slice buffer: the byte at each offset from its
    start. *)
Definition SliceBuffer : Type := Z -> Z.

Definition store_byte (buffer : SliceBuffer) (offset value : Z) : SliceBuffer :=
  fun a => if a =? offset then value else buffer a.

(** [memset(buffer + offset, value, size)]. *)
Definition memset (buffer : SliceBuffer) (offset value size : Z) : SliceBuffer :=
  fun a => if (offset <=? a) && (a <? offset + size) then value else buffer a.

(** Little-endian bytes of a machine word, and back. *)
Fixpoint encode_le (n : nat) (v : Z) : list Z :=
  match n with
  | O => []
  | S n' => (v mod 256) :: encode_le n' (v / 256)
  end.

Fixpoint decode_le (bytes : list Z) : Z :=
  match bytes with
  | [] => 0
  | b :: rest => b + 256 * decode_le rest
  end.

Fixpoint store_bytes (buffer : SliceBuffer) (offset : Z) (bytes : list Z)
    : SliceBuffer :=
  match bytes with
  | [] => buffer
  | b :: rest => store_bytes (store_byte buffer offset b) (offset + 1) rest
  end.

Fixpoint load_bytes (buffer : SliceBuffer) (offset : Z) (n : nat) : list Z :=
  match n with
  | O => []
  | S n' => buffer offset :: load_bytes buffer (offset + 1) n'
  end.

(** ** Descriptors *)

Module DocTableDescriptor.

Record t : Type := mk {
  m_capacity : Z;
  m_schema : IDocumentDataSchema;
  m_bufferOffset : Z
}.

(** Modelled from the spec: DocTableDescriptor.cpp is not among the
    sources. Section 4.2: the per-document record size is the sum of the
    fixed-blob sizes plus one pointer slot per variable-size blob. *)
Definition GetBytesPerItem (schema : IDocumentDataSchema) : Z :=
  wrap (foldr Z.add 0 (fixedSizeBlobSizes schema)
        + c_sizeofPointer * variableSizeBlobCount schema).

(** Modelled from the spec: [DocTableDescriptor::GetBufferSize], missing
    with DocTableDescriptor.cpp. Section 4.2: region size =
    [capacity * recordSize]. *)
Definition GetBufferSize (capacity : Z) (schema : IDocumentDataSchema) : Z :=
  wrap (capacity * GetBytesPerItem schema).

(** Modelled from the spec: [DocTableDescriptor::Initialize], missing with
    DocTableDescriptor.cpp. Section 4.2: zero the region. *)
Definition Initialize (d : t) (buffer : SliceBuffer) : SliceBuffer :=
  memset buffer (m_bufferOffset d) 0 (GetBufferSize (m_capacity d) (m_schema d)).

End DocTableDescriptor.

Module RowTableDescriptor.

Record t : Type := mk {
  m_capacity : Z;
  m_rowCount : Z;
  m_rank : Z;
  m_bufferOffset : Z
}.

(** Modelled from the spec: RowTableDescriptor.cpp is not among the
    sources. Section 4.2: a row at rank [r] uses [capacity / (8 * 2^r)]
    bytes. *)
Definition BytesInRow (capacity rank : Z) : Z :=
  capacity / (8 * 2 ^ rank).

(** Modelled from the spec: [RowTableDescriptor::GetBufferSize], missing
    with RowTableDescriptor.cpp: [rowCount] rows of [BytesInRow] bytes. *)
Definition GetBufferSize (capacity rowCount rank : Z) : Z :=
  wrap (rowCount * BytesInRow capacity rank).

(** Modelled from the spec: [RowTableDescriptor::GetRowOffset], missing
    with RowTableDescriptor.cpp. Section 4.2: row [row] starts at
    [baseOffset + row * rowBytes]. *)
Definition GetRowOffset (d : t) (row : Z) : Z :=
  m_bufferOffset d + row * BytesInRow (m_capacity d) (m_rank d).

(** The byte and the bit of [docIndex] inside a row (section 4.2: byte
    [(docIndex >> r) / 8], bit [(docIndex >> r) & 7]). *)
Definition byteOf (d : t) (row docIndex : Z) : Z :=
  GetRowOffset d row + Z.shiftr docIndex (m_rank d) / 8.

Definition bitOf (d : t) (docIndex : Z) : Z :=
  Z.land (Z.shiftr docIndex (m_rank d)) 7.

(** Modelled from the spec: [RowTableDescriptor::SetBit], [ClearBit] and
    [GetBit], missing with RowTableDescriptor.cpp; pure offset arithmetic
    over the buffer. *)
Definition SetBit (d : t) (buffer : SliceBuffer) (row docIndex : Z)
    : SliceBuffer :=
  let a := byteOf d row docIndex in
  store_byte buffer a (Z.lor (buffer a) (Z.shiftl 1 (bitOf d docIndex))).

Definition ClearBit (d : t) (buffer : SliceBuffer) (row docIndex : Z)
    : SliceBuffer :=
  let a := byteOf d row docIndex in
  store_byte buffer a
    (Z.land (buffer a) (Z.lxor 255 (Z.shiftl 1 (bitOf d docIndex)))).

Definition GetBit (d : t) (buffer : SliceBuffer) (row docIndex : Z) : bool :=
  Z.testbit (buffer (byteOf d row docIndex)) (bitOf d docIndex).

(** Modelled from the spec: [RowTableDescriptor::Initialize], missing
    with RowTableDescriptor.cpp. Section 4.2: zero the region, then set to
    1 every bit of every row of the document-active term; a row belongs to
    the table of its own rank. *)
Definition Initialize (d : t) (buffer : SliceBuffer) (termTable : ITermTable)
    : SliceBuffer :=
  let zeroed :=
    memset buffer (m_bufferOffset d) 0
           (GetBufferSize (m_capacity d) (m_rowCount d) (m_rank d)) in
  foldl (fun buf (row : RowId) =>
           if GetRank row =? m_rank d
           then memset buf (GetRowOffset d (GetIndex row)) 255
                       (BytesInRow (m_capacity d) (m_rank d))
           else buf)
        zeroed
        (RowIdSequence termTable (GetDocumentActiveTerm termTable)).

End RowTableDescriptor.

(** ** Slice.cpp *)

Module Slice.

(** The members of a Slice. [m_shard] is left out, the shard being passed
    to the operations that reach it, as is [m_temporaryNextDocIndex],
    which no function reads. *)
Record t : Type := mk {
  m_capacity : Z;
  m_refCount : Z;
  m_buffer : Z;
  m_unallocatedCount : Z;
  m_commitPendingCount : Z;
  m_expiredCount : Z
}.

(** The member initialisers of [Slice::Slice]: [capacity] is
    [shard.GetSliceCapacity()] and [buffer] the result of
    [shard.AllocateSliceBuffer()]. *)
Definition init (capacity buffer : Z) : t :=
  {| m_capacity := capacity;
     m_refCount := 1;
     m_buffer := buffer;
     m_unallocatedCount := capacity;
     m_commitPendingCount := 0;
     m_expiredCount := 0 |}.

Definition set_counts (s : t) (unallocated commitPending expired : Z) : t :=
  {| m_capacity := m_capacity s;
     m_refCount := m_refCount s;
     m_buffer := m_buffer s;
     m_unallocatedCount := unallocated;
     m_commitPendingCount := commitPending;
     m_expiredCount := expired |}.

Definition set_refCount (s : t) (refCount : Z) : t :=
  {| m_capacity := m_capacity s;
     m_refCount := refCount;
     m_buffer := m_buffer s;
     m_unallocatedCount := m_unallocatedCount s;
     m_commitPendingCount := m_commitPendingCount s;
     m_expiredCount := m_expiredCount s |}.

(** [bool Slice::TryAllocateDocument(size_t& index)]: [Some index] stands
    for [true] with the out-parameter written, [None] for [false]. *)
Definition TryAllocateDocument (s : t) : option Z * t :=
  if m_unallocatedCount s =? 0 then (None, s)
  else
    let index := wrap (m_capacity s - m_unallocatedCount s) in
    (Some index,
     set_counts s (wrap (m_unallocatedCount s - 1))
                  (wrap (m_commitPendingCount s + 1))
                  (m_expiredCount s)).

(** [bool Slice::CommitDocument()]. [documentsEntered] is the counter that
    [Shard::TemporaryRecordDocument] advances through the shard's
    DocumentFrequencyTableBuilder ([OnDocumentEnter]); the call comes
    before the assertion, so it is counted even when the assertion
    fails. *)
Definition CommitDocument (s : t) (documentsEntered : Z)
    : Result bool * t * Z :=
  let documentsEntered := documentsEntered + 1 in
  match LogAssertB (0 <? m_commitPendingCount s)
                   "CommitDocument with m_commitPendingCount == 0" with
  | Thrown e => (Thrown e, s, documentsEntered)
  | Returned _ =>
      let s' := set_counts s (m_unallocatedCount s)
                             (wrap (m_commitPendingCount s - 1))
                             (m_expiredCount s) in
      (Returned
         (wrap (m_unallocatedCount s' + m_commitPendingCount s') =? 0),
       s', documentsEntered)
  end.

(** [bool Slice::ExpireDocument()]. *)
Definition ExpireDocument (s : t) : Result bool * t :=
  let committedCount :=
    wrap (wrap (m_capacity s - m_unallocatedCount s)
          - m_commitPendingCount s) in
  match LogAssertB (m_expiredCount s <? committedCount)
                   "Slice expired more documents than committed." with
  | Thrown e => (Thrown e, s)
  | Returned _ =>
      let s' := set_counts s (m_unallocatedCount s)
                             (m_commitPendingCount s)
                             (wrap (m_expiredCount s + 1)) in
      (Returned (m_expiredCount s' =? m_capacity s'), s')
  end.

Definition IsExpired (s : t) : bool := m_expiredCount s =? m_capacity s.

Definition GetSliceBuffer (s : t) : Z := m_buffer s.

(** [Slice::IncrementRefCount]; the decrement, which may call back into
    the shard, is [Shard.DecrementRefCount] below. *)
Definition IncrementRefCount (s : t) : t :=
  set_refCount s (m_refCount s + 1).

(** [Slice::GetSlicePointer] returns a reference to the pointer-sized slot
    at [sliceBuffer + slicePtrOffset]; reading through the reference is
    [GetSliceFromBuffer], writing through it is what [Initialize] does.
    Offsets are relative to the start of the buffer. *)
Definition GetSliceFromBuffer (sliceBuffer : SliceBuffer) (slicePtrOffset : Z)
    : Z :=
  decode_le (load_bytes sliceBuffer slicePtrOffset (Z.to_nat c_sizeofPointer)).

(** [Slice::Initialize]: [this] is the address of the Slice under
    construction, [slicePtrOffset] is [m_shard.GetSlicePtrOffset()]. *)
Definition Initialize (this : Z) (sliceBuffer : SliceBuffer)
    (slicePtrOffset : Z) : SliceBuffer :=
  store_bytes sliceBuffer slicePtrOffset
              (encode_le (Z.to_nat c_sizeofPointer) this).

(** The loop of the constructor over the ranks [rank .. c_maxRankValue];
    [m_shard.GetRowTable(r)] is [m_rowTables.at(r)], which throws
    [std::out_of_range] when the shard has no table for [r]. The buffer is
    returned as the loop left it, also when it throws. *)
Fixpoint InitializeRowTables (count : nat) (rank : Z)
    (rowTables : list RowTableDescriptor.t) (termTable : ITermTable)
    (sliceBuffer : SliceBuffer) : Result unit * SliceBuffer :=
  match count with
  | O => (Returned tt, sliceBuffer)
  | S count' =>
      match rowTables !! Z.to_nat rank with
      | None => (Thrown OutOfRange, sliceBuffer)
      | Some rowTable =>
          InitializeRowTables count' (rank + 1) rowTables termTable
            (RowTableDescriptor.Initialize rowTable sliceBuffer termTable)
      end
  end.

(** What [Slice::Slice] does to its buffer: the back pointer, then the
    initialisation of the DocTable and of the RowTables. [raw] is the
    content of the buffer as the allocator returned it. *)
Definition construct_buffer (this : Z) (slicePtrOffset : Z)
    (docTable : DocTableDescriptor.t)
    (rowTables : list RowTableDescriptor.t) (termTable : ITermTable)
    (raw : SliceBuffer) : Result unit * SliceBuffer :=
  let buffer := Initialize this raw slicePtrOffset in
  let buffer := DocTableDescriptor.Initialize docTable buffer in
  InitializeRowTables (Z.to_nat (c_maxRankValue + 1)) 0 rowTables termTable
                      buffer.

(** [n] successive calls of [TryAllocateDocument]. *)
Fixpoint TryAllocateDocument_times (n : nat) (s : t) : list (option Z) * t :=
  match n with
  | O => ([], s)
  | S n' =>
      let '(r, s1) := TryAllocateDocument s in
      let '(rs, s2) := TryAllocateDocument_times n' s1 in
      (r :: rs, s2)
  end.

(** [n] successive calls of [CommitDocument]. *)
Fixpoint CommitDocument_times (n : nat) (s : t) (documentsEntered : Z)
    : list (Result bool) * t * Z :=
  match n with
  | O => ([], s, documentsEntered)
  | S n' =>
      let '(r, s1, d1) := CommitDocument s documentsEntered in
      let '(rs, s2, d2) := CommitDocument_times n' s1 d1 in
      (r :: rs, s2, d2)
  end.

(** The counters of a slice are within the bounds of section 3 of the
    spec. *)
Definition wf (s : t) : Prop :=
  0 <= m_unallocatedCount s /\ 0 <= m_commitPendingCount s /\
  0 <= m_expiredCount s /\
  m_unallocatedCount s + m_commitPendingCount s + m_expiredCount s
    <= m_capacity s /\
  m_capacity s < c_sizeModulus.

(** *** Sequences of calls *)

(** A call of one of the three operations that move the counters of a
    Slice, and what the call returned. *)
Inductive Op : Type :=
| OpTryAllocateDocument
| OpCommitDocument
| OpExpireDocument.

Inductive Outcome : Type :=
| Allocated (index : option Z)
| Committed (full : Result bool)
| Expired (expired : Result bool).

Definition run_op (op : Op) (s : t) (documentsEntered : Z)
    : Outcome * t * Z :=
  match op with
  | OpTryAllocateDocument =>
      let '(index, s') := TryAllocateDocument s in
      (Allocated index, s', documentsEntered)
  | OpCommitDocument =>
      let '(full, s', documentsEntered') :=
        CommitDocument s documentsEntered in
      (Committed full, s', documentsEntered')
  | OpExpireDocument =>
      let '(expired, s') := ExpireDocument s in
      (Expired expired, s', documentsEntered)
  end.

(** The calls [ops] made one after the other, whatever each returns: a
    failed assertion is an exception the caller may catch, and the Slice
    is there for the next call. *)
Fixpoint run (ops : list Op) (s : t) (documentsEntered : Z)
    : list Outcome * t * Z :=
  match ops with
  | [] => ([], s, documentsEntered)
  | op :: rest =>
      let '(outcome, s1, d1) := run_op op s documentsEntered in
      let '(outcomes, s2, d2) := run rest s1 d1 in
      (outcome :: outcomes, s2, d2)
  end.

(** The DocIndexes that the calls of [TryAllocateDocument] handed out, in
    the order of the calls. *)
Definition allocated_indexes (outcomes : list Outcome) : list Z :=
  flat_map (fun outcome =>
              match outcome with
              | Allocated (Some index) => [index]
              | _ => []
              end)
           outcomes.

(** The call was a [CommitDocument] that returned [true] (the slice is
    full), respectively an [ExpireDocument] that returned [true] (the
    slice is expired). *)
Definition reported_full (outcome : Outcome) : bool :=
  match outcome with
  | Committed (Returned true) => true
  | _ => false
  end.

Definition reported_expired (outcome : Outcome) : bool :=
  match outcome with
  | Expired (Returned true) => true
  | _ => false
  end.

End Slice.

(** ** The objects a shard works with *)

(** [DeferredSliceListDelete(slice, sliceBuffers, tokenManager)]: what the
    shard hands to [IRecycler::ScheduleRecyling]. The vector is kept by
    value: its content is what the recycler will free. *)
Record Recyclable : Type := DeferredSliceListDelete {
  recycled_slice : option Z;
  recycled_sliceBuffers : list Z
}.

(** The objects reachable from a shard: the Slice objects by address, the
    content of the slice buffers by address, and the queue of the
    recycler. *)
Record Heap : Type := mkHeap {
  slices : gmap Z Slice.t;
  buffers : gmap Z SliceBuffer;
  recycler : list Recyclable
}.

(** What the environment returns when a Slice is created: the address
    [operator new] picks for the object, and the buffer (address and
    initial content) [ISliceBufferAllocator::Allocate] returns. *)
Record Fresh : Type := mkFresh {
  newSlice : Z;
  newBuffer : Z;
  rawBuffer : SliceBuffer
}.

Module DocumentHandleInternal.

Record t : Type := mk {
  m_slice : Z;
  m_index : Z;
  m_id : Z
}.

End DocumentHandleInternal.

(** The DocumentFrequencyTableBuilder of a shard, as far as the shard
    drives it: the terms passed to [OnTerm] (latest first) and the number
    of calls of [OnDocumentEnter]. *)
Module DocumentFrequencyTableBuilder.

Record t : Type := mk {
  m_terms : list Term;
  m_documents : Z
}.

Definition OnTerm (b : t) (term : Term) : t :=
  {| m_terms := term :: m_terms b; m_documents := m_documents b |}.

End DocumentFrequencyTableBuilder.

(** ** Shard.cpp *)

Module Shard.

Record t : Type := mk {
  m_termTable : ITermTable;
  m_documentActiveRowId : RowId;
  m_activeSlice : option Z;
  m_sliceBuffers : list Z;
  m_sliceCapacity : Z;
  m_sliceBufferSize : Z;
  m_docFrequencyTableBuilder : option DocumentFrequencyTableBuilder.t;
  m_docTable : DocTableDescriptor.t;
  m_rowTables : list RowTableDescriptor.t
}.

Definition set_slices (sh : t) (activeSlice : option Z) (sliceBuffers : list Z)
    : t :=
  {| m_termTable := m_termTable sh;
     m_documentActiveRowId := m_documentActiveRowId sh;
     m_activeSlice := activeSlice;
     m_sliceBuffers := sliceBuffers;
     m_sliceCapacity := m_sliceCapacity sh;
     m_sliceBufferSize := m_sliceBufferSize sh;
     m_docFrequencyTableBuilder := m_docFrequencyTableBuilder sh;
     m_docTable := m_docTable sh;
     m_rowTables := m_rowTables sh |}.

Definition set_builder (sh : t)
    (builder : option DocumentFrequencyTableBuilder.t) : t :=
  {| m_termTable := m_termTable sh;
     m_documentActiveRowId := m_documentActiveRowId sh;
     m_activeSlice := m_activeSlice sh;
     m_sliceBuffers := m_sliceBuffers sh;
     m_sliceCapacity := m_sliceCapacity sh;
     m_sliceBufferSize := m_sliceBufferSize sh;
     m_docFrequencyTableBuilder := builder;
     m_docTable := m_docTable sh;
     m_rowTables := m_rowTables sh |}.

(** [RowIdForActiveDocument]. *)
Definition RowIdForActiveDocument (termTable : ITermTable) : Result RowId :=
  match RowIdSequence termTable (GetDocumentActiveTerm termTable) with
  | [] =>
      Thrown (RecoverableError
                "RowIdForDeletedDocument: expected at least one row.")
  | rowId :: rest =>
      if negb (GetRank rowId =? 0) then
        Thrown (RecoverableError
                  "RowIdForDeletedDocument: soft deleted row must be rank 0..")
      else
        match rest with
        | _ :: _ =>
            Thrown (RecoverableError
                      "RowIdForDeletedDocument: expected no more than one row.")
        | [] => Returned rowId
        end
  end.

(** The loop of [InitializeDescriptors] over the ranks
    [r .. c_maxRankValue]: the descriptors it emplaces and the offset it
    reaches. *)
Fixpoint InitializeRowTableDescriptors (count : nat) (r : Z)
    (sliceCapacity : Z) (termTable : ITermTable) (currentOffset : Z)
    : list RowTableDescriptor.t * Z :=
  match count with
  | O => ([], currentOffset)
  | S count' =>
      let rowCount := GetTotalRowCount termTable r in
      let rowTable :=
        RowTableDescriptor.mk sliceCapacity rowCount r currentOffset in
      let currentOffset :=
        to_ptrdiff
          (currentOffset
           + RowTableDescriptor.GetBufferSize sliceCapacity rowCount r) in
      let '(rowTables, final) :=
        InitializeRowTableDescriptors count' (r + 1) sliceCapacity termTable
                                      currentOffset in
      (rowTable :: rowTables, final)
  end.

(** [Shard::InitializeDescriptors]: the DocTable descriptor, the RowTable
    descriptors and the size of the slice buffer. With [shard == nullptr]
    the source computes the same size and drops the descriptors. *)
Definition InitializeDescriptors (sliceCapacity : Z)
    (docDataSchema : IDocumentDataSchema) (termTable : ITermTable)
    : DocTableDescriptor.t * list RowTableDescriptor.t * Z :=
  let currentOffset := 0 in
  let docTable :=
    DocTableDescriptor.mk sliceCapacity docDataSchema currentOffset in
  let currentOffset :=
    to_ptrdiff
      (currentOffset
       + DocTableDescriptor.GetBufferSize sliceCapacity docDataSchema) in
  let '(rowTables, currentOffset) :=
    InitializeRowTableDescriptors (Z.to_nat (c_maxRankValue + 1)) 0
                                  sliceCapacity termTable currentOffset in
  let currentOffset := to_ptrdiff (currentOffset + c_sizeofPointer) in
  let sliceBufferSize := wrap currentOffset in
  (docTable, rowTables, sliceBufferSize).

(** [InitializeDescriptors(nullptr, ...)]. *)
Definition InitializeDescriptors_size (sliceCapacity : Z)
    (docDataSchema : IDocumentDataSchema) (termTable : ITermTable) : Z :=
  snd (InitializeDescriptors sliceCapacity docDataSchema termTable).

(** The [for (;;)] loop of [GetCapacityForByteSize], started with
    [capacity]; [None] when [fuel] iterations did not reach the
    [break]. *)
Fixpoint GetCapacityForByteSize_loop (fuel : nat) (bufferSizeInBytes : Z)
    (schema : IDocumentDataSchema) (termTable : ITermTable) (capacity : Z)
    : option Z :=
  match fuel with
  | O => None
  | S fuel' =>
      let newSuggestedCapacity :=
        wrap (capacity
              + DocumentsInRank0Row 1 (GetMaxRankUsed termTable)) in
      let newBufferSize :=
        InitializeDescriptors_size newSuggestedCapacity schema termTable in
      if newBufferSize >? bufferSizeInBytes then Some capacity
      else GetCapacityForByteSize_loop fuel' bufferSizeInBytes schema
                                       termTable newSuggestedCapacity
  end.

(** [Shard::GetCapacityForByteSize]. *)
Definition GetCapacityForByteSize (fuel : nat) (bufferSizeInBytes : Z)
    (schema : IDocumentDataSchema) (termTable : ITermTable)
    : option (Result Z) :=
  match GetCapacityForByteSize_loop fuel bufferSizeInBytes schema termTable 0
  with
  | None => None
  | Some capacity =>
      match LogAssertB (0 <? capacity) "Shard with 0 capacity." with
      | Thrown e => Some (Thrown e)
      | Returned _ => Some (Returned capacity)
      end
  end.

(** [Shard::Shard], with the initialisers in the order of the source. *)
Definition construct (fuel : nat) (termTable : ITermTable)
    (docDataSchema : IDocumentDataSchema) (sliceBufferSize : Z)
    : option (Result t) :=
  match RowIdForActiveDocument termTable with
  | Thrown e => Some (Thrown e)
  | Returned documentActiveRowId =>
      match GetCapacityForByteSize fuel sliceBufferSize docDataSchema
                                   termTable with
      | None => None
      | Some (Thrown e) => Some (Thrown e)
      | Some (Returned sliceCapacity) =>
          let '(docTable, rowTables, bufferSize) :=
            InitializeDescriptors sliceCapacity docDataSchema termTable in
          match LogAssertB (bufferSize <=? sliceBufferSize)
                           "Shard sliceBufferSize too small." with
          | Thrown e => Some (Thrown e)
          | Returned _ =>
              Some (Returned
                      {| m_termTable := termTable;
                         m_documentActiveRowId := documentActiveRowId;
                         m_activeSlice := None;
                         m_sliceBuffers := [];
                         m_sliceCapacity := sliceCapacity;
                         m_sliceBufferSize := sliceBufferSize;
                         m_docFrequencyTableBuilder :=
                           Some (DocumentFrequencyTableBuilder.mk [] 0);
                         m_docTable := docTable;
                         m_rowTables := rowTables |})
          end
      end
  end.

Definition GetSliceCapacity (sh : t) : Z := m_sliceCapacity sh.

(** [Shard::GetSlicePtrOffset]: a [size_t] subtraction returned as
    [ptrdiff_t]. *)
Definition GetSlicePtrOffset (sh : t) : Z :=
  to_ptrdiff (wrap (m_sliceBufferSize sh - c_sizeofPointer)).

(** An upper bound of [max_size()] for a vector of pointers: no
    implementation can hold more than [PTRDIFF_MAX] bytes of elements. *)
Definition c_vectorMaxSize : Z := (2 ^ 63 - 1) / c_sizeofPointer.

Definition set_slice (h : Heap) (address : Z) (s : Slice.t) : Heap :=
  {| slices := <[address := s]> (slices h);
     buffers := buffers h;
     recycler := recycler h |}.

Definition set_buffer (h : Heap) (address : Z) (content : SliceBuffer) : Heap :=
  {| slices := slices h;
     buffers := <[address := content]> (buffers h);
     recycler := recycler h |}.

(** [m_recycler.ScheduleRecyling(item)]. *)
Definition ScheduleRecyling (h : Heap) (item : Recyclable) : Heap :=
  {| slices := slices h;
     buffers := buffers h;
     recycler := recycler h ++ [item] |}.

(** [Shard::CreateNewActiveSlice], with the [new Slice] expression inlined: the
    buffer comes from the allocator, the Slice object is placed at
    [newSlice env]. When the constructor of the Slice throws, the shard is
    left as it was and the buffer stays allocated. *)
Definition CreateNewActiveSlice (env : Fresh) (sh : t) (h : Heap)
    : Result unit * t * Heap :=
  let buffer := newBuffer env in
  let slice := Slice.init (GetSliceCapacity sh) buffer in
  match Slice.construct_buffer (newSlice env) (GetSlicePtrOffset sh)
          (m_docTable sh) (m_rowTables sh) (m_termTable sh) (rawBuffer env)
  with
  | (Thrown e, content) => (Thrown e, sh, set_buffer h buffer content)
  | (Returned _, content) =>
      let h := set_slice (set_buffer h buffer content) (newSlice env) slice in
      let oldSlices := m_sliceBuffers sh in
      let newSlices := oldSlices ++ [Slice.GetSliceBuffer slice] in
      let sh := set_slices sh (Some (newSlice env)) newSlices in
      (Returned tt, sh,
       ScheduleRecyling h (DeferredSliceListDelete None oldSlices))
  end.

(** [m_activeSlice->TryAllocateDocument(index)] on the Slice object at
    [address]; [None] when there is no such object (a dangling pointer). *)
Definition TryAllocateDocument_at (address : Z) (h : Heap)
    : option (option Z * Heap) :=
  match slices h !! address with
  | None => None
  | Some s =>
      let '(index, s') := Slice.TryAllocateDocument s in
      Some (index, set_slice h address s')
  end.

(** The body of the [if] of [AllocateDocument]: a new active slice, and
    the allocation from it as the condition of [LogAssertB]. *)
Definition AllocateDocument_from_new_slice (env : Fresh) (id : Z) (sh : t)
    (h : Heap) : option (Result DocumentHandleInternal.t * t * Heap) :=
  match CreateNewActiveSlice env sh h with
  | (Thrown e, sh, h) => Some (Thrown e, sh, h)
  | (Returned _, sh, h) =>
      match m_activeSlice sh with
      | None => None
      | Some active =>
          match TryAllocateDocument_at active h with
          | None => None
          | Some (Some index, h) =>
              Some (Returned (DocumentHandleInternal.mk active index id),
                    sh, h)
          | Some (None, h) =>
              match LogAssertB false "Newly allocated slice has no space."
              with
              | Thrown e => Some (Thrown e, sh, h)
              | Returned _ => None
              end
          end
      end
  end.

(** [Shard::AllocateDocument]. The condition of the [if] short-circuits:
    the active slice is asked only when there is one. [None] stands for
    undefined behaviour (the active slice points to no object). *)
Definition AllocateDocument (env : Fresh) (id : Z) (sh : t) (h : Heap)
    : option (Result DocumentHandleInternal.t * t * Heap) :=
  match m_activeSlice sh with
  | None => AllocateDocument_from_new_slice env id sh h
  | Some active =>
      match TryAllocateDocument_at active h with
      | None => None
      | Some (Some index, h) =>
          Some (Returned (DocumentHandleInternal.mk active index id), sh, h)
      | Some (None, h) => AllocateDocument_from_new_slice env id sh h
      end
  end.

(** [Shard::RecycleSlice(slice)], [slice] being the address of the Slice.
    [reserve(size() - 1)] is a [size_t] subtraction: on an empty vector it
    asks for [SIZE_MAX] elements and throws [std::length_error]. [None]
    stands for undefined behaviour ([slice] refers to no object). *)
Definition RecycleSlice (slice : Z) (sh : t) (h : Heap)
    : option (Result unit * t * Heap) :=
  match slices h !! slice with
  | None => None
  | Some s =>
      if negb (Slice.IsExpired s) then
        Some (Thrown (RecoverableError
                        "Slice being recycled has not been fully expired"),
              sh, h)
      else if wrap (Z.of_nat (length (m_sliceBuffers sh)) - 1)
                >? c_vectorMaxSize then
        Some (Thrown LengthError, sh, h)
      else
        let newSlices :=
          filter (fun it => it <> Slice.GetSliceBuffer s)
                 (m_sliceBuffers sh) in
        if negb (Z.of_nat (length (m_sliceBuffers sh))
                 =? wrap (Z.of_nat (length newSlices) + 1)) then
          Some (Thrown (RecoverableError
                          "Slice buffer to be removed is not found in the active slice buffers list"),
                sh, h)
        else
          let oldSlices := m_sliceBuffers sh in
          let activeSlice :=
            if decide (m_activeSlice sh = Some slice) then None
            else m_activeSlice sh in
          Some (Returned tt,
                set_slices sh activeSlice newSlices,
                ScheduleRecyling h
                  (DeferredSliceListDelete (Some slice) oldSlices))
  end.

(** The loop of [AddPosting] over the rows of the term.
    [m_rowTables[row.GetRank()]] is unchecked: [None] stands for the
    undefined behaviour of a rank without a table. *)
Fixpoint AddPosting_rows (rowTables : list RowTableDescriptor.t)
    (rows : list RowId) (index : Z) (sliceBuffer : SliceBuffer)
    : option SliceBuffer :=
  match rows with
  | [] => Some sliceBuffer
  | row :: rest =>
      if GetRank row <? 0 then None
      else
        match rowTables !! Z.to_nat (GetRank row) with
        | None => None
        | Some rowTable =>
            AddPosting_rows rowTables rest index
              (RowTableDescriptor.SetBit rowTable sliceBuffer
                                         (GetIndex row) index)
        end
  end.

(** [Shard::AddPosting]. *)
Definition AddPosting (term : Term) (index : Z) (sliceBuffer : SliceBuffer)
    (sh : t) : option (t * SliceBuffer) :=
  let sh :=
    match m_docFrequencyTableBuilder sh with
    | Some builder =>
        set_builder sh
          (Some (DocumentFrequencyTableBuilder.OnTerm builder term))
    | None => sh
    end in
  match AddPosting_rows (m_rowTables sh)
                        (RowIdSequence (m_termTable sh) term)
                        index sliceBuffer with
  | None => None
  | Some sliceBuffer => Some (sh, sliceBuffer)
  end.

(** [slice->CommitDocument()] on the Slice object at [slice], a slice of
    the shard [sh]: the counter that [Shard::TemporaryRecordDocument]
    advances is the one of the builder of the shard, dereferenced without
    a test ([None] stands for the null pointer, as for a dangling
    [slice]). *)
Definition CommitDocument_at (slice : Z) (sh : t) (h : Heap)
    : option (Result bool * t * Heap) :=
  match slices h !! slice, m_docFrequencyTableBuilder sh with
  | Some s, Some builder =>
      let '(r, s', documents) :=
        Slice.CommitDocument
          s (DocumentFrequencyTableBuilder.m_documents builder) in
      Some (r,
            set_builder sh
              (Some (DocumentFrequencyTableBuilder.mk
                       (DocumentFrequencyTableBuilder.m_terms builder)
                       documents)),
            set_slice h slice s')
  | _, _ => None
  end.

(** [Slice::DecrementRefCount(slice)]; the count is read back as an
    [unsigned]. *)
Definition DecrementRefCount (slice : Z) (sh : t) (h : Heap)
    : option (Result unit * t * Heap) :=
  match slices h !! slice with
  | None => None
  | Some s =>
      let newRefCount := (Slice.m_refCount s - 1) mod 2 ^ 32 in
      let h := set_slice h slice (Slice.set_refCount s newRefCount) in
      if newRefCount =? 0 then RecycleSlice slice sh h
      else Some (Returned tt, sh, h)
  end.

(** [n] successive calls of [AllocateDocument] for the ids [id], [id + 1],
    ...; [env] tells what the environment returns when the call creates a
    Slice. The handles are returned in the order of the calls; the
    sequence stops at the first call that throws. *)
Fixpoint AllocateDocument_times (n : nat) (env : Heap -> Fresh) (id : Z)
    (sh : t) (h : Heap)
    : option (Result (list DocumentHandleInternal.t) * t * Heap) :=
  match n with
  | O => Some (Returned [], sh, h)
  | S n' =>
      match AllocateDocument (env h) id sh h with
      | None => None
      | Some (Thrown e, sh, h) => Some (Thrown e, sh, h)
      | Some (Returned handle, sh, h) =>
          match AllocateDocument_times n' env (id + 1) sh h with
          | None => None
          | Some (Thrown e, sh, h) => Some (Thrown e, sh, h)
          | Some (Returned handles, sh, h) =>
              Some (Returned (handle :: handles), sh, h)
          end
      end
  end.

(** [Shard::GetRowTable]: [m_rowTables.at(rank)], which throws
    [std::out_of_range] for a rank without a table; [Rank] is unsigned. *)
Definition GetRowTable (sh : t) (rank : Z) : Result RowTableDescriptor.t :=
  match m_rowTables sh !! Z.to_nat rank with
  | Some rowTable => Returned rowTable
  | None => Thrown OutOfRange
  end.

(** [Shard::GetRowOffset]. *)
Definition GetRowOffset (sh : t) (rowId : RowId) : Result Z :=
  match GetRowTable sh (GetRank rowId) with
  | Thrown e => Thrown e
  | Returned rowTable =>
      Returned (RowTableDescriptor.GetRowOffset rowTable (GetIndex rowId))
  end.

(** [Shard::GetUsedCapacityInBytes]: a [size_t] product. *)
Definition GetUsedCapacityInBytes (sh : t) : Z :=
  wrap (Z.of_nat (length (m_sliceBuffers sh)) * m_sliceBufferSize sh).

(** [Shard::AssertFact]. The term of the fact is [Term(fact, 0u, 0u, 1u)],
    the arguments in the order of the call. The buffer is returned as the
    call left it; [m_rowTables[row.GetRank()]] is unchecked, and [None]
    stands for the undefined behaviour of a rank without a table. *)
Definition AssertFact (fact : Z) (value : bool) (index : Z)
    (sliceBuffer : SliceBuffer) (sh : t)
    : option (Result unit * SliceBuffer) :=
  let term := mkTerm fact 0 0 1 in
  match RowIdSequence (m_termTable sh) term with
  | [] =>
      Some (Thrown (RecoverableError
                      "Shard::AssertFact: expected at least one row."),
            sliceBuffer)
  | row :: rest =>
      match rest with
      | _ :: _ =>
          Some (Thrown (RecoverableError
                          "Shard::AssertFact: expected no more than one row."),
                sliceBuffer)
      | [] =>
          if GetRank row <? 0 then None
          else
            match m_rowTables sh !! Z.to_nat (GetRank row) with
            | None => None
            | Some rowTable =>
                Some (Returned tt,
                      if value
                      then RowTableDescriptor.SetBit rowTable sliceBuffer
                                                     (GetIndex row) index
                      else RowTableDescriptor.ClearBit rowTable sliceBuffer
                                                       (GetIndex row) index)
            end
      end
  end.

(** [slice->ExpireDocument()] on the Slice object at [slice]; [None] when
    there is no such object. *)
Definition ExpireDocument_at (slice : Z) (h : Heap)
    : option (Result bool * Heap) :=
  match slices h !! slice with
  | None => None
  | Some s =>
      let '(r, s') := Slice.ExpireDocument s in
      Some (r, set_slice h slice s')
  end.

(** *** Layout conditions *)

(** The region [[offset, offset + size)] does not meet the pointer slot
    at [slot]. *)
Definition clear_of_slot (slot offset size : Z) : bool :=
  (size <=? 0) || (offset + size <=? slot) || (slot + c_sizeofPointer <=? offset).

(** The descriptors of the shard leave the pointer slot at the end of the
    slice buffer alone: neither the DocTable region, nor a RowTable
    region, nor a row of the document-active term meets it, and there is
    a RowTable for each rank. The constructor establishes this by sizing
    the buffer with [InitializeDescriptors] and asserting that the result
    fits. *)
Definition layout_keeps_slot (sh : t) : bool :=
  let slot := GetSlicePtrOffset sh in
  let docTable := m_docTable sh in
  clear_of_slot slot (DocTableDescriptor.m_bufferOffset docTable)
    (DocTableDescriptor.GetBufferSize
       (DocTableDescriptor.m_capacity docTable)
       (DocTableDescriptor.m_schema docTable))
  && forallb
       (fun d =>
          clear_of_slot slot (RowTableDescriptor.m_bufferOffset d)
            (RowTableDescriptor.GetBufferSize
               (RowTableDescriptor.m_capacity d)
               (RowTableDescriptor.m_rowCount d)
               (RowTableDescriptor.m_rank d))
          && forallb
               (fun row =>
                  negb (GetRank row =? RowTableDescriptor.m_rank d)
                  || clear_of_slot slot
                       (RowTableDescriptor.GetRowOffset d (GetIndex row))
                       (RowTableDescriptor.BytesInRow
                          (RowTableDescriptor.m_capacity d)
                          (RowTableDescriptor.m_rank d)))
               (RowIdSequence (m_termTable sh)
                              (GetDocumentActiveTerm (m_termTable sh))))
       (m_rowTables sh)
  && (Z.of_nat (length (m_rowTables sh)) =? c_maxRankValue + 1).

(** The bytes the RowTables of the ranks [r], [r + 1], ... ([count] of
    them) take together, summed without wrap-around. *)
Fixpoint rowTables_extent (count : nat) (r : Z) (sliceCapacity : Z)
    (termTable : ITermTable) : Z :=
  match count with
  | O => 0
  | S count' =>
      RowTableDescriptor.GetBufferSize
        sliceCapacity (GetTotalRowCount termTable r) r
      + rowTables_extent count' (r + 1) sliceCapacity termTable
  end.

(** The bytes of the whole layout, summed without wrap-around: the value
    [InitializeDescriptors] returns when no addition overflows. *)
Definition layout_extent (sliceCapacity : Z)
    (docDataSchema : IDocumentDataSchema) (termTable : ITermTable) : Z :=
  DocTableDescriptor.GetBufferSize sliceCapacity docDataSchema
  + rowTables_extent (Z.to_nat (c_maxRankValue + 1)) 0 sliceCapacity
                     termTable
  + c_sizeofPointer.

(** The active slice, when there is one, is a live Slice of the shard
    with counters within bounds. *)
Definition active_slice_ok (sh : t) (h : Heap) : Prop :=
  match m_activeSlice sh with
  | None => True
  | Some active =>
      exists s, slices h !! active = Some s /\ Slice.wf s /\
                Slice.m_capacity s = m_sliceCapacity sh
  end.

(** Bit [bit] of the byte at [offset] is one of the bits [AddPosting]
    addresses for [term] and [index]: the column of [index] in a row of
    the term. *)
Definition addressed (sh : t) (term : Term) (index : Z) (offset bit : Z)
    : bool :=
  existsb
    (fun row =>
       match m_rowTables sh !! Z.to_nat (GetRank row) with
       | None => false
       | Some rowTable =>
           (offset =? RowTableDescriptor.byteOf rowTable (GetIndex row) index)
           && (bit =? RowTableDescriptor.bitOf rowTable index)
       end)
    (RowIdSequence (m_termTable sh) term).

End Shard.

(** ** Ingestor.cpp *)

Module Ingestor.

(** Modelled from the spec: DocumentLengthHistogram.cpp is not among the
    sources. Section 4.5: the ingestor accumulates the posting count of
    every document into a histogram; here the number of documents seen
    for each posting count. *)
Definition Histogram_AddDocument (postingCount : Z) (histogram : gmap Z Z)
    : gmap Z Z :=
  <[postingCount := wrap (default 0 (histogram !! postingCount) + 1)]>
    histogram.

(** Modelled from the spec: DocumentMap.cpp is not among the sources.
    Section 3: a mapping from DocId to the location of the document, with
    unique keys; section 4.5: insertion fails on a duplicate id. *)
Definition DocumentMap_Add (handle : DocumentHandleInternal.t)
    (map : gmap Z DocumentHandleInternal.t)
    : Result (gmap Z DocumentHandleInternal.t) :=
  match map !! DocumentHandleInternal.m_id handle with
  | Some _ => Thrown (RecoverableError "DocumentMap::Add: duplicate DocId.")
  | None => Returned (<[DocumentHandleInternal.m_id handle := handle]> map)
  end.

(** Modelled from the spec: [DocumentMap::Find], missing with
    DocumentMap.cpp. *)
Definition DocumentMap_Find (id : Z) (map : gmap Z DocumentHandleInternal.t)
    : option DocumentHandleInternal.t :=
  map !! id.

(** Modelled from the spec: [DocumentMap::Delete], missing with
    DocumentMap.cpp. Section 4.5: the mapping of the id is removed. *)
Definition DocumentMap_Delete (id : Z) (map : gmap Z DocumentHandleInternal.t)
    : gmap Z DocumentHandleInternal.t :=
  delete id map.

(** The calls [Add] makes on its collaborators, in the order it makes
    them; kept next to the state so that theorems can tell which calls
    took place. *)
Inductive Call : Type :=
| CallAllocateDocument (shardId id : Z)
| CallIngest (handle : DocumentHandleInternal.t)
| CallActivate (handle : DocumentHandleInternal.t)
| CallCommitDocument (handle : DocumentHandleInternal.t)
| CallDocumentMapAdd (handle : DocumentHandleInternal.t)
| CallExpire (handle : DocumentHandleInternal.t).

Section WithIndex.

(** The shards with their slices and buffers, as seen from the
    ingestor. *)
Context {Index : Type}.

(** An operation of a collaborator on the index: its outcome and the index
    it leaves; [None] stands for undefined behaviour. *)
Definition Operation (A : Type) : Type := Index -> option (Result A * Index).

(** The collaborators of [Ingestor::Add] other than the document:
    [m_shardDefinition.GetShard], [m_shards[shardId]->AllocateDocument],
    [handle.Activate], [handle.GetSlice()->CommitDocument] and
    [handle.Expire]. *)
Record Collaborators : Type := mkCollaborators {
  GetShard : Z -> Z;
  AllocateDocument : Z -> Z -> Operation DocumentHandleInternal.t;
  Activate : DocumentHandleInternal.t -> Operation unit;
  CommitDocument : DocumentHandleInternal.t -> Operation bool;
  Expire : DocumentHandleInternal.t -> Operation unit
}.

(** [IDocument]. *)
Record IDocument : Type := mkDocument {
  GetPostingCount : Z;
  Ingest : DocumentHandleInternal.t -> Operation unit
}.

Record t : Type := mk {
  m_documentCount : Z;
  m_histogram : gmap Z Z;
  m_documentMap : gmap Z DocumentHandleInternal.t;
  m_index : Index;
  m_log : list (string * string);
  calls : list Call
}.

(** Computations of the ingestor: state passing with exceptions. *)
Definition M (A : Type) : Type := t -> option (Result A * t).

Definition ret {A : Type} (a : A) : M A := fun s => Some (Returned a, s).

Definition throw {A : Type} (e : Exn) : M A := fun s => Some (Thrown e, s).

Definition bind {A B : Type} (m : M A) (k : A -> M B) : M B :=
  fun s =>
    match m s with
    | None => None
    | Some (Thrown e, s') => Some (Thrown e, s')
    | Some (Returned a, s') => k a s'
    end.

(** [try { body } catch (...) { handler }]; the handler receives the
    exception in flight, so that a bare [throw;] can rethrow it. *)
Definition try_catch {A : Type} (body : M A) (handler : Exn -> M A) : M A :=
  fun s =>
    match body s with
    | None => None
    | Some (Thrown e, s') => handler e s'
    | Some (Returned a, s') => Some (Returned a, s')
    end.

Definition modify (f : t -> t) : M unit := fun s => Some (Returned tt, f s).

(** A call on a collaborator: recorded, then run on the index. *)
Definition call {A : Type} (c : Call) (op : Operation A) : M A :=
  fun s =>
    match op (m_index s) with
    | None => None
    | Some (r, index) =>
        Some (r, {| m_documentCount := m_documentCount s;
                    m_histogram := m_histogram s;
                    m_documentMap := m_documentMap s;
                    m_index := index;
                    m_log := m_log s;
                    calls := calls s ++ [c] |})
    end.

Definition increment_documentCount (s : t) : t :=
  {| m_documentCount := wrap (m_documentCount s + 1);
     m_histogram := m_histogram s;
     m_documentMap := m_documentMap s;
     m_index := m_index s;
     m_log := m_log s;
     calls := calls s |}.

Definition histogram_AddDocument (postingCount : Z) (s : t) : t :=
  {| m_documentCount := m_documentCount s;
     m_histogram := Histogram_AddDocument postingCount (m_histogram s);
     m_documentMap := m_documentMap s;
     m_index := m_index s;
     m_log := m_log s;
     calls := calls s |}.

(** [m_documentMap->Add(handle)]. *)
Definition documentMap_Add (handle : DocumentHandleInternal.t) : M unit :=
  fun s =>
    let s1 := {| m_documentCount := m_documentCount s;
                 m_histogram := m_histogram s;
                 m_documentMap := m_documentMap s;
                 m_index := m_index s;
                 m_log := m_log s;
                 calls := calls s ++ [CallDocumentMapAdd handle] |} in
    match DocumentMap_Add handle (m_documentMap s) with
    | Thrown e => Some (Thrown e, s1)
    | Returned map =>
        Some (Returned tt,
              {| m_documentCount := m_documentCount s1;
                 m_histogram := m_histogram s1;
                 m_documentMap := map;
                 m_index := m_index s1;
                 m_log := m_log s1;
                 calls := calls s1 |})
    end.

(** [LogB(Logging::Error, title, message, ...)]. *)
Definition LogB (title message : string) : M unit :=
  modify (fun s =>
    {| m_documentCount := m_documentCount s;
       m_histogram := m_histogram s;
       m_documentMap := m_documentMap s;
       m_index := m_index s;
       m_log := m_log s ++ [(title, message)];
       calls := calls s |}).

Notation "x <- m ;; k" := (bind m (fun x => k))
  (at level 100, m at next level, right associativity).
Notation "m ;; k" := (bind m (fun _ => k))
  (at level 100, right associativity).

Variable collaborators : Collaborators.

(** [Ingestor::Add]. *)
Definition Add (id : Z) (document : IDocument) : M unit :=
  modify increment_documentCount ;;
  modify (histogram_AddDocument (GetPostingCount document)) ;;
  let shardId := GetShard collaborators (GetPostingCount document) in
  handle <- call (CallAllocateDocument shardId id)
                 (AllocateDocument collaborators shardId id) ;;
  call (CallIngest handle) (Ingest document handle) ;;
  call (CallActivate handle) (Activate collaborators handle) ;;
  _ <- call (CallCommitDocument handle)
            (CommitDocument collaborators handle) ;;
  try_catch
    (documentMap_Add handle)
    (fun original =>
       try_catch
         (call (CallExpire handle) (Expire collaborators handle))
         (fun _ =>
            LogB "Ingestor::Add"
                 "Error while cleaning up after AddDocument operation failed.") ;;
       throw original).

(** [Ingestor::Contains]. *)
Definition Contains (id : Z) (s : t) : bool :=
  match DocumentMap_Find id (m_documentMap s) with
  | Some _ => true
  | None => false
  end.

(** [m_documentMap->Find(id, isFound)]: [None] stands for [isFound] being
    false. *)
Definition documentMap_Find (id : Z) : M (option DocumentHandleInternal.t) :=
  fun s => Some (Returned (DocumentMap_Find id (m_documentMap s)), s).

(** [m_documentMap->Delete(id)]. *)
Definition documentMap_Delete (id : Z) : M unit :=
  modify (fun s =>
    {| m_documentCount := m_documentCount s;
       m_histogram := m_histogram s;
       m_documentMap := DocumentMap_Delete id (m_documentMap s);
       m_index := m_index s;
       m_log := m_log s;
       calls := calls s |}).

(** A call on a collaborator that is run on the index without being
    recorded. *)
Definition run_operation {A : Type} (op : Operation A) : M A :=
  fun s =>
    match op (m_index s) with
    | None => None
    | Some (r, index) =>
        Some (r, {| m_documentCount := m_documentCount s;
                    m_histogram := m_histogram s;
                    m_documentMap := m_documentMap s;
                    m_index := index;
                    m_log := m_log s;
                    calls := calls s |})
    end.

(** [Ingestor::Delete]. [RequestToken] is [m_tokenManager->RequestToken()];
    the token is held until the function is left. The lock on
    [m_deleteDocumentLock] serialises the calls, which are sequential
    here. *)
Definition Delete (RequestToken : Operation unit) (id : Z) : M bool :=
  run_operation RequestToken ;;
  location <- documentMap_Find id ;;
  match location with
  | Some location =>
      documentMap_Delete id ;;
      call (CallExpire location) (Expire collaborators location) ;;
      ret true
  | None => ret false
  end.

End WithIndex.

Arguments t : clear implicits.
Arguments Collaborators : clear implicits.
Arguments IDocument : clear implicits.

End Ingestor.

(** ** QueryParser.cpp *)

Module QueryParser.

(** Characters are byte values; [chars] gives the characters of a string
    literal. *)
Definition chars (s : string) : list Z :=
  map (fun a => Z.of_N (Ascii.N_of_ascii a)) (String.list_ascii_of_string s).

Definition text (cs : list Z) : string :=
  String.string_of_list_ascii
    (map (fun c => Ascii.ascii_of_N (Z.to_N c)) cs).

(** The double quote and the backslash. *)
Definition c_quote : Z := 34.
Definition c_backslash : Z := 92.

(** [isspace] in the C locale. *)
Definition isspace (c : Z) : bool :=
  (c =? 32) || ((9 <=? c) && (c <=? 13)).

(** [strchr(s, c) != nullptr]: the terminating NUL of [s] is part of the
    string, so the NUL character is always found. *)
Definition strchr (s : list Z) (c : Z) : bool :=
  (c =? 0) || existsb (Z.eqb c) s.

(** The conversion of a [char] to [size_t], [char] being signed as on
    x86-64: bytes from 128 on are negative and wrap around. *)
Definition size_t_of_char (c : Z) : Z :=
  wrap (if c <? 128 then c else c - 256).

#[warnings="-register-all"]
Inductive TermMatchNode : Type :=
| OrMatch (children : list TermMatchNode)
| AndMatch (children : list TermMatchNode)
| NotMatch (child : TermMatchNode)
| Unigram (token : list Z) (streamId : Z)
| Phrase (grams : list (list Z)) (streamId : Z).

(** The parser: what is left of [m_input], and the members. *)
Record t : Type := mk {
  m_input : list Z;
  m_currentPosition : Z;
  m_haveChar : bool;
  m_nextChar : Z
}.

(** [QueryParser::QueryParser]. The source leaves [m_nextChar]
    uninitialised; it is written before it is read. *)
Definition init (input : list Z) : t :=
  {| m_input := input;
     m_currentPosition := 0;
     m_haveChar := false;
     m_nextChar := 0 |}.

(** Parsing computations; [None] when the fuel of a loop or of the
    recursion ran out. *)
Definition P (A : Type) : Type := t -> option (Result A * t).

Definition ret {A : Type} (a : A) : P A := fun s => Some (Returned a, s).

Definition throw {A : Type} (e : Exn) : P A := fun s => Some (Thrown e, s).

Definition bind {A B : Type} (m : P A) (k : A -> P B) : P B :=
  fun s =>
    match m s with
    | None => None
    | Some (Thrown e, s') => Some (Thrown e, s')
    | Some (Returned a, s') => k a s'
    end.

Definition out_of_fuel {A : Type} : P A := fun _ => None.

Notation "x <- m ;; k" := (bind m (fun x => k))
  (at level 100, m at next level, right associativity).
Notation "m ;; k" := (bind m (fun _ => k))
  (at level 100, right associativity).

(** [QueryParser::PeekChar]; [m_input.get()] returns -1 at the end of the
    stream. *)
Definition PeekChar : P Z :=
  fun s =>
    if m_haveChar s then Some (Returned (m_nextChar s), s)
    else
      match m_input s with
      | [] =>
          Some (Returned 0,
                {| m_input := [];
                   m_currentPosition := m_currentPosition s;
                   m_haveChar := true;
                   m_nextChar := 0 |})
      | temp :: rest =>
          Some (Returned temp,
                {| m_input := rest;
                   m_currentPosition := m_currentPosition s;
                   m_haveChar := true;
                   m_nextChar := temp |})
      end.

(** The position members read and written by [GetChar]. *)
Definition currentPosition : P Z :=
  fun s => Some (Returned (m_currentPosition s), s).

Definition advance : P unit :=
  fun s =>
    Some (Returned tt,
          {| m_input := m_input s;
             m_currentPosition := wrap (m_currentPosition s + 1);
             m_haveChar := false;
             m_nextChar := m_nextChar s |}).

(** [QueryParser::GetChar]. *)
Definition GetChar : P Z :=
  result <- PeekChar ;;
  if result =? 0 then
    position <- currentPosition ;;
    throw (ParseError "Attempting to read past NULL byte" position)
  else
    advance ;;
    ret result.

(** [QueryParser::GetWithEscape]. *)
Definition GetWithEscape : P Z :=
  c <- PeekChar ;;
  let legalEscapes := chars "&|\()" ++ [c_quote] ++ chars ":-" in
  if c =? c_backslash then
    GetChar ;;
    c <- PeekChar ;;
    if strchr legalEscapes c then GetChar
    else throw (ParseError "Bad escape char" (size_t_of_char c))
  else GetChar.

(** [QueryParser::SkipWhite]. *)
Fixpoint SkipWhite (fuel : nat) : P unit :=
  match fuel with
  | O => out_of_fuel
  | S fuel' =>
      c <- PeekChar ;;
      if isspace c then GetChar ;; SkipWhite fuel' else ret tt
  end.

(** [QueryParser::ExpectDelimeter]. *)
Definition ExpectDelimeter (c : Z) : P unit :=
  got <- PeekChar ;;
  if negb (got =? c) then
    position <- currentPosition ;;
    throw (ParseError
             (text (chars "Expected '" ++ [c] ++ chars "' Got '" ++ [got]
                    ++ chars "'"))
             position)
  else GetChar ;; ret tt.

(** The loop of [ParseToken], [builder] being the characters pushed so
    far. *)
Fixpoint ParseToken_loop (fuel : nat) (builder : list Z) : P (list Z) :=
  match fuel with
  | O => out_of_fuel
  | S fuel' =>
      let c_endOfToken := chars "&|():-" ++ [c_quote] in
      c <- PeekChar ;;
      if negb (isspace c) && negb (strchr c_endOfToken c) then
        temp <- GetWithEscape ;;
        ParseToken_loop fuel' (builder ++ [temp])
      else ret builder
  end.

(** [QueryParser::ParseToken]. *)
Definition ParseToken (fuel : nat) : P (list Z) :=
  token <- ParseToken_loop fuel [] ;;
  match token with
  | [] =>
      position <- currentPosition ;;
      throw (ParseError "Expected token." position)
  | _ :: _ => ret token
  end.

(** The loop of [ParsePhrase]. *)
Fixpoint ParsePhrase_loop (fuel : nat) (grams : list (list Z))
    : P (list (list Z)) :=
  match fuel with
  | O => out_of_fuel
  | S fuel' =>
      SkipWhite fuel' ;;
      c <- PeekChar ;;
      if c =? c_quote then ExpectDelimeter c_quote ;; ret grams
      else
        token <- ParseToken fuel' ;;
        ParsePhrase_loop fuel' (grams ++ [token])
  end.

(** [QueryParser::ParsePhrase]. *)
Definition ParsePhrase (fuel : nat) (streamId : Z) : P TermMatchNode :=
  ExpectDelimeter c_quote ;;
  grams <- ParsePhrase_loop fuel [] ;;
  ret (Phrase grams streamId).

(** [QueryParser::StreamIdFromText]. *)
Definition StreamIdFromText (streamName : list Z) : Z := 123.

(** [QueryParser::ParseTerm]. *)
Definition ParseTerm (fuel : nat) : P TermMatchNode :=
  let streamId := 0 in
  SkipWhite fuel ;;
  c <- PeekChar ;;
  if c =? c_quote then ParsePhrase fuel streamId
  else
    left <- ParseToken fuel ;;
    c <- PeekChar ;;
    if c =? 58 then
      GetChar ;;
      let streamId := StreamIdFromText left in
      c <- PeekChar ;;
      if c =? c_quote then ParsePhrase fuel streamId
      else
        right <- ParseToken fuel ;;
        ret (Unigram right streamId)
    else ret (Unigram left streamId).

(** [ParseOr], [ParseAnd] and [ParseSimple] with the loops of the first
    two; [children] are the nodes added to the builder so far. *)
Fixpoint ParseOr (fuel : nat) : P TermMatchNode :=
  match fuel with
  | O => out_of_fuel
  | S fuel' =>
      left <- ParseAnd fuel' ;;
      ParseOr_loop fuel' [left]
  end
with ParseOr_loop (fuel : nat) (children : list TermMatchNode)
    : P TermMatchNode :=
  match fuel with
  | O => out_of_fuel
  | S fuel' =>
      SkipWhite fuel' ;;
      c <- PeekChar ;;
      if negb (c =? 124) then ret (OrMatch children)
      else
        GetChar ;;
        child <- ParseAnd fuel' ;;
        ParseOr_loop fuel' (children ++ [child])
  end
with ParseAnd (fuel : nat) : P TermMatchNode :=
  match fuel with
  | O => out_of_fuel
  | S fuel' =>
      leftSimple <- ParseSimple fuel' ;;
      ParseAnd_loop fuel' [leftSimple]
  end
with ParseAnd_loop (fuel : nat) (children : list TermMatchNode)
    : P TermMatchNode :=
  match fuel with
  | O => out_of_fuel
  | S fuel' =>
      let c_endOfAndProduction := chars ")|" in
      SkipWhite fuel' ;;
      c <- PeekChar ;;
      if c =? 38 then
        GetChar ;;
        child <- ParseSimple fuel' ;;
        ParseAnd_loop fuel' (children ++ [child])
      else if negb (strchr c_endOfAndProduction c) then
        child <- ParseSimple fuel' ;;
        ParseAnd_loop fuel' (children ++ [child])
      else ret (AndMatch children)
  end
with ParseSimple (fuel : nat) : P TermMatchNode :=
  match fuel with
  | O => out_of_fuel
  | S fuel' =>
      SkipWhite fuel' ;;
      c <- PeekChar ;;
      if c =? 45 then
        GetChar ;;
        SkipWhite fuel' ;;
        simpleNode <- ParseSimple fuel' ;;
        ret (NotMatch simpleNode)
      else if c =? 40 then
        GetChar ;;
        orNode <- ParseOr fuel' ;;
        SkipWhite fuel' ;;
        ExpectDelimeter 41 ;;
        ret orNode
      else ParseTerm fuel'
  end.

(** [QueryParser::Parse]. *)
Definition Parse (fuel : nat) : P TermMatchNode := ParseOr fuel.


End QueryParser.

(** ** SliceUnitTest.cpp *)

Module SliceUnitTest.

(** The loop of [FillUpAndExpireSlice] from the iteration [i] on, [count]
    iterations being left. [firstSlice] is the pointer of that name,
    [None] for [nullptr]. An [EXPECT_] macro that fails records the
    failure and the test goes on: [expectations] tells whether all of
    them held so far. The test calls [AllocateDocument] without a DocId;
    [id] is the one [Shard::AllocateDocument] is given here, and [env]
    tells what the environment returns when the call creates a Slice. *)
Fixpoint FillUpAndExpireSlice_loop (count : nat) (i : Z)
    (firstSlice : option Z) (expectations : bool) (env : Heap -> Fresh)
    (id : Z) (sh : Shard.t) (h : Heap)
    : option (Result (option Z * bool) * Shard.t * Heap) :=
  match count with
  | O => Some (Returned (firstSlice, expectations), sh, h)
  | S count' =>
      match Shard.AllocateDocument (env h) id sh h with
      | None => None
      | Some (Thrown e, sh, h) => Some (Thrown e, sh, h)
      | Some (Returned handle, sh, h) =>
          let slice := DocumentHandleInternal.m_slice handle in
          let firstSlice := if i =? 0 then Some slice else firstSlice in
          let expectations :=
            if i =? 0
            then expectations
                 && match firstSlice with Some _ => true | None => false end
            else expectations in
          let expectations :=
            expectations && bool_decide (firstSlice = Some slice) in
          match firstSlice with
          | None => None
          | Some first =>
              match Shard.CommitDocument_at first sh h with
              | None => None
              | Some (Thrown e, sh, h) => Some (Thrown e, sh, h)
              | Some (Returned _, sh, h) =>
                  match Shard.ExpireDocument_at first h with
                  | None => None
                  | Some (Thrown e, h) => Some (Thrown e, sh, h)
                  | Some (Returned _, h) =>
                      FillUpAndExpireSlice_loop count' (wrap (i + 1))
                        firstSlice expectations env id sh h
                  end
              end
          end
      end
  end.

(** [FillUpAndExpireSlice(shard, sliceCapacity)]: the Slice it returns
    and whether its expectations held. *)
Definition FillUpAndExpireSlice (env : Heap -> Fresh) (id : Z)
    (sliceCapacity : Z) (sh : Shard.t) (h : Heap)
    : option (Result (option Z * bool) * Shard.t * Heap) :=
  FillUpAndExpireSlice_loop (Z.to_nat sliceCapacity) 0 None true env id sh h.

End SliceUnitTest.

(** ** FileManager.cpp *)

Module FileManager.

(** A [ParameterizedFile0] or [ParameterizedFile1] as its constructor
    receives it: the directory, the base name and the extension.
    ParameterizedFile.h is not among the sources. *)
Record ParameterizedFile : Type := mkFile {
  path : string;
  baseName : string;
  extension : string
}.

Record t : Type := mk {
  m_cumulativeTermCounts : ParameterizedFile;
  m_docFreqTable : ParameterizedFile;
  m_documentLengthHistogram : ParameterizedFile;
  m_indexedIdfTable : ParameterizedFile;
  m_termTable : ParameterizedFile;
  m_termToText : ParameterizedFile
}.

(** [FileManager::FileManager]; the third parameter has no name in the
    source and is not used. *)
Definition construct (intermediateDirectory indexDirectory
    backupDirectory : string) : t :=
  {| m_cumulativeTermCounts :=
       mkFile intermediateDirectory "CumulativeTermCounts" ".csv";
     m_docFreqTable := mkFile indexDirectory "DocFreqTable" ".csv";
     m_documentLengthHistogram :=
       mkFile intermediateDirectory "DocumentLengthHistogram" ".csv";
     m_indexedIdfTable := mkFile indexDirectory "IndexedIdfTable" ".bin";
     m_termTable := mkFile indexDirectory "TermTable" ".bin";
     m_termToText := mkFile indexDirectory "TermToText" ".bin" |}.

(** [Factories::CreateFileManager], the arguments of the constructor in
    the order the source passes them. *)
Definition CreateFileManager (intermediateDirectory indexDirectory
    backupDirectory : string) : t :=
  construct intermediateDirectory backupDirectory indexDirectory.

(** [FileDescriptor0] and [FileDescriptor1]: a reference to the file, and
    for the second the shard the descriptor is for. *)
Record FileDescriptor0 : Type := mkFileDescriptor0 {
  m_file0 : ParameterizedFile
}.

Record FileDescriptor1 : Type := mkFileDescriptor1 {
  m_file1 : ParameterizedFile;
  m_p1 : Z
}.

Definition DocumentLengthHistogram (m : t) : FileDescriptor0 :=
  mkFileDescriptor0 (m_documentLengthHistogram m).

Definition TermToText (m : t) : FileDescriptor0 :=
  mkFileDescriptor0 (m_termToText m).

Definition CumulativeTermCounts (m : t) (shard : Z) : FileDescriptor1 :=
  mkFileDescriptor1 (m_cumulativeTermCounts m) shard.

Definition DocFreqTable (m : t) (shard : Z) : FileDescriptor1 :=
  mkFileDescriptor1 (m_docFreqTable m) shard.

Definition IndexedIdfTable (m : t) (shard : Z) : FileDescriptor1 :=
  mkFileDescriptor1 (m_indexedIdfTable m) shard.

Definition TermTable (m : t) (shard : Z) : FileDescriptor1 :=
  mkFileDescriptor1 (m_termTable m) shard.

End FileManager.

(** ** An ingestor over one shard *)

(** The collaborators of [Ingestor::Add] for an ingestor whose
    [m_shards] holds a single shard: the index is that shard with its
    heap. *)
Module SingleShard.

Definition Index : Type := Shard.t * Heap.

(** What the environment returns when the shard creates a Slice: objects
    and buffers are never freed here, so addresses that grow with their
    number are fresh; a new buffer is filled with the byte 205. *)
Definition env (h : Heap) : Fresh :=
  {| newSlice := 4096 + 64 * Z.of_nat (size (slices h));
     newBuffer := 1048576 * (1 + Z.of_nat (size (buffers h)));
     rawBuffer := fun _ => 205 |}.

(** [m_shards[shardId]->AllocateDocument(id)]; [m_shards] has one
    element. *)
Definition AllocateDocument (shardId id : Z)
    : @Ingestor.Operation Index DocumentHandleInternal.t :=
  fun '(sh, h) =>
    if shardId =? 0 then
      match Shard.AllocateDocument (env h) id sh h with
      | None => None
      | Some (r, sh, h) => Some (r, (sh, h))
      end
    else None.

(** [handle.GetSlice()->CommitDocument()]. *)
Definition CommitDocument (handle : DocumentHandleInternal.t)
    : @Ingestor.Operation Index bool :=
  fun '(sh, h) =>
    match Shard.CommitDocument_at (DocumentHandleInternal.m_slice handle) sh h
    with
    | None => None
    | Some (r, sh, h) => Some (r, (sh, h))
    end.

(** The byte of the slice buffer that an operation of a handle works on:
    the table of the document-active row and the buffer of the slice of
    the handle. *)
Definition with_active_row (handle : DocumentHandleInternal.t)
    (f : RowTableDescriptor.t -> SliceBuffer -> SliceBuffer)
    (sh : Shard.t) (h : Heap) : option Heap :=
  let row := Shard.m_documentActiveRowId sh in
  match slices h !! DocumentHandleInternal.m_slice handle with
  | None => None
  | Some s =>
      match buffers h !! Slice.GetSliceBuffer s,
            Shard.m_rowTables sh !! Z.to_nat (GetRank row) with
      | Some content, Some rowTable =>
          Some (Shard.set_buffer h (Slice.GetSliceBuffer s)
                                 (f rowTable content))
      | _, _ => None
      end
  end.

(** Modelled from the spec: [DocumentHandleInternal::Activate], missing
    with DocumentHandleInternal.cpp. Section 4.5, step 5: sets the
    active-document bit of the column to 1. *)
Definition Activate (handle : DocumentHandleInternal.t)
    : @Ingestor.Operation Index unit :=
  fun '(sh, h) =>
    match with_active_row handle
            (fun rowTable content =>
               RowTableDescriptor.SetBit rowTable content
                 (GetIndex (Shard.m_documentActiveRowId sh))
                 (DocumentHandleInternal.m_index handle))
            sh h with
    | None => None
    | Some h => Some (Returned tt, (sh, h))
    end.

(** Modelled from the spec: [DocumentHandleInternal::Expire], missing with
    DocumentHandleInternal.cpp. Section 4.5: clears the active-document
    bit and invokes [Slice::ExpireDocument] and [DecrementRefCount];
    sections 2 and 4.3: the reference is dropped when [ExpireDocument]
    reports that the slice just became fully expired. *)
Definition Expire (handle : DocumentHandleInternal.t)
    : @Ingestor.Operation Index unit :=
  fun '(sh, h) =>
    match with_active_row handle
            (fun rowTable content =>
               RowTableDescriptor.ClearBit rowTable content
                 (GetIndex (Shard.m_documentActiveRowId sh))
                 (DocumentHandleInternal.m_index handle))
            sh h with
    | None => None
    | Some h =>
        let slice := DocumentHandleInternal.m_slice handle in
        match slices h !! slice with
        | None => None
        | Some s =>
            let '(r, s') := Slice.ExpireDocument s in
            let h := Shard.set_slice h slice s' in
            match r with
            | Thrown e => Some (Thrown e, (sh, h))
            | Returned true =>
                match Shard.DecrementRefCount slice sh h with
                | None => None
                | Some (r, sh, h) => Some (r, (sh, h))
                end
            | Returned false => Some (Returned tt, (sh, h))
            end
        end
    end.

Definition collaborators : Ingestor.Collaborators Index :=
  {| Ingestor.GetShard := fun _ => 0;
     Ingestor.AllocateDocument := AllocateDocument;
     Ingestor.Activate := Activate;
     Ingestor.CommitDocument := CommitDocument;
     Ingestor.Expire := Expire |}.

(** Modelled from the spec: [DocumentHandle::AddPosting], missing with
    DocumentHandleInternal.cpp. Section 4.5, step 4: the document drives
    [Shard::AddPosting] through the handle, on the buffer of its slice. *)
Definition handle_AddPosting (term : Term)
    (handle : DocumentHandleInternal.t) : @Ingestor.Operation Index unit :=
  fun '(sh, h) =>
    match slices h !! DocumentHandleInternal.m_slice handle with
    | None => None
    | Some s =>
        match buffers h !! Slice.GetSliceBuffer s with
        | None => None
        | Some content =>
            match Shard.AddPosting term (DocumentHandleInternal.m_index handle)
                                   content sh with
            | None => None
            | Some (sh, content) =>
                Some (Returned tt,
                      (sh, Shard.set_buffer h (Slice.GetSliceBuffer s) content))
            end
        end
    end.

(** A document with one posting for each of [terms]. *)
Fixpoint ingest_terms (terms : list Term) (handle : DocumentHandleInternal.t)
    : @Ingestor.Operation Index unit :=
  match terms with
  | [] => fun index => Some (Returned tt, index)
  | term :: rest =>
      fun index =>
        match handle_AddPosting term handle index with
        | Some (Returned _, index) => ingest_terms rest handle index
        | other => other
        end
  end.

Definition document (terms : list Term) : Ingestor.IDocument Index :=
  {| Ingestor.GetPostingCount := Z.of_nat (length terms);
     Ingestor.Ingest := ingest_terms terms |}.

(** A document whose [Ingest] throws after its first posting. *)
Definition failing_document (term : Term) : Ingestor.IDocument Index :=
  {| Ingestor.GetPostingCount := 1;
     Ingestor.Ingest :=
       fun handle index =>
         match handle_AddPosting term handle index with
         | Some (Returned _, index) =>
             Some (Thrown (ForeignException "Ingest failed"), index)
         | other => other
         end |}.

(** A term table with three rows of rank 0: row 0 for the document-active
    term (hash 0), rows 1 and 2 for the other terms. *)
Definition termTable : ITermTable :=
  {| GetTotalRowCount := fun r => if r =? 0 then 3 else 0;
     GetMaxRankUsed := 0;
     GetDocumentActiveTerm := mkTerm 0 0 0 0;
     RowIdSequence :=
       fun term =>
         if term_hash term =? 0 then [mkRowId 0 0]
         else [mkRowId 0 (1 + term_hash term mod 2)] |}.

Definition schema : IDocumentDataSchema :=
  {| variableSizeBlobCount := 0; fixedSizeBlobSizes := [] |}.

(** The shard [Shard::Shard] builds for a slice buffer of 40 bytes: 64
    documents a slice. *)
Definition shard : Shard.t :=
  let '(docTable, rowTables, _) :=
    Shard.InitializeDescriptors 64 schema termTable in
  {| Shard.m_termTable := termTable;
     Shard.m_documentActiveRowId := mkRowId 0 0;
     Shard.m_activeSlice := None;
     Shard.m_sliceBuffers := [];
     Shard.m_sliceCapacity := 64;
     Shard.m_sliceBufferSize := 40;
     Shard.m_docFrequencyTableBuilder :=
       Some (DocumentFrequencyTableBuilder.mk [] 0);
     Shard.m_docTable := docTable;
     Shard.m_rowTables := rowTables |}.

Definition heap : Heap :=
  {| slices := ∅; buffers := ∅; recycler := [] |}.

(** The ingestor [Ingestor::Ingestor] builds over [shard]. *)
Definition ingestor : Ingestor.t Index :=
  {| Ingestor.m_documentCount := 0;
     Ingestor.m_histogram := ∅;
     Ingestor.m_documentMap := ∅;
     Ingestor.m_index := (shard, heap);
     Ingestor.m_log := [];
     Ingestor.calls := [] |}.

End SingleShard.

(** * Properties *)

(** ** Machine arithmetic *)

Lemma wrap_small z : 0 <= z < c_sizeModulus -> wrap z = z.
Proof. intros H. unfold wrap. apply Z.mod_small. exact H. Qed.

Lemma wrap_range z : 0 <= wrap z < c_sizeModulus.
Proof. unfold wrap. apply Z.mod_pos_bound. reflexivity. Qed.

Lemma c_sizeModulus_pos : 0 < c_sizeModulus.
Proof. reflexivity. Qed.

(** ** Slice: allocation, commit and expiry counters *)

Section SliceCounters.

Import Slice.

Variables (capacity refCount buffer : Z).
Hypothesis capacity_fits : 0 <= capacity < c_sizeModulus.

(** A slice of the given capacity described by its three counters. *)
Let slice (unallocated commitPending expired : Z) : Slice.t :=
  Slice.mk capacity refCount buffer unallocated commitPending expired.

Lemma TryAllocateDocument_some u p e :
  0 < u -> 0 <= p -> u + p <= capacity ->
  TryAllocateDocument (slice u p e)
  = (Some (capacity - u), slice (u - 1) (p + 1) e).
Proof using capacity_fits.
  intros Hu Hp Hcap. unfold TryAllocateDocument, slice, set_counts. cbn.
  destruct (Z.eqb_spec u 0) as [->|_]; [lia|].
  rewrite !wrap_small by lia. reflexivity.
Qed.

Lemma TryAllocateDocument_none p e :
  TryAllocateDocument (slice 0 p e) = (None, slice 0 p e).
Proof. reflexivity. Qed.

Lemma TryAllocateDocument_times_spec (n : nat) :
  forall u p e,
    Z.of_nat n <= u -> 0 <= p -> u + p <= capacity ->
    TryAllocateDocument_times n (slice u p e)
    = (map (fun i => Some (capacity - u + Z.of_nat i)) (seq 0 n),
       slice (u - Z.of_nat n) (p + Z.of_nat n) e).
Proof using capacity_fits.
  induction n as [|n IH]; intros u p e Hn Hp Hcap.
  - cbn. f_equal. unfold slice. f_equal; lia.
  - cbn [TryAllocateDocument_times].
    rewrite TryAllocateDocument_some by lia.
    rewrite IH by lia.
    cbn [seq map]. rewrite <- seq_shift, map_map.
    f_equal.
    + f_equal; [f_equal; lia|].
      apply map_ext. intros i. f_equal. lia.
    + unfold slice. f_equal; lia.
Qed.

Lemma CommitDocument_pending u p e d :
  0 <= u -> 0 < p -> u + p <= capacity ->
  CommitDocument (slice u p e) d
  = (Returned (u + p - 1 =? 0), slice u (p - 1) e, d + 1).
Proof using capacity_fits.
  intros Hu Hp Hcap. unfold CommitDocument, LogAssertB, slice, set_counts. cbn.
  destruct (Z.ltb_spec 0 p); [|lia].
  rewrite (wrap_small (p - 1)) by lia.
  rewrite wrap_small by lia.
  repeat f_equal. lia.
Qed.

Lemma CommitDocument_times_spec (n : nat) :
  forall p e d,
    Z.of_nat n <= p -> p <= capacity ->
    CommitDocument_times n (slice 0 p e) d
    = (map (fun i => Returned (p - Z.of_nat i - 1 =? 0)) (seq 0 n),
       slice 0 (p - Z.of_nat n) e, d + Z.of_nat n).
Proof using capacity_fits.
  induction n as [|n IH]; intros p e d Hn Hcap.
  - cbn. repeat f_equal; lia.
  - cbn [CommitDocument_times].
    rewrite CommitDocument_pending by lia.
    rewrite IH by lia.
    cbn [seq map]. rewrite <- seq_shift, map_map.
    f_equal; [f_equal|lia].
    + f_equal; [do 2 f_equal; lia|].
      apply map_ext. intros i. do 2 f_equal. lia.
    + unfold slice. f_equal; lia.
Qed.

Lemma ExpireDocument_spec u p e :
  0 <= u -> 0 <= p -> 0 <= e -> u + p + e <= capacity ->
  ExpireDocument (slice u p e)
  = if e <? capacity - u - p
    then (Returned (e + 1 =? capacity), slice u p (e + 1))
    else (Thrown (FatalAssert "Slice expired more documents than committed."),
          slice u p e).
Proof using capacity_fits.
  intros Hu Hp He Hcap.
  unfold ExpireDocument, LogAssertB, slice, set_counts. cbn.
  rewrite (wrap_small (capacity - u)) by lia.
  rewrite (wrap_small (capacity - u - p)) by lia.
  destruct (Z.ltb_spec e (capacity - u - p)); [|reflexivity].
  rewrite wrap_small by lia. reflexivity.
Qed.

End SliceCounters.

(** C1. For a freshly constructed Slice of capacity [capacity], the first
    [capacity] calls of [TryAllocateDocument] return true with the
    DocIndexes 0, 1, ..., [capacity - 1] in this order, the next call
    returns false, and of the [capacity] calls of [CommitDocument] that
    follow exactly the last one, which leaves
    [unallocated + commitPending = 0], returns true. [CommitDocument]
    takes no DocIndex, so the order of the commits cannot matter. *)
Theorem Slice_allocate_commit_fills
    (capacity : nat) (buffer documentsEntered : Z) :
  Z.of_nat capacity < c_sizeModulus ->
  exists full committed,
    Slice.TryAllocateDocument_times
      capacity (Slice.init (Z.of_nat capacity) buffer)
    = (map (fun i => Some (Z.of_nat i)) (seq 0 capacity), full) /\
    Slice.TryAllocateDocument full = (None, full) /\
    Slice.CommitDocument_times capacity full documentsEntered
    = (map (fun i => Returned (Nat.eqb (S i) capacity)) (seq 0 capacity),
       committed, documentsEntered + Z.of_nat capacity) /\
    Slice.m_unallocatedCount committed
    + Slice.m_commitPendingCount committed = 0.
Proof.
  intros Hfit.
  assert (Hcap : 0 <= Z.of_nat capacity < c_sizeModulus) by lia.
  unfold Slice.init.
  rewrite (TryAllocateDocument_times_spec _ 1 buffer Hcap capacity) by lia.
  rewrite Z.sub_diag, Z.add_0_l.
  eexists _, _. split; [|split; [|split]].
  - reflexivity.
  - reflexivity.
  - rewrite (CommitDocument_times_spec _ 1 buffer Hcap capacity) by lia.
    f_equal. f_equal. apply map_ext_in. intros i Hi.
    apply in_seq in Hi. f_equal.
    destruct (Nat.eqb_spec (S i) capacity), (Z.eqb_spec
      (Z.of_nat capacity - Z.of_nat i - 1) 0); (reflexivity || lia).
  - cbn. lia.
Qed.

(** The scenario of the spec: a slice of capacity 16. *)
Lemma Slice_allocate_commit_fills_16 :
  Z.of_nat 16 < c_sizeModulus /\
  exists full committed,
    Slice.TryAllocateDocument_times 16 (Slice.init (Z.of_nat 16) 0)
    = (map (fun i => Some (Z.of_nat i)) (seq 0 16), full) /\
    Slice.TryAllocateDocument full = (None, full) /\
    Slice.CommitDocument_times 16 full 0
    = (map (fun i => Returned (Nat.eqb (S i) 16)) (seq 0 16),
       committed, 0 + Z.of_nat 16) /\
    Slice.m_unallocatedCount committed
    + Slice.m_commitPendingCount committed = 0.
Proof.
  split; [reflexivity|].
  apply (Slice_allocate_commit_fills 16 0 0). reflexivity.
Defined.

(** C6, as the source has it. On a fresh Slice with one allocated and
    uncommitted document [ExpireDocument] fails and leaves the counters
    unchanged; after [CommitDocument] one [ExpireDocument] succeeds,
    increments the expired count and tells whether it reached the
    capacity; a further [ExpireDocument] fails again. In general
    [ExpireDocument] succeeds exactly when [expired < committed]. The
    failure is the fatal assertion of [LogAssertB], the one
    [CommitDocument] raises without a pending commit, and not a
    RecoverableError. *)
Theorem ExpireDocument_requires_commit
    (capacity buffer documentsEntered : Z) :
  0 < capacity < c_sizeModulus ->
  (exists allocated committed expired,
     Slice.TryAllocateDocument (Slice.init capacity buffer)
     = (Some 0, allocated) /\
     Slice.ExpireDocument allocated
     = (Thrown (FatalAssert "Slice expired more documents than committed."),
        allocated) /\
     Slice.CommitDocument allocated documentsEntered
     = (Returned (capacity =? 1), committed, documentsEntered + 1) /\
     Slice.ExpireDocument committed
     = (Returned (Slice.m_expiredCount committed + 1 =? capacity),
        expired) /\
     Slice.m_expiredCount expired = Slice.m_expiredCount committed + 1 /\
     Slice.ExpireDocument expired
     = (Thrown (FatalAssert "Slice expired more documents than committed."),
        expired)) /\
  (forall s : Slice.t,
     Slice.wf s ->
     let committedCount :=
       Slice.m_capacity s - Slice.m_unallocatedCount s
       - Slice.m_commitPendingCount s in
     (Slice.m_expiredCount s < committedCount ->
      Slice.ExpireDocument s
      = (Returned (Slice.m_expiredCount s + 1 =? Slice.m_capacity s),
         Slice.set_counts s (Slice.m_unallocatedCount s)
                          (Slice.m_commitPendingCount s)
                          (Slice.m_expiredCount s + 1))) /\
     (committedCount <= Slice.m_expiredCount s ->
      Slice.ExpireDocument s
      = (Thrown (FatalAssert "Slice expired more documents than committed."),
         s))).
Proof.
  intros Hcap.
  assert (Hfit : 0 <= capacity < c_sizeModulus) by lia.
  split.
  - unfold Slice.init.
    rewrite (TryAllocateDocument_some _ 1 buffer Hfit) by lia.
    rewrite Z.sub_diag.
    eexists _, _, _. split; [reflexivity|].
    rewrite (ExpireDocument_spec _ 1 buffer Hfit) by lia.
    destruct (Z.ltb_spec 0 (capacity - (capacity - 1) - (0 + 1))); [lia|].
    split; [reflexivity|].
    rewrite (CommitDocument_pending _ 1 buffer Hfit) by lia.
    split.
    { f_equal. f_equal. f_equal.
      destruct (Z.eqb_spec (capacity - 1 + (0 + 1) - 1) 0),
               (Z.eqb_spec capacity 1); (reflexivity || lia). }
    rewrite (ExpireDocument_spec _ 1 buffer Hfit) by lia.
    destruct (Z.ltb_spec 0 (capacity - (capacity - 1) - (0 + 1 - 1))); [|lia].
    split; [reflexivity|]. split; [reflexivity|].
    rewrite (ExpireDocument_spec _ 1 buffer Hfit) by lia.
    destruct (Z.ltb_spec (0 + 1) (capacity - (capacity - 1) - (0 + 1 - 1)));
      [lia|reflexivity].
  - intros [cap rc buf u p e] (Hu & Hp & He & Hsum & Hmax). cbn in *.
    assert (Hs : 0 <= cap < c_sizeModulus) by lia.
    rewrite (ExpireDocument_spec cap rc buf Hs) by lia.
    split; intros H.
    + destruct (Z.ltb_spec e (cap - u - p)); [reflexivity|lia].
    + destruct (Z.ltb_spec e (cap - u - p)); [lia|reflexivity].
Qed.

(** The scenario of the spec on a slice of capacity 16. *)
Lemma ExpireDocument_requires_commit_16 :
  0 < 16 < c_sizeModulus /\
  exists allocated,
    Slice.TryAllocateDocument (Slice.init 16 0) = (Some 0, allocated) /\
    Slice.ExpireDocument allocated
    = (Thrown (FatalAssert "Slice expired more documents than committed."),
       allocated).
Proof.
  split; [split; reflexivity|].
  destruct (ExpireDocument_requires_commit 16 0 0) as [H _];
    [split; reflexivity|].
  destruct H as (allocated & committed & expired & H1 & H2 & _).
  exists allocated. split; assumption.
Defined.

(** C6 as the spec words it fails: the failure of [ExpireDocument] on an
    allocated but uncommitted document is no RecoverableError. *)
Lemma ExpireDocument_uncommitted_is_not_recoverable :
  ~ exists message,
      fst (Slice.ExpireDocument
             (snd (Slice.TryAllocateDocument (Slice.init 16 0))))
      = Thrown (RecoverableError message).
Proof. intros [message H]. vm_compute in H. discriminate H. Qed.

(** ** Shard: the capacity that fits a slice buffer *)

Lemma InitializeDescriptors_size_range capacity schema termTable :
  0 <= Shard.InitializeDescriptors_size capacity schema termTable
    < c_sizeModulus.
Proof.
  unfold Shard.InitializeDescriptors_size, Shard.InitializeDescriptors.
  destruct (Shard.InitializeRowTableDescriptors _ _ _ _ _) as [rowTables off].
  cbn. apply wrap_range.
Qed.

Section CapacitySearch.

Variables (schema : IDocumentDataSchema) (termTable : ITermTable).
Variable bufferSizeInBytes : Z.

Let quantum : Z := DocumentsInRank0Row 1 (GetMaxRankUsed termTable).

Let layout (capacity : Z) : Z :=
  Shard.InitializeDescriptors_size capacity schema termTable.

(** Started at the multiple [j], the loop stops at the first multiple
    whose successor overflows the buffer. *)
Lemma GetCapacityForByteSize_loop_finds (n : nat) :
  forall (j : Z) (fuel : nat),
    0 < quantum -> 0 <= j ->
    (j + Z.of_nat n + 1) * quantum < c_sizeModulus ->
    (forall i, j < i <= j + Z.of_nat n ->
               layout (i * quantum) <= bufferSizeInBytes) ->
    bufferSizeInBytes < layout ((j + Z.of_nat n + 1) * quantum) ->
    (n < fuel)%nat ->
    Shard.GetCapacityForByteSize_loop fuel bufferSizeInBytes schema termTable
                                      (j * quantum)
    = Some ((j + Z.of_nat n) * quantum).
Proof.
  induction n as [|n IH]; intros j fuel Hq Hj Hmax Hfit Hover Hfuel;
    (destruct fuel as [|fuel]; [lia|]);
    cbn [Shard.GetCapacityForByteSize_loop]; fold quantum;
    replace (j * quantum + quantum) with ((j + 1) * quantum) by lia;
    (rewrite wrap_small by nia); fold (layout ((j + 1) * quantum));
    rewrite Z.gtb_ltb.
  - replace (j + Z.of_nat 0 + 1) with (j + 1) in Hover by lia.
    destruct (Z.ltb_spec bufferSizeInBytes (layout ((j + 1) * quantum)));
      [|lia].
    f_equal. lia.
  - destruct (Z.ltb_spec bufferSizeInBytes (layout ((j + 1) * quantum)))
      as [Hlt|_].
    + specialize (Hfit (j + 1)). lia.
    + assert (Hnext : j + 1 + Z.of_nat n + 1 = j + Z.of_nat (S n) + 1) by lia.
      rewrite (IH (j + 1) fuel).
      * f_equal. lia.
      * exact Hq.
      * lia.
      * rewrite Hnext. exact Hmax.
      * intros i Hi. apply Hfit. lia.
      * rewrite Hnext. exact Hover.
      * lia.
Qed.

(** No [size_t] exceeds [SIZE_MAX]: with that buffer size the loop has no
    way out. *)
Lemma GetCapacityForByteSize_loop_SIZE_MAX (fuel : nat) :
  forall capacity,
    Shard.GetCapacityForByteSize_loop fuel (c_sizeModulus - 1) schema
                                      termTable capacity
    = None.
Proof.
  induction fuel as [|fuel IH]; intros capacity; [reflexivity|].
  cbn [Shard.GetCapacityForByteSize_loop]. rewrite Z.gtb_ltb.
  match goal with
  | |- context [?a <? ?b] => destruct (Z.ltb_spec a b) as [Hlt|_]
  end.
  - pose proof (InitializeDescriptors_size_range
                  (wrap (capacity
                         + DocumentsInRank0Row 1 (GetMaxRankUsed termTable)))
                  schema termTable).
    lia.
  - apply IH.
Qed.

End CapacitySearch.

(** C2, as the source has it. Let [k >= 0] be such that every positive
    multiple of the quantum up to [k * quantum] fits the buffer and
    [(k + 1) * quantum] does not (no capacity wrapping around on the
    way). Then [GetCapacityForByteSize] terminates: for [k = 0] with the
    fatal assertion, otherwise with the capacity [k * quantum], which is
    the least positive multiple [c] of the quantum with
    [InitializeDescriptors(c) <= size < InitializeDescriptors(c + quantum)],
    and the only one where the layout size is monotone. *)
Theorem GetCapacityForByteSize_first_fit
    (schema : IDocumentDataSchema) (termTable : ITermTable)
    (bufferSizeInBytes k : Z) (fuel : nat) :
  let quantum := DocumentsInRank0Row 1 (GetMaxRankUsed termTable) in
  let layout capacity :=
    Shard.InitializeDescriptors_size capacity schema termTable in
  0 < quantum -> 0 <= k -> (k + 1) * quantum < c_sizeModulus ->
  (forall i, 1 <= i <= k -> layout (i * quantum) <= bufferSizeInBytes) ->
  bufferSizeInBytes < layout ((k + 1) * quantum) ->
  (Z.to_nat k < fuel)%nat ->
  Shard.GetCapacityForByteSize fuel bufferSizeInBytes schema termTable
  = Some (if k =? 0 then Thrown (FatalAssert "Shard with 0 capacity.")
          else Returned (k * quantum)) /\
  (forall j, 1 <= j ->
     layout (j * quantum) <= bufferSizeInBytes < layout ((j + 1) * quantum) ->
     k <= j) /\
  ((forall a b, 1 <= a <= b -> b * quantum < c_sizeModulus ->
      layout (a * quantum) <= layout (b * quantum)) ->
   forall j, 1 <= j -> (j + 1) * quantum < c_sizeModulus ->
     layout (j * quantum) <= bufferSizeInBytes < layout ((j + 1) * quantum) ->
     j = k).
Proof.
  intros quantum layout Hq Hk Hmax Hfit Hover Hfuel.
  assert (Hleast : forall j, 1 <= j ->
            layout (j * quantum) <= bufferSizeInBytes
              < layout ((j + 1) * quantum) -> k <= j).
  { intros j Hj [_ Hnext].
    destruct (Z.le_gt_cases k j) as [|Hlt]; [assumption|].
    specialize (Hfit (j + 1)). lia. }
  split; [|split].
  - unfold Shard.GetCapacityForByteSize.
    pose proof (GetCapacityForByteSize_loop_finds schema termTable
                  bufferSizeInBytes (Z.to_nat k) 0 fuel) as Hloop.
    cbv zeta in Hloop. fold quantum in Hloop.
    change (0 * quantum) with 0 in Hloop.
    rewrite Z2Nat.id, Z.add_0_l in Hloop by assumption.
    rewrite Hloop; try assumption; try lia.
    + f_equal. unfold LogAssertB.
      destruct (Z.eqb_spec k 0) as [->|Hne].
      * reflexivity.
      * destruct (Z.ltb_spec 0 (k * quantum)); [reflexivity|nia].
    + intros i Hi. apply Hfit. lia.
  - exact Hleast.
  - intros Hmono j Hj Hjmax Hj2.
    pose proof (Hleast j Hj Hj2) as Hle.
    destruct (Z.eq_dec j k) as [|Hne]; [assumption|].
    assert (Hlt : k + 1 <= j) by lia.
    specialize (Hmono (k + 1) j). destruct Hj2 as [Hj2 _].
    assert (j * quantum < c_sizeModulus) by nia.
    lia.
Qed.

(** The shard of [SingleShard] with a buffer of 60 bytes: 128 documents
    fit (56 bytes), 192 do not (80 bytes). *)
Lemma GetCapacityForByteSize_first_fit_128 :
  Shard.GetCapacityForByteSize 3 60 SingleShard.schema SingleShard.termTable
  = Some (Returned 128).
Proof.
  refine (proj1 (GetCapacityForByteSize_first_fit
                   SingleShard.schema SingleShard.termTable 60 2 3
                   _ _ _ _ _ _)).
  - reflexivity.
  - discriminate.
  - reflexivity.
  - intros i Hi. apply Z.leb_le.
    destruct (Z.eq_dec i 1) as [->|]; [reflexivity|].
    replace i with 2 by lia. reflexivity.
  - reflexivity.
  - apply Nat.ltb_lt. reflexivity.
Defined.

(** C2 as the spec words it fails: for a buffer size of [SIZE_MAX] no
    layout overflows the buffer, and the function neither returns a
    capacity nor fails an assertion, whatever the number of iterations. *)
Lemma GetCapacityForByteSize_SIZE_MAX_diverges :
  ~ exists fuel outcome,
      Shard.GetCapacityForByteSize fuel (c_sizeModulus - 1)
                                   SingleShard.schema SingleShard.termTable
      = Some outcome.
Proof.
  intros (fuel & outcome & H). unfold Shard.GetCapacityForByteSize in H.
  rewrite GetCapacityForByteSize_loop_SIZE_MAX in H. discriminate H.
Qed.

(** ** Slice buffers: the back pointer *)

Lemma decode_encode_le (n : nat) :
  forall v, decode_le (encode_le n v) = v mod 256 ^ Z.of_nat n.
Proof.
  induction n as [|n IH]; intros v.
  - cbn. symmetry. apply Z.mod_1_r.
  - cbn [encode_le decode_le]. rewrite IH.
    rewrite Nat2Z.inj_succ, Z.pow_succ_r by lia.
    rewrite Z.rem_mul_r; [reflexivity|lia|].
    apply Z.pow_pos_nonneg; lia.
Qed.

Lemma length_encode_le (n : nat) : forall v, length (encode_le n v) = n.
Proof. induction n as [|n IH]; intros v; cbn; [|rewrite IH]; reflexivity. Qed.

Lemma store_bytes_below (bytes : list Z) :
  forall buffer offset x,
    x < offset -> store_bytes buffer offset bytes x = buffer x.
Proof.
  induction bytes as [|b rest IH]; intros buffer offset x Hx; cbn.
  - reflexivity.
  - rewrite IH by lia. unfold store_byte.
    destruct (Z.eqb_spec x offset); [lia|reflexivity].
Qed.

Lemma load_store_bytes (bytes : list Z) :
  forall buffer offset,
    load_bytes (store_bytes buffer offset bytes) offset (length bytes) = bytes.
Proof.
  induction bytes as [|b rest IH]; intros buffer offset.
  - reflexivity.
  - cbn [store_bytes length load_bytes]. rewrite IH. f_equal.
    rewrite store_bytes_below by lia. unfold store_byte.
    rewrite Z.eqb_refl. reflexivity.
Qed.

Lemma load_bytes_ext (n : nat) :
  forall (b1 b2 : SliceBuffer) offset,
    (forall x, offset <= x < offset + Z.of_nat n -> b1 x = b2 x) ->
    load_bytes b1 offset n = load_bytes b2 offset n.
Proof.
  induction n as [|n IH]; intros b1 b2 offset H; cbn.
  - reflexivity.
  - f_equal.
    + apply H. lia.
    + apply IH. intros x Hx. apply H. lia.
Qed.

(** Reading the pointer back from the slot it was written to. *)
Lemma GetSliceFromBuffer_Initialize this buffer slicePtrOffset :
  0 <= this < c_sizeModulus ->
  Slice.GetSliceFromBuffer (Slice.Initialize this buffer slicePtrOffset)
                           slicePtrOffset
  = this.
Proof.
  intros Hthis. unfold Slice.GetSliceFromBuffer, Slice.Initialize.
  rewrite <- (length_encode_le (Z.to_nat c_sizeofPointer) this) at 2.
  rewrite load_store_bytes, decode_encode_le.
  apply Z.mod_small. exact Hthis.
Qed.

Section PointerSlot.

Variables (slot x : Z).
Hypothesis x_in_slot : slot <= x < slot + c_sizeofPointer.

Lemma memset_clear_of_slot buffer offset value size :
  Shard.clear_of_slot slot offset size = true ->
  memset buffer offset value size x = buffer x.
Proof using x_in_slot.
  unfold Shard.clear_of_slot, memset. intros H.
  destruct (Z.leb_spec offset x), (Z.ltb_spec x (offset + size));
    cbn; try reflexivity.
  destruct (Z.leb_spec size 0), (Z.leb_spec (offset + size) slot),
           (Z.leb_spec (slot + c_sizeofPointer) offset);
    cbn in H; try discriminate H; lia.
Qed.

Lemma RowTable_Initialize_clear_of_slot d buffer termTable :
  Shard.clear_of_slot slot (RowTableDescriptor.m_bufferOffset d)
    (RowTableDescriptor.GetBufferSize
       (RowTableDescriptor.m_capacity d) (RowTableDescriptor.m_rowCount d)
       (RowTableDescriptor.m_rank d)) = true ->
  forallb
    (fun row =>
       negb (GetRank row =? RowTableDescriptor.m_rank d)
       || Shard.clear_of_slot slot
            (RowTableDescriptor.GetRowOffset d (GetIndex row))
            (RowTableDescriptor.BytesInRow
               (RowTableDescriptor.m_capacity d)
               (RowTableDescriptor.m_rank d)))
    (RowIdSequence termTable (GetDocumentActiveTerm termTable)) = true ->
  RowTableDescriptor.Initialize d buffer termTable x = buffer x.
Proof using x_in_slot.
  intros Hregion Hrows. unfold RowTableDescriptor.Initialize.
  rewrite <- (memset_clear_of_slot buffer _ 0 _ Hregion).
  generalize (memset buffer (RowTableDescriptor.m_bufferOffset d) 0
                (RowTableDescriptor.GetBufferSize
                   (RowTableDescriptor.m_capacity d)
                   (RowTableDescriptor.m_rowCount d)
                   (RowTableDescriptor.m_rank d))).
  induction (RowIdSequence termTable (GetDocumentActiveTerm termTable))
    as [|row rows IH]; intros zeroed.
  - reflexivity.
  - cbn [forallb] in Hrows. apply andb_true_iff in Hrows as [Hrow Hrows].
    cbn [foldl]. rewrite (IH Hrows).
    destruct (GetRank row =? RowTableDescriptor.m_rank d);
      [|reflexivity].
    cbn in Hrow. apply memset_clear_of_slot. exact Hrow.
Qed.

Lemma InitializeRowTables_clear_of_slot rowTables termTable (count : nat) :
  forall rank buffer,
    0 <= rank ->
    (Z.to_nat rank + count <= length rowTables)%nat ->
    (forall d, In d rowTables ->
       Shard.clear_of_slot slot (RowTableDescriptor.m_bufferOffset d)
         (RowTableDescriptor.GetBufferSize
            (RowTableDescriptor.m_capacity d)
            (RowTableDescriptor.m_rowCount d)
            (RowTableDescriptor.m_rank d))
       && forallb
            (fun row =>
               negb (GetRank row =? RowTableDescriptor.m_rank d)
               || Shard.clear_of_slot slot
                    (RowTableDescriptor.GetRowOffset d (GetIndex row))
                    (RowTableDescriptor.BytesInRow
                       (RowTableDescriptor.m_capacity d)
                       (RowTableDescriptor.m_rank d)))
            (RowIdSequence termTable (GetDocumentActiveTerm termTable))
       = true) ->
    exists buffer',
      Slice.InitializeRowTables count rank rowTables termTable buffer
      = (Returned tt, buffer') /\
      buffer' x = buffer x.
Proof using x_in_slot.
  induction count as [|count IH]; intros rank buffer Hrank Hlen Hall.
  - exists buffer. split; reflexivity.
  - cbn [Slice.InitializeRowTables].
    destruct (rowTables !! Z.to_nat rank) as [d|] eqn:Hd.
    + destruct (IH (rank + 1)
                   (RowTableDescriptor.Initialize d buffer termTable))
        as (buffer' & Hrun & Hsame); [lia|lia|exact Hall|].
      exists buffer'. split; [exact Hrun|].
      rewrite Hsame.
      pose proof (Hall d) as Hd'.
      rewrite andb_true_iff in Hd'.
      destruct Hd' as [Hregion Hrows].
      { apply list_elem_of_In. eapply list_elem_of_lookup_2. exact Hd. }
      apply RowTable_Initialize_clear_of_slot; assumption.
    + apply lookup_ge_None_1 in Hd. lia.
Qed.

End PointerSlot.

Lemma GetSlicePtrOffset_eq sh :
  c_sizeofPointer <= Shard.m_sliceBufferSize sh < 2 ^ 63 ->
  Shard.GetSlicePtrOffset sh = Shard.m_sliceBufferSize sh - c_sizeofPointer.
Proof.
  intros H. unfold Shard.GetSlicePtrOffset, to_ptrdiff.
  assert (Hsmall : 0 <= Shard.m_sliceBufferSize sh - c_sizeofPointer
                   < c_sizeModulus).
  { unfold c_sizeofPointer, c_sizeModulus in *.
    change (2 ^ 63) with 9223372036854775808 in H.
    change (2 ^ 64) with 18446744073709551616. lia. }
  rewrite !(wrap_small _ Hsmall).
  destruct (Z.ltb_spec (Shard.m_sliceBufferSize sh - c_sizeofPointer)
                       (2 ^ 63)) as [_|Hge]; [reflexivity|].
  unfold c_sizeofPointer in *. lia.
Qed.

Lemma CreateNewActiveSlice_sliceBufferSize env sh h r sh' h' :
  Shard.CreateNewActiveSlice env sh h = (r, sh', h') ->
  Shard.m_sliceBufferSize sh' = Shard.m_sliceBufferSize sh.
Proof.
  unfold Shard.CreateNewActiveSlice.
  destruct (Slice.construct_buffer _ _ _ _ _ _) as [[[]|e] content];
    intros H; inversion H; reflexivity.
Qed.

(** C3. A Slice created by the shard owns a buffer whose trailing machine
    word holds the address of the Slice: [GetSliceFromBuffer] on the
    buffer of the slice and the offset [GetSlicePtrOffset()], which is
    [sliceBufferSize - sizeof(pointer)], returns the address of the
    Slice. The initialisation of the DocTable and of the RowTables that
    follows [Slice::Initialize] in the constructor leaves the slot alone,
    the layout of the shard keeping clear of it. *)
Theorem Slice_back_pointer_round_trip (env : Fresh) (sh : Shard.t) (h : Heap) :
  Shard.layout_keeps_slot sh = true ->
  0 <= newSlice env < c_sizeModulus ->
  c_sizeofPointer <= Shard.m_sliceBufferSize sh < 2 ^ 63 ->
  exists sh' h' slice content,
    Shard.CreateNewActiveSlice env sh h = (Returned tt, sh', h') /\
    Shard.m_activeSlice sh' = Some (newSlice env) /\
    slices h' !! newSlice env = Some slice /\
    buffers h' !! Slice.GetSliceBuffer slice = Some content /\
    Shard.GetSlicePtrOffset sh'
    = Shard.m_sliceBufferSize sh' - c_sizeofPointer /\
    Slice.GetSliceFromBuffer content (Shard.GetSlicePtrOffset sh')
    = newSlice env.
Proof.
  intros Hlayout Hthis Hsize.
  unfold Shard.layout_keeps_slot in Hlayout.
  apply andb_true_iff in Hlayout as [Hlayout Hcount].
  apply andb_true_iff in Hlayout as [HdocTable HrowTables].
  apply Z.eqb_eq in Hcount.
  rewrite forallb_forall in HrowTables.
  set (slot := Shard.GetSlicePtrOffset sh) in *.
  set (initialized :=
         DocTableDescriptor.Initialize (Shard.m_docTable sh)
           (Slice.Initialize (newSlice env) (rawBuffer env) slot)).
  assert (Hrows : exists content,
            Slice.InitializeRowTables (Z.to_nat (c_maxRankValue + 1)) 0
              (Shard.m_rowTables sh) (Shard.m_termTable sh) initialized
            = (Returned tt, content) /\
            forall x, slot <= x < slot + c_sizeofPointer ->
                      content x = initialized x).
  { destruct (Slice.InitializeRowTables (Z.to_nat (c_maxRankValue + 1)) 0
                (Shard.m_rowTables sh) (Shard.m_termTable sh) initialized)
      as [r content] eqn:Hrun.
    exists content.
    assert (Hx : forall x, slot <= x < slot + c_sizeofPointer ->
                   r = Returned tt /\ content x = initialized x).
    { intros x Hx.
      destruct (InitializeRowTables_clear_of_slot slot x Hx
                  (Shard.m_rowTables sh) (Shard.m_termTable sh)
                  (Z.to_nat (c_maxRankValue + 1)) 0 initialized)
        as (content' & Hrun' & Hsame); [lia| |exact HrowTables|].
      - change (Z.to_nat 0) with 0%nat. unfold c_maxRankValue in *. lia.
      - rewrite Hrun in Hrun'. inversion Hrun'; subst. split; [reflexivity|].
        exact Hsame. }
    split.
    - destruct (Hx slot) as [-> _]; [unfold c_sizeofPointer; lia|].
      reflexivity.
    - intros x Hin. apply (Hx x Hin). }
  destruct Hrows as (content & Hrun & Hsame).
  unfold Shard.CreateNewActiveSlice, Slice.construct_buffer.
  fold slot. fold initialized. rewrite Hrun.
  eexists _, _, _, content.
  split; [reflexivity|]. split; [reflexivity|].
  split; [cbn; apply lookup_insert_eq|].
  split; [cbn; apply lookup_insert_eq|].
  split; [apply GetSlicePtrOffset_eq; exact Hsize|].
  change (Shard.GetSlicePtrOffset _) with slot.
  etransitivity;
    [|exact (GetSliceFromBuffer_Initialize (newSlice env) (rawBuffer env)
               slot Hthis)].
  unfold Slice.GetSliceFromBuffer. f_equal.
  apply load_bytes_ext. intros x Hx.
  change (Z.of_nat (Z.to_nat c_sizeofPointer)) with c_sizeofPointer in Hx.
  rewrite (Hsame x Hx). unfold initialized, DocTableDescriptor.Initialize.
  apply (memset_clear_of_slot slot x Hx). exact HdocTable.
Qed.

(** The first Slice of the shard of [SingleShard]. *)
Lemma Slice_back_pointer_round_trip_first :
  exists sh' h' slice content,
    Shard.CreateNewActiveSlice (SingleShard.env SingleShard.heap)
                               SingleShard.shard SingleShard.heap
    = (Returned tt, sh', h') /\
    slices h' !! 4096 = Some slice /\
    buffers h' !! Slice.GetSliceBuffer slice = Some content /\
    Slice.GetSliceFromBuffer content 32 = 4096.
Proof.
  destruct (Slice_back_pointer_round_trip
              (SingleShard.env SingleShard.heap) SingleShard.shard
              SingleShard.heap)
    as (sh' & h' & slice & content & H1 & H2 & H3 & H4 & H5 & H6).
  - reflexivity.
  - split; [discriminate|reflexivity].
  - split; [discriminate|reflexivity].
  - exists sh', h', slice, content.
    split; [exact H1|]. split; [exact H3|]. split; [exact H4|].
    rewrite H5, (CreateNewActiveSlice_sliceBufferSize _ _ _ _ _ _ H1) in H6.
    exact H6.
Defined.

(** *** The layout the constructor of the shard establishes *)

Lemma to_ptrdiff_small z : 0 <= z < 2 ^ 63 -> to_ptrdiff z = z.
Proof.
  intros H. unfold to_ptrdiff.
  assert (Hz : 0 <= z < c_sizeModulus).
  { unfold c_sizeModulus. change (2 ^ 63) with 9223372036854775808 in H.
    change (2 ^ 64) with 18446744073709551616. lia. }
  rewrite (wrap_small z Hz).
  destruct (Z.ltb_spec z (2 ^ 63)); [reflexivity|lia].
Qed.

Lemma RowTable_GetBufferSize_nonneg capacity rowCount rank :
  0 <= RowTableDescriptor.GetBufferSize capacity rowCount rank.
Proof. unfold RowTableDescriptor.GetBufferSize. apply wrap_range. Qed.

Lemma rowTables_extent_nonneg (count : nat) :
  forall r capacity termTable,
    0 <= Shard.rowTables_extent count r capacity termTable.
Proof.
  induction count as [|count IH]; intros r capacity termTable; cbn.
  - lia.
  - pose proof (RowTable_GetBufferSize_nonneg
                  capacity (GetTotalRowCount termTable r) r).
    pose proof (IH (r + 1) capacity termTable). lia.
Qed.

(** Without overflow the RowTables follow one another from [offset] on:
    each lies between [offset] and the offset the loop reaches. *)
Lemma InitializeRowTableDescriptors_regions (count : nat) :
  forall r capacity termTable offset,
    0 <= offset ->
    offset + Shard.rowTables_extent count r capacity termTable < 2 ^ 63 ->
    exists rowTables,
      Shard.InitializeRowTableDescriptors count r capacity termTable offset
      = (rowTables,
         offset + Shard.rowTables_extent count r capacity termTable) /\
      length rowTables = count /\
      forall d, In d rowTables ->
        offset <= RowTableDescriptor.m_bufferOffset d /\
        RowTableDescriptor.m_bufferOffset d
        + RowTableDescriptor.GetBufferSize
            (RowTableDescriptor.m_capacity d)
            (RowTableDescriptor.m_rowCount d)
            (RowTableDescriptor.m_rank d)
        <= offset + Shard.rowTables_extent count r capacity termTable /\
        RowTableDescriptor.m_capacity d = capacity /\
        RowTableDescriptor.m_rowCount d
        = GetTotalRowCount termTable (RowTableDescriptor.m_rank d).
Proof.
  induction count as [|count IH]; intros r capacity termTable offset Hoff Hmax.
  - exists []. cbn. split; [f_equal; lia|]. split; [reflexivity|].
    intros d [].
  - cbn [Shard.InitializeRowTableDescriptors Shard.rowTables_extent] in *.
    pose proof (RowTable_GetBufferSize_nonneg
                  capacity (GetTotalRowCount termTable r) r) as Hsize.
    pose proof (rowTables_extent_nonneg count (r + 1) capacity termTable)
      as Hrest.
    rewrite to_ptrdiff_small by lia.
    destruct (IH (r + 1) capacity termTable
                 (offset + RowTableDescriptor.GetBufferSize
                             capacity (GetTotalRowCount termTable r) r))
      as (rowTables & Hrun & Hlen & Hall); [lia|lia|].
    rewrite Hrun. eexists. split; [f_equal; lia|].
    split; [cbn; rewrite Hlen; reflexivity|].
    intros d [<-|Hd].
    + cbn. repeat split; lia.
    + destruct (Hall d Hd) as (H1 & H2 & H3 & H4).
      repeat split; try assumption; lia.
Qed.

(** What a shard the constructor returned is made of. *)
Lemma construct_inversion fuel termTable schema sliceBufferSize sh :
  Shard.construct fuel termTable schema sliceBufferSize = Some (Returned sh) ->
  exists bufferSize,
    Shard.GetCapacityForByteSize fuel sliceBufferSize schema termTable
    = Some (Returned (Shard.m_sliceCapacity sh)) /\
    Shard.InitializeDescriptors (Shard.m_sliceCapacity sh) schema termTable
    = (Shard.m_docTable sh, Shard.m_rowTables sh, bufferSize) /\
    bufferSize <= sliceBufferSize /\
    Shard.m_termTable sh = termTable /\
    Shard.m_sliceBufferSize sh = sliceBufferSize /\
    Shard.m_activeSlice sh = None /\
    Shard.m_sliceBuffers sh = [].
Proof.
  unfold Shard.construct. intros H.
  destruct (Shard.RowIdForActiveDocument termTable) as [activeRow|e];
    [|discriminate H].
  destruct (Shard.GetCapacityForByteSize fuel sliceBufferSize schema termTable)
    as [[capacity|e]|]; try discriminate H.
  destruct (Shard.InitializeDescriptors capacity schema termTable)
    as [[docTable rowTables] bufferSize] eqn:Hlayout.
  unfold LogAssertB in H.
  destruct (Z.leb_spec bufferSize sliceBufferSize) as [Hfits|_];
    [|discriminate H].
  injection H as <-. cbn.
  exists bufferSize. repeat split; assumption.
Qed.

(** A shard the constructor returned keeps clear of the pointer slot,
    provided the layout was computed without overflow and the rows of
    the document-active term are rows of their table. *)
Lemma construct_layout_keeps_slot fuel termTable schema sliceBufferSize sh :
  Shard.construct fuel termTable schema sliceBufferSize = Some (Returned sh) ->
  sliceBufferSize < 2 ^ 63 ->
  Shard.layout_extent (Shard.m_sliceCapacity sh) schema termTable < 2 ^ 63 ->
  (forall row,
     In row (RowIdSequence termTable (GetDocumentActiveTerm termTable)) ->
     0 <= GetIndex row < GetTotalRowCount termTable (GetRank row) /\
     GetTotalRowCount termTable (GetRank row)
     * RowTableDescriptor.BytesInRow (Shard.m_sliceCapacity sh) (GetRank row)
     < c_sizeModulus) ->
  Shard.layout_keeps_slot sh = true /\
  c_sizeofPointer <= Shard.m_sliceBufferSize sh.
Proof.
  intros Hconstruct Hsize Hextent Hrows.
  destruct (construct_inversion _ _ _ _ _ Hconstruct)
    as (bufferSize & Hcapacity & Hlayout & Hfits & HtermTable & HbufferSize
        & _ & _).
  clear Hconstruct.
  remember (Shard.m_sliceCapacity sh) as capacity eqn:Hcap.
  assert (Hpositive : 0 < capacity).
  { unfold Shard.GetCapacityForByteSize in Hcapacity.
    destruct (Shard.GetCapacityForByteSize_loop _ _ _ _ _) as [c|];
      [|discriminate Hcapacity].
    unfold LogAssertB in Hcapacity.
    destruct (Z.ltb_spec 0 c) as [Hc|_]; [|discriminate Hcapacity].
    injection Hcapacity as <-. exact Hc. }
  clear Hcapacity.
  pose proof (wrap_range (capacity * DocTableDescriptor.GetBytesPerItem schema))
    as HdocSize.
  fold (DocTableDescriptor.GetBufferSize capacity schema) in HdocSize.
  pose proof (rowTables_extent_nonneg (Z.to_nat (c_maxRankValue + 1)) 0
                capacity termTable) as Hrest.
  unfold Shard.layout_extent in Hextent.
  unfold Shard.InitializeDescriptors in Hlayout.
  unfold c_sizeofPointer in *.
  rewrite Z.add_0_l, to_ptrdiff_small in Hlayout by lia.
  destruct (InitializeRowTableDescriptors_regions
              (Z.to_nat (c_maxRankValue + 1)) 0 capacity termTable
              (DocTableDescriptor.GetBufferSize capacity schema))
    as (rowTables & Hrun & Hlen & Hall); [lia|lia|].
  rewrite Hrun in Hlayout.
  rewrite to_ptrdiff_small in Hlayout by lia.
  rewrite wrap_small in Hlayout.
  2:{ unfold c_sizeModulus. change (2 ^ 63) with 9223372036854775808 in *.
      change (2 ^ 64) with 18446744073709551616. lia. }
  pose proof (f_equal (fun x => fst (fst x)) Hlayout) as HdocTable.
  pose proof (f_equal (fun x => snd (fst x)) Hlayout) as HrowTables.
  pose proof (f_equal snd Hlayout) as Hsize'.
  cbn [fst snd] in HdocTable, HrowTables, Hsize'. clear Hlayout.
  subst bufferSize.
  split; [|rewrite HbufferSize; lia].
  unfold Shard.layout_keeps_slot.
  rewrite GetSlicePtrOffset_eq
    by (rewrite HbufferSize; unfold c_sizeofPointer; lia).
  rewrite HbufferSize, HtermTable, <- HdocTable, <- HrowTables.
  cbn [DocTableDescriptor.m_bufferOffset DocTableDescriptor.m_capacity
       DocTableDescriptor.m_schema].
  unfold c_sizeofPointer.
  apply andb_true_iff. split; [apply andb_true_iff; split|].
  - unfold Shard.clear_of_slot. apply orb_true_iff. left.
    apply orb_true_iff. right. apply Z.leb_le. lia.
  - apply forallb_forall. intros d Hd.
    destruct (Hall d Hd) as (Hlow & Hhigh & Hdcap & Hcount).
    apply andb_true_iff. split.
    + unfold Shard.clear_of_slot. apply orb_true_iff. left.
      apply orb_true_iff. right. apply Z.leb_le. lia.
    + apply forallb_forall. intros row Hrow.
      destruct (Z.eqb_spec (GetRank row) (RowTableDescriptor.m_rank d))
        as [Hrank|_]; [|reflexivity].
      cbn [negb orb].
      destruct (Hrows row Hrow) as [Hindex Hnowrap].
      unfold Shard.clear_of_slot. apply orb_true_iff. left.
      apply orb_true_iff. right. apply Z.leb_le.
      unfold RowTableDescriptor.GetRowOffset.
      rewrite Hdcap, Hcount, <- Hrank in *.
      assert (Hbytes : 0 <= RowTableDescriptor.BytesInRow capacity
                                                           (GetRank row)).
      { unfold RowTableDescriptor.BytesInRow.
        apply Z_div_nonneg_nonneg; [lia|].
        pose proof (Z.pow_nonneg 2 (GetRank row)). lia. }
      unfold RowTableDescriptor.GetBufferSize in Hhigh.
      rewrite wrap_small in Hhigh by nia.
      nia.
  - apply Z.eqb_eq. rewrite Hlen. reflexivity.
Qed.

(** The shard of [SingleShard] is the one the constructor returns. *)
Lemma SingleShard_shard_constructed :
  Shard.construct 2 SingleShard.termTable SingleShard.schema 40
  = Some (Returned SingleShard.shard).
Proof. reflexivity. Qed.

(** ** Shard: recycling a slice *)

Lemma filter_all_differ (b : Z) (l : list Z) :
  b ∉ l -> filter (fun it => it <> b) l = l.
Proof.
  induction l as [|a l IH]; intros Hnot.
  - reflexivity.
  - rewrite filter_cons_True.
    + f_equal. apply IH. intros Hin. apply Hnot. right. exact Hin.
    + intros ->. apply Hnot. left.
Qed.

Lemma filter_remove_once (b : Z) (before after : list Z) :
  b ∉ before -> b ∉ after ->
  filter (fun it => it <> b) (before ++ b :: after) = before ++ after.
Proof.
  intros Hbefore Hafter.
  rewrite filter_app, filter_cons_False by (intros H; apply H; reflexivity).
  rewrite !filter_all_differ by assumption. reflexivity.
Qed.

(** C5, as the source has it. [RecycleSlice] on a Slice that is not
    expired throws a RecoverableError and leaves the shard and the
    recycler as they were. On an expired Slice whose buffer occurs once in
    the published list it publishes the list without that buffer, the
    other buffers in their order, resets the active slice when it is the
    recycled one, and schedules the Slice with the old list. On an expired
    Slice whose buffer does not occur exactly once in the list it throws
    and changes nothing. *)
Theorem RecycleSlice_cases (slice : Z) (s : Slice.t) (sh : Shard.t) (h : Heap) :
  slices h !! slice = Some s ->
  Z.of_nat (length (Shard.m_sliceBuffers sh)) <= Shard.c_vectorMaxSize ->
  (Slice.IsExpired s = false ->
   Shard.RecycleSlice slice sh h
   = Some (Thrown (RecoverableError
                     "Slice being recycled has not been fully expired"),
           sh, h)) /\
  (Slice.IsExpired s = true ->
   forall before after,
     Shard.m_sliceBuffers sh = before ++ Slice.GetSliceBuffer s :: after ->
     Slice.GetSliceBuffer s ∉ before ->
     Slice.GetSliceBuffer s ∉ after ->
     Shard.RecycleSlice slice sh h
     = Some (Returned tt,
             Shard.set_slices sh
               (if decide (Shard.m_activeSlice sh = Some slice) then None
                else Shard.m_activeSlice sh)
               (before ++ after),
             Shard.ScheduleRecyling h
               (DeferredSliceListDelete
                  (Some slice)
                  (before ++ Slice.GetSliceBuffer s :: after)))) /\
  (Slice.IsExpired s = true ->
   (length (filter (fun it => it <> Slice.GetSliceBuffer s)
                   (Shard.m_sliceBuffers sh)) + 1
    <> length (Shard.m_sliceBuffers sh))%nat ->
   exists e, Shard.RecycleSlice slice sh h = Some (Thrown e, sh, h)).
Proof.
  intros Hslice Hlen.
  assert (Hmax : Shard.c_vectorMaxSize < c_sizeModulus - 1) by reflexivity.
  assert (Hmax0 : 0 <= Shard.c_vectorMaxSize) by discriminate.
  unfold Shard.RecycleSlice. rewrite Hslice.
  split; [|split].
  - intros ->. reflexivity.
  - intros -> before after Hlist Hbefore Hafter. cbn [negb].
    rewrite Hlist in *. rewrite filter_remove_once by assumption.
    rewrite !length_app in *. cbn [length] in *.
    rewrite (wrap_small (_ - 1)) by lia.
    destruct (Z.gtb_spec (Z.of_nat (length before + S (length after)) - 1)
                         Shard.c_vectorMaxSize); [lia|].
    rewrite wrap_small by lia.
    destruct (Z.eqb_spec (Z.of_nat (length before + S (length after)))
                         (Z.of_nat (length before + length after) + 1));
      [reflexivity|lia].
  - intros -> Hcount. cbn [negb].
    pose proof (length_filter (fun it => it <> Slice.GetSliceBuffer s)
                              (Shard.m_sliceBuffers sh)) as Hshort.
    destruct (Shard.m_sliceBuffers sh) as [|b rest] eqn:Hlist.
    + eexists. reflexivity.
    + rewrite <- Hlist in *.
      assert (0 < length (Shard.m_sliceBuffers sh))%nat
        by (rewrite Hlist; cbn; lia).
      rewrite (wrap_small (_ - 1)) by lia.
      destruct (Z.gtb_spec (Z.of_nat (length (Shard.m_sliceBuffers sh)) - 1)
                           Shard.c_vectorMaxSize); [lia|].
      rewrite wrap_small by lia.
      match goal with
      | |- context [negb (?a =? ?b)] =>
          destruct (Z.eqb_spec a b) as [Heq|_]; [lia|]
      end.
      eexists. reflexivity.
Qed.

(** An expired Slice of the shard of [SingleShard], its buffer the second
    of three published ones; it is the active slice. *)
Lemma RecycleSlice_cases_listed :
  let s := Slice.mk 64 1 2097152 0 0 64 in
  let sh := Shard.set_slices SingleShard.shard (Some 4160)
                             [1048576; 2097152; 3145728] in
  let h := Shard.set_slice SingleShard.heap 4160 s in
  Shard.RecycleSlice 4160 sh h
  = Some (Returned tt,
          Shard.set_slices sh None [1048576; 3145728],
          Shard.ScheduleRecyling h
            (DeferredSliceListDelete (Some 4160)
                                     [1048576; 2097152; 3145728])).
Proof.
  intros s sh h.
  pose proof (RecycleSlice_cases 4160 s sh h) as H.
  destruct H as (_ & H & _).
  - apply lookup_insert_eq.
  - discriminate.
  - exact (H eq_refl [1048576] [3145728] eq_refl
             ltac:(intros Hin; apply list_elem_of_In in Hin; cbn in Hin;
                   intuition discriminate)
             ltac:(intros Hin; apply list_elem_of_In in Hin; cbn in Hin;
                   intuition discriminate)).
Defined.

(** C5 as the spec words it fails: an expired Slice whose buffer is not in
    the published list (a Slice the caller constructed itself) is not
    recycled; [RecycleSlice] throws, publishes nothing and schedules
    nothing. *)
Lemma RecycleSlice_expired_unlisted :
  let s := Slice.mk 64 1 2097152 0 0 64 in
  let sh := Shard.set_slices SingleShard.shard None [1048576] in
  let h := Shard.set_slice SingleShard.heap 4160 s in
  Slice.IsExpired s = true /\
  Shard.RecycleSlice 4160 sh h
  = Some (Thrown (RecoverableError
                    "Slice buffer to be removed is not found in the active slice buffers list"),
          sh, h).
Proof.
  intros s sh h. split; [reflexivity|].
  unfold Shard.RecycleSlice.
  replace (slices h !! 4160) with (Some s) by (symmetry; apply lookup_insert_eq).
  reflexivity.
Qed.

(** ** Shard: the active slice *)

Lemma InitializeRowTables_returns rowTables termTable (count : nat) :
  forall rank buffer,
    0 <= rank ->
    (Z.to_nat rank + count <= length rowTables)%nat ->
    exists buffer',
      Slice.InitializeRowTables count rank rowTables termTable buffer
      = (Returned tt, buffer').
Proof.
  induction count as [|count IH]; intros rank buffer Hrank Hlen.
  - exists buffer. reflexivity.
  - cbn [Slice.InitializeRowTables].
    destruct (rowTables !! Z.to_nat rank) as [d|] eqn:Hd.
    + apply IH; lia.
    + apply lookup_ge_None_1 in Hd. lia.
Qed.

(** Creating a Slice and allocating from it: the path [AllocateDocument]
    takes when there is no active slice or the active slice is full. *)
Lemma CreateNewActiveSlice_returns env sh h :
  Z.of_nat (length (Shard.m_rowTables sh)) = c_maxRankValue + 1 ->
  exists content,
    Shard.CreateNewActiveSlice env sh h
    = (Returned tt,
       Shard.set_slices sh (Some (newSlice env))
                        (Shard.m_sliceBuffers sh ++ [newBuffer env]),
       Shard.ScheduleRecyling
         (Shard.set_slice (Shard.set_buffer h (newBuffer env) content)
                          (newSlice env)
                          (Slice.init (Shard.m_sliceCapacity sh)
                                      (newBuffer env)))
         (DeferredSliceListDelete None (Shard.m_sliceBuffers sh))).
Proof.
  intros Hcount. unfold Shard.CreateNewActiveSlice, Slice.construct_buffer.
  match goal with
  | |- context [Slice.InitializeRowTables ?c ?r ?ts ?tt ?b] =>
      destruct (InitializeRowTables_returns ts tt c r b) as [content ->]
  end.
  - lia.
  - change (Z.to_nat 0) with 0%nat. unfold c_maxRankValue in *. lia.
  - exists content. reflexivity.
Qed.

(** C7, as the source has it. With an active slice that is null or a live
    Slice of the shard, [AllocateDocument] returns a handle into the
    active slice it leaves behind, and that slice is again a live Slice of
    the shard with [0 <= unallocated < capacity]: the count is 0 when the
    call handed out the last DocIndex. The call replaces the active slice
    exactly when it found it null or with [unallocated = 0]. [RecycleSlice]
    and [AddPosting] keep the active slice null or a live Slice of the
    shard as well. *)
Theorem AllocateDocument_active_slice
    (env : Fresh) (id : Z) (sh : Shard.t) (h : Heap) :
  0 < Shard.m_sliceCapacity sh < c_sizeModulus ->
  Z.of_nat (length (Shard.m_rowTables sh)) = c_maxRankValue + 1 ->
  Shard.active_slice_ok sh h ->
  (exists handle sh' h' s',
     Shard.AllocateDocument env id sh h = Some (Returned handle, sh', h') /\
     Shard.m_activeSlice sh' = Some (DocumentHandleInternal.m_slice handle) /\
     slices h' !! DocumentHandleInternal.m_slice handle = Some s' /\
     Shard.active_slice_ok sh' h' /\
     DocumentHandleInternal.m_index handle
     = Slice.m_capacity s' - Slice.m_unallocatedCount s' - 1 /\
     0 <= Slice.m_unallocatedCount s' < Slice.m_capacity s' /\
     match Shard.m_activeSlice sh with
     | None => Shard.m_activeSlice sh' = Some (newSlice env)
     | Some active =>
         exists s, slices h !! active = Some s /\
           if Slice.m_unallocatedCount s =? 0
           then Shard.m_activeSlice sh' = Some (newSlice env)
           else Shard.m_activeSlice sh' = Some active /\
                Slice.m_unallocatedCount s'
                = Slice.m_unallocatedCount s - 1
     end) /\
  (forall slice r sh' h',
     Shard.RecycleSlice slice sh h = Some (r, sh', h') ->
     Shard.active_slice_ok sh' h') /\
  (forall term index buffer sh' buffer',
     Shard.AddPosting term index buffer sh = Some (sh', buffer') ->
     Shard.active_slice_ok sh' h).
Proof.
  intros Hcap Hcount Hactive.
  split; [|split].
  2:{ intros slice r sh' h' Hrun. unfold Shard.RecycleSlice in Hrun.
      destruct (slices h !! slice) as [s|]; [|discriminate Hrun].
      destruct (negb (Slice.IsExpired s)); [inversion Hrun; subst; exact Hactive|].
      destruct (_ >? Shard.c_vectorMaxSize);
        [inversion Hrun; subst; exact Hactive|].
      destruct (negb _); inversion Hrun; subst; [exact Hactive|].
      unfold Shard.active_slice_ok in *. cbn.
      destruct (decide (Shard.m_activeSlice sh = Some slice)); [exact I|].
      exact Hactive. }
  2:{ intros term index buffer sh' buffer' Hrun.
      unfold Shard.AddPosting in Hrun.
      destruct (Shard.AddPosting_rows _ _ _ _); [|discriminate Hrun].
      inversion Hrun; subst.
      destruct (Shard.m_docFrequencyTableBuilder sh); exact Hactive. }
  assert (Hfit : 0 <= Shard.m_sliceCapacity sh < c_sizeModulus) by lia.
  assert (Hnew : forall h0,
    exists h1,
      Shard.AllocateDocument_from_new_slice env id sh h0
      = Some (Returned (DocumentHandleInternal.mk (newSlice env) 0 id),
              Shard.set_slices sh (Some (newSlice env))
                               (Shard.m_sliceBuffers sh ++ [newBuffer env]),
              h1) /\
      slices h1 !! newSlice env
      = Some (Slice.mk (Shard.m_sliceCapacity sh) 1 (newBuffer env)
                       (Shard.m_sliceCapacity sh - 1) (0 + 1) 0)).
  { intros h0. unfold Shard.AllocateDocument_from_new_slice.
    destruct (CreateNewActiveSlice_returns env sh h0 Hcount) as [content ->].
    cbn [Shard.m_activeSlice Shard.set_slices].
    unfold Shard.TryAllocateDocument_at.
    cbn [slices Shard.ScheduleRecyling Shard.set_slice].
    rewrite lookup_insert_eq. unfold Slice.init.
    rewrite (TryAllocateDocument_some _ 1 (newBuffer env) Hfit) by lia.
    rewrite Z.sub_diag.
    eexists. split; [reflexivity|]. cbn. apply lookup_insert_eq. }
  assert (Hfresh : forall h1,
    slices h1 !! newSlice env
    = Some (Slice.mk (Shard.m_sliceCapacity sh) 1 (newBuffer env)
                     (Shard.m_sliceCapacity sh - 1) (0 + 1) 0) ->
    Shard.active_slice_ok
      (Shard.set_slices sh (Some (newSlice env))
                        (Shard.m_sliceBuffers sh ++ [newBuffer env])) h1).
  { intros h1 Hh1. unfold Shard.active_slice_ok. cbn.
    eexists. split; [exact Hh1|]. split; [|reflexivity].
    unfold Slice.wf. cbn. lia. }
  unfold Shard.AllocateDocument.
  unfold Shard.active_slice_ok in Hactive.
  destruct (Shard.m_activeSlice sh) as [active|] eqn:Hact.
  - destruct Hactive as ([cap rc buf u p e] & Hs & Hwf & Hcapacity).
    unfold Slice.wf in Hwf. cbn in Hwf, Hcapacity. subst cap.
    unfold Shard.TryAllocateDocument_at. rewrite Hs.
    destruct (Z.eq_dec u 0) as [->|Hu].
    + cbn [Slice.TryAllocateDocument Slice.m_unallocatedCount Z.eqb].
      destruct (Hnew (Shard.set_slice h active
                        (Slice.mk (Shard.m_sliceCapacity sh) rc buf 0 p e)))
        as (h1 & Hrun & Hh1).
      unfold Slice.set_counts; cbn. rewrite Hrun.
      eexists _, _, _, _. split; [reflexivity|].
      split; [reflexivity|]. split; [exact Hh1|].
      split; [apply Hfresh; exact Hh1|]. cbn.
      split; [cbn; lia|]. split; [cbn; lia|].
      eexists. split; [reflexivity|]. reflexivity.
    + rewrite (TryAllocateDocument_some _ rc buf Hfit) by lia.
      eexists _, _, _, _. split; [reflexivity|].
      cbn. split; [exact Hact|].
      split; [apply lookup_insert_eq|].
      split.
      { unfold Shard.active_slice_ok. rewrite Hact. cbn.
        eexists. split; [apply lookup_insert_eq|].
        split; [|reflexivity]. unfold Slice.wf. cbn. lia. }
      split; [cbn; lia|]. split; [cbn; lia|].
      eexists. split; [reflexivity|]. cbn.
      destruct (Z.eqb_spec u 0); [lia|]. split; [exact Hact|reflexivity].
  - destruct (Hnew h) as (h1 & Hrun & Hh1).
    rewrite Hrun.
    eexists _, _, _, _. split; [reflexivity|].
    split; [reflexivity|]. split; [exact Hh1|].
    split; [apply Hfresh; exact Hh1|]. cbn.
    split; [cbn; lia|]. split; [cbn; lia|]. reflexivity.
Qed.

(** The first allocation on the shard of [SingleShard]: a Slice is
    created and its DocIndex 0 handed out. *)
Lemma AllocateDocument_active_slice_first :
  exists handle sh' h' s',
    Shard.AllocateDocument (SingleShard.env SingleShard.heap) 7
                           SingleShard.shard SingleShard.heap
    = Some (Returned handle, sh', h') /\
    Shard.m_activeSlice sh' = Some (DocumentHandleInternal.m_slice handle) /\
    slices h' !! DocumentHandleInternal.m_slice handle = Some s' /\
    0 <= Slice.m_unallocatedCount s' < Slice.m_capacity s'.
Proof.
  destruct (AllocateDocument_active_slice
              (SingleShard.env SingleShard.heap) 7
              SingleShard.shard SingleShard.heap)
    as ((handle & sh' & h' & s' & H1 & H2 & H3 & _ & _ & H4 & _) & _).
  - split; reflexivity.
  - reflexivity.
  - exact I.
  - exists handle, sh', h', s'.
    split; [exact H1|]. split; [exact H2|]. split; [exact H3|exact H4].
Defined.

(** C7 as the spec words it fails: after the 64 allocations that use up
    the first Slice of the shard of [SingleShard], the active slice is
    still that Slice, with no unallocated DocIndex left. *)
Lemma active_slice_full_after_last_index :
  exists handles sh h s,
    Shard.AllocateDocument_times 64 SingleShard.env 0
                                 SingleShard.shard SingleShard.heap
    = Some (Returned handles, sh, h) /\
    Shard.m_activeSlice sh = Some 4096 /\
    slices h !! 4096 = Some s /\
    Slice.m_unallocatedCount s = 0.
Proof.
  eexists _, _, _, _.
  split; [vm_compute; reflexivity|].
  split; [reflexivity|].
  split; [vm_compute; reflexivity|].
  reflexivity.
Qed.

(** ** Shard: postings *)

Lemma bitOf_nonneg d docIndex : 0 <= RowTableDescriptor.bitOf d docIndex.
Proof. unfold RowTableDescriptor.bitOf. apply Z.land_nonneg. right. lia. Qed.

(** [SetBit] turns on the bit it addresses and leaves every other bit of
    the buffer as it was. *)
Lemma SetBit_testbit d buffer row docIndex offset bit :
  Z.testbit (RowTableDescriptor.SetBit d buffer row docIndex offset) bit
  = Z.testbit (buffer offset) bit
    || ((offset =? RowTableDescriptor.byteOf d row docIndex)
        && (bit =? RowTableDescriptor.bitOf d docIndex)).
Proof.
  unfold RowTableDescriptor.SetBit, store_byte.
  destruct (Z.eqb_spec offset (RowTableDescriptor.byteOf d row docIndex))
    as [->|_].
  - rewrite Z.lor_spec, Z.shiftl_1_l.
    rewrite Z.pow2_bits_eqb by apply bitOf_nonneg.
    rewrite (Z.eqb_sym bit). reflexivity.
  - rewrite orb_false_r. reflexivity.
Qed.

Section AddPostingRows.

Variables (rowTables : list RowTableDescriptor.t) (index : Z).

(** The test of [Shard.addressed] for one row. *)
Let hits (offset bit : Z) (row : RowId) : bool :=
  match rowTables !! Z.to_nat (GetRank row) with
  | None => false
  | Some rowTable =>
      (offset =? RowTableDescriptor.byteOf rowTable (GetIndex row) index)
      && (bit =? RowTableDescriptor.bitOf rowTable index)
  end.

Lemma AddPosting_rows_returns (rows : list RowId) :
  forall buffer,
    (forall row, In row rows ->
       0 <= GetRank row /\ is_Some (rowTables !! Z.to_nat (GetRank row))) ->
    exists buffer',
      Shard.AddPosting_rows rowTables rows index buffer = Some buffer'.
Proof.
  induction rows as [|row rows IH]; intros buffer Hrows.
  - exists buffer. reflexivity.
  - cbn [Shard.AddPosting_rows].
    destruct (Hrows row) as [Hrank [d Hd]]; [left; reflexivity|].
    destruct (Z.ltb_spec (GetRank row) 0); [lia|].
    rewrite Hd. apply IH. intros r Hr. apply Hrows. right. exact Hr.
Qed.

Lemma AddPosting_rows_testbit (rows : list RowId) :
  forall buffer buffer',
    Shard.AddPosting_rows rowTables rows index buffer = Some buffer' ->
    forall offset bit,
      Z.testbit (buffer' offset) bit
      = Z.testbit (buffer offset) bit || existsb (hits offset bit) rows.
Proof.
  induction rows as [|row rows IH]; intros buffer buffer' Hrun offset bit.
  - cbn in Hrun. inversion Hrun. cbn. rewrite orb_false_r. reflexivity.
  - cbn [Shard.AddPosting_rows] in Hrun.
    destruct (GetRank row <? 0); [discriminate Hrun|].
    destruct (rowTables !! Z.to_nat (GetRank row)) as [d|] eqn:Hd;
      [|discriminate Hrun].
    rewrite (IH _ _ Hrun), SetBit_testbit. cbn [existsb].
    unfold hits at 2. rewrite Hd. rewrite orb_assoc. reflexivity.
Qed.

End AddPostingRows.

(** C10. [AddPosting] returns when every row of the term has a table for
    its rank; each bit of the buffer it returns is the old bit or-ed with
    "the bit is at the column of the DocIndex in a row of the term": a bit
    that was set stays set, a bit that is not addressed keeps its value,
    an addressed bit is set. A second call with the same term and DocIndex
    leaves the buffer as the first call left it. *)
Theorem AddPosting_sets_addressed_bits
    (term : Term) (index : Z) (buffer : SliceBuffer) (sh : Shard.t) :
  (forall row, In row (RowIdSequence (Shard.m_termTable sh) term) ->
     0 <= GetRank row /\
     is_Some (Shard.m_rowTables sh !! Z.to_nat (GetRank row))) ->
  exists sh1 buffer1 sh2 buffer2,
    Shard.AddPosting term index buffer sh = Some (sh1, buffer1) /\
    Shard.AddPosting term index buffer1 sh1 = Some (sh2, buffer2) /\
    (forall offset bit,
       Z.testbit (buffer1 offset) bit
       = Z.testbit (buffer offset) bit
         || Shard.addressed sh term index offset bit) /\
    (forall offset bit,
       Z.testbit (buffer offset) bit = true ->
       Z.testbit (buffer1 offset) bit = true) /\
    (forall offset bit,
       Shard.addressed sh term index offset bit = false ->
       Z.testbit (buffer1 offset) bit = Z.testbit (buffer offset) bit) /\
    (forall offset, buffer2 offset = buffer1 offset).
Proof.
  intros Hrows.
  assert (Hsame : forall sh0,
            Shard.m_rowTables
              (match Shard.m_docFrequencyTableBuilder sh0 with
               | Some builder =>
                   Shard.set_builder sh0
                     (Some (DocumentFrequencyTableBuilder.OnTerm builder term))
               | None => sh0
               end) = Shard.m_rowTables sh0 /\
            Shard.m_termTable
              (match Shard.m_docFrequencyTableBuilder sh0 with
               | Some builder =>
                   Shard.set_builder sh0
                     (Some (DocumentFrequencyTableBuilder.OnTerm builder term))
               | None => sh0
               end) = Shard.m_termTable sh0).
  { intros sh0. destruct (Shard.m_docFrequencyTableBuilder sh0);
      split; reflexivity. }
  unfold Shard.AddPosting.
  destruct (Hsame sh) as [Htables Hterms]. rewrite Htables, Hterms.
  destruct (AddPosting_rows_returns (Shard.m_rowTables sh) index
              (RowIdSequence (Shard.m_termTable sh) term) buffer Hrows)
    as [buffer1 Hrun1].
  destruct (AddPosting_rows_returns (Shard.m_rowTables sh) index
              (RowIdSequence (Shard.m_termTable sh) term) buffer1 Hrows)
    as [buffer2 Hrun2].
  rewrite Hrun1.
  eexists _, buffer1, _, buffer2.
  split; [reflexivity|].
  pose proof (AddPosting_rows_testbit _ _ _ _ _ Hrun1) as Hbits1.
  pose proof (AddPosting_rows_testbit _ _ _ _ _ Hrun2) as Hbits2.
  split.
  { match goal with
    | |- context [Shard.m_docFrequencyTableBuilder ?s] =>
        destruct (Hsame s) as [Htables' Hterms']
    end.
    rewrite Htables', Hterms', Htables, Hterms, Hrun2. reflexivity. }
  split; [exact Hbits1|].
  split; [intros offset bit Hset; rewrite Hbits1, Hset; reflexivity|].
  split.
  { intros offset bit Hclear. rewrite Hbits1.
    unfold Shard.addressed in Hclear. rewrite Hclear.
    apply orb_false_r. }
  intros offset. apply Z.bits_inj'. intros bit _.
  rewrite Hbits2, Hbits1, <- orb_assoc, orb_diag. reflexivity.
Qed.

(** A posting for the term of hash 5 (row 2 of rank 0) at DocIndex 9 on
    the shard of [SingleShard]. *)
Lemma AddPosting_sets_addressed_bits_row2 :
  exists sh1 buffer1 sh2 buffer2,
    Shard.AddPosting (mkTerm 5 0 1 0) 9 (fun _ => 0) SingleShard.shard
    = Some (sh1, buffer1) /\
    Shard.AddPosting (mkTerm 5 0 1 0) 9 buffer1 sh1 = Some (sh2, buffer2) /\
    Z.testbit (buffer1 17) 1 = true /\
    (forall offset, buffer2 offset = buffer1 offset).
Proof.
  destruct (AddPosting_sets_addressed_bits
              (mkTerm 5 0 1 0) 9 (fun _ => 0) SingleShard.shard)
    as (sh1 & buffer1 & sh2 & buffer2 & H1 & H2 & H3 & _ & _ & H4).
  - intros row [<-|[]]. split; [discriminate|]. eexists. reflexivity.
  - exists sh1, buffer1, sh2, buffer2.
    split; [exact H1|]. split; [exact H2|]. split; [|exact H4].
    rewrite H3. reflexivity.
Defined.

(** ** Ingestor: failures of Add *)

Section IngestorAdd.

Import Ingestor.

Context {Index : Type}.
Variable collaborators : Collaborators Index.
Variables (id : Z) (document : IDocument Index).

Let shardId : Z := GetShard collaborators (GetPostingCount document).

(** The entry [Add] logs when the rollback itself fails. *)
Let cleanup_error : string * string :=
  ("Ingestor::Add",
   "Error while cleaning up after AddDocument operation failed.").

Ltac run_Add :=
  unfold Add, bind, try_catch, call, modify, throw, ret, documentMap_Add,
    LogB, increment_documentCount, histogram_AddDocument;
  cbn [m_index m_documentMap m_documentCount m_histogram m_log calls].

Lemma Add_Ingest_throws st handle index1 e index2 :
  AllocateDocument collaborators shardId id (m_index st)
  = Some (Returned handle, index1) ->
  Ingest document handle index1 = Some (Thrown e, index2) ->
  exists st',
    Add collaborators id document st = Some (Thrown e, st') /\
    m_index st' = index2 /\
    calls st'
    = calls st ++ [CallAllocateDocument shardId id; CallIngest handle] /\
    m_log st' = m_log st.
Proof.
  intros Hallocate Hingest. run_Add. fold shardId.
  rewrite Hallocate. cbn. rewrite Hingest.
  eexists. split; [reflexivity|]. cbn.
  rewrite <- !app_assoc. repeat split.
Qed.

Lemma Add_Activate_throws st handle index1 index2 e index3 :
  AllocateDocument collaborators shardId id (m_index st)
  = Some (Returned handle, index1) ->
  Ingest document handle index1 = Some (Returned tt, index2) ->
  Activate collaborators handle index2 = Some (Thrown e, index3) ->
  exists st',
    Add collaborators id document st = Some (Thrown e, st') /\
    m_index st' = index3 /\
    calls st'
    = calls st ++ [CallAllocateDocument shardId id; CallIngest handle;
                   CallActivate handle] /\
    m_log st' = m_log st.
Proof.
  intros Hallocate Hingest Hactivate. run_Add. fold shardId.
  rewrite Hallocate. cbn. rewrite Hingest. cbn. rewrite Hactivate.
  eexists. split; [reflexivity|]. cbn.
  rewrite <- !app_assoc. repeat split.
Qed.

Lemma Add_CommitDocument_throws st handle index1 index2 index3 e index4 :
  AllocateDocument collaborators shardId id (m_index st)
  = Some (Returned handle, index1) ->
  Ingest document handle index1 = Some (Returned tt, index2) ->
  Activate collaborators handle index2 = Some (Returned tt, index3) ->
  CommitDocument collaborators handle index3 = Some (Thrown e, index4) ->
  exists st',
    Add collaborators id document st = Some (Thrown e, st') /\
    m_index st' = index4 /\
    calls st'
    = calls st ++ [CallAllocateDocument shardId id; CallIngest handle;
                   CallActivate handle; CallCommitDocument handle] /\
    m_log st' = m_log st.
Proof.
  intros Hallocate Hingest Hactivate Hcommit. run_Add. fold shardId.
  rewrite Hallocate. cbn. rewrite Hingest. cbn. rewrite Hactivate. cbn.
  rewrite Hcommit.
  eexists. split; [reflexivity|]. cbn.
  rewrite <- !app_assoc. repeat split.
Qed.

Lemma Add_insertion_throws st handle index1 index2 index3 full index4 e r
    index5 :
  AllocateDocument collaborators shardId id (m_index st)
  = Some (Returned handle, index1) ->
  Ingest document handle index1 = Some (Returned tt, index2) ->
  Activate collaborators handle index2 = Some (Returned tt, index3) ->
  CommitDocument collaborators handle index3 = Some (Returned full, index4) ->
  DocumentMap_Add handle (m_documentMap st) = Thrown e ->
  Expire collaborators handle index4 = Some (r, index5) ->
  exists st',
    Add collaborators id document st = Some (Thrown e, st') /\
    m_index st' = index5 /\
    calls st'
    = calls st ++ [CallAllocateDocument shardId id; CallIngest handle;
                   CallActivate handle; CallCommitDocument handle;
                   CallDocumentMapAdd handle; CallExpire handle] /\
    m_documentMap st' = m_documentMap st /\
    m_log st'
    = m_log st ++ match r with
                  | Thrown _ => [cleanup_error]
                  | Returned _ => []
                  end.
Proof.
  intros Hallocate Hingest Hactivate Hcommit Hinsert Hexpire.
  run_Add. fold shardId.
  rewrite Hallocate. cbn. rewrite Hingest. cbn. rewrite Hactivate. cbn.
  rewrite Hcommit. cbn. rewrite Hinsert. cbn. rewrite Hexpire.
  destruct r as [[]|e']; cbn;
    (eexists; split; [reflexivity|]); cbn;
    rewrite <- !app_assoc; cbn; rewrite ?app_nil_r; repeat split.
Qed.

End IngestorAdd.

(** C4, as the source has it. After [AllocateDocument] returned a handle:
    an exception of [document.Ingest], of [Activate] or of
    [CommitDocument] leaves [Add] as it is, no [handle.Expire()] being
    called; an exception of the DocumentMap insertion is caught,
    [handle.Expire()] is called, an exception of that call is logged and
    dropped, and the exception of the insertion is thrown again. *)
Theorem Add_failure_after_allocation {Index : Type}
    (collaborators : Ingestor.Collaborators Index) (id : Z)
    (document : Ingestor.IDocument Index) (st : Ingestor.t Index)
    (handle : DocumentHandleInternal.t) (index1 : Index) :
  let shardId :=
    Ingestor.GetShard collaborators (Ingestor.GetPostingCount document) in
  Ingestor.AllocateDocument collaborators shardId id (Ingestor.m_index st)
  = Some (Returned handle, index1) ->
  (forall e index2,
     Ingestor.Ingest document handle index1 = Some (Thrown e, index2) ->
     exists st',
       Ingestor.Add collaborators id document st = Some (Thrown e, st') /\
       Ingestor.m_index st' = index2 /\
       Ingestor.calls st'
       = Ingestor.calls st
         ++ [Ingestor.CallAllocateDocument shardId id;
             Ingestor.CallIngest handle]) /\
  (forall index2,
     Ingestor.Ingest document handle index1 = Some (Returned tt, index2) ->
     (forall e index3,
        Ingestor.Activate collaborators handle index2
        = Some (Thrown e, index3) ->
        exists st',
          Ingestor.Add collaborators id document st = Some (Thrown e, st') /\
          Ingestor.m_index st' = index3 /\
          Ingestor.calls st'
          = Ingestor.calls st
            ++ [Ingestor.CallAllocateDocument shardId id;
                Ingestor.CallIngest handle; Ingestor.CallActivate handle]) /\
     (forall index3,
        Ingestor.Activate collaborators handle index2
        = Some (Returned tt, index3) ->
        (forall e index4,
           Ingestor.CommitDocument collaborators handle index3
           = Some (Thrown e, index4) ->
           exists st',
             Ingestor.Add collaborators id document st
             = Some (Thrown e, st') /\
             Ingestor.m_index st' = index4 /\
             Ingestor.calls st'
             = Ingestor.calls st
               ++ [Ingestor.CallAllocateDocument shardId id;
                   Ingestor.CallIngest handle; Ingestor.CallActivate handle;
                   Ingestor.CallCommitDocument handle]) /\
        (forall full index4 e r index5,
           Ingestor.CommitDocument collaborators handle index3
           = Some (Returned full, index4) ->
           Ingestor.DocumentMap_Add handle (Ingestor.m_documentMap st)
           = Thrown e ->
           Ingestor.Expire collaborators handle index4 = Some (r, index5) ->
           exists st',
             Ingestor.Add collaborators id document st
             = Some (Thrown e, st') /\
             Ingestor.m_index st' = index5 /\
             Ingestor.calls st'
             = Ingestor.calls st
               ++ [Ingestor.CallAllocateDocument shardId id;
                   Ingestor.CallIngest handle; Ingestor.CallActivate handle;
                   Ingestor.CallCommitDocument handle;
                   Ingestor.CallDocumentMapAdd handle;
                   Ingestor.CallExpire handle] /\
             Ingestor.m_documentMap st' = Ingestor.m_documentMap st /\
             Ingestor.m_log st'
             = Ingestor.m_log st
               ++ match r with
                  | Thrown _ =>
                      [("Ingestor::Add",
                        "Error while cleaning up after AddDocument operation failed.")]
                  | Returned _ => []
                  end))).
Proof.
  intros shardId Hallocate. split.
  - intros e index2 Hingest.
    destruct (Add_Ingest_throws collaborators id document st handle index1
                e index2 Hallocate Hingest) as (st' & H1 & H2 & H3 & _).
    exists st'. repeat split; assumption.
  - intros index2 Hingest. split.
    + intros e index3 Hactivate.
      destruct (Add_Activate_throws collaborators id document st handle
                  index1 index2 e index3 Hallocate Hingest Hactivate)
        as (st' & H1 & H2 & H3 & _).
      exists st'. repeat split; assumption.
    + intros index3 Hactivate. split.
      * intros e index4 Hcommit.
        destruct (Add_CommitDocument_throws collaborators id document st
                    handle index1 index2 index3 e index4 Hallocate Hingest
                    Hactivate Hcommit) as (st' & H1 & H2 & H3 & _).
        exists st'. repeat split; assumption.
      * intros full index4 e r index5 Hcommit Hinsert Hexpire.
        exact (Add_insertion_throws collaborators id document st handle
                 index1 index2 index3 full index4 e r index5 Hallocate
                 Hingest Hactivate Hcommit Hinsert Hexpire).
Qed.

(** On the ingestor of [SingleShard], a document whose [Ingest] throws:
    the exception reaches the caller. *)
Lemma Add_failure_after_allocation_Ingest :
  exists st',
    Ingestor.Add SingleShard.collaborators 7
                 (SingleShard.failing_document (mkTerm 5 0 1 0))
                 SingleShard.ingestor
    = Some (Thrown (ForeignException "Ingest failed"), st').
Proof.
  pose (document := SingleShard.failing_document (mkTerm 5 0 1 0)).
  pose (handle := DocumentHandleInternal.mk 4096 0 7).
  pose (index1 :=
          match SingleShard.AllocateDocument
                  0 7 (Ingestor.m_index SingleShard.ingestor) with
          | Some (_, index) => index
          | None => Ingestor.m_index SingleShard.ingestor
          end).
  pose (index2 :=
          match Ingestor.Ingest document handle index1 with
          | Some (_, index) => index
          | None => index1
          end).
  assert (Hallocate :
            Ingestor.AllocateDocument SingleShard.collaborators
              (Ingestor.GetShard SingleShard.collaborators
                                 (Ingestor.GetPostingCount document))
              7 (Ingestor.m_index SingleShard.ingestor)
            = Some (Returned handle, index1))
    by (vm_compute; reflexivity).
  assert (Hingest :
            Ingestor.Ingest document handle index1
            = Some (Thrown (ForeignException "Ingest failed"), index2))
    by (vm_compute; reflexivity).
  destruct (proj1 (Add_failure_after_allocation
                     SingleShard.collaborators 7 document
                     SingleShard.ingestor handle index1 Hallocate)
                  (ForeignException "Ingest failed") index2 Hingest)
    as (st' & Hrun & _).
  exists st'. exact Hrun.
Defined.

(** C4 as the spec words it fails: when [document.Ingest] throws, [Add]
    performs no rollback. [handle.Expire()] is not called, and the
    DocIndex the handle took stays allocated, neither committed nor
    expired. *)
Lemma Add_failing_Ingest_is_not_rolled_back :
  exists st' sh h s,
    Ingestor.Add SingleShard.collaborators 7
                 (SingleShard.failing_document (mkTerm 5 0 1 0))
                 SingleShard.ingestor
    = Some (Thrown (ForeignException "Ingest failed"), st') /\
    Ingestor.calls st'
    = [Ingestor.CallAllocateDocument 0 7;
       Ingestor.CallIngest (DocumentHandleInternal.mk 4096 0 7)] /\
    Ingestor.m_index st' = (sh, h) /\
    slices h !! 4096 = Some s /\
    Slice.m_commitPendingCount s = 1 /\
    Slice.m_expiredCount s = 0.
Proof.
  eexists _, _, _, _.
  split; [vm_compute; reflexivity|].
  split; [reflexivity|].
  split; [reflexivity|].
  split; [vm_compute; reflexivity|].
  split; reflexivity.
Qed.

(** ** Ingestor: the statistics of a failed Add *)

Section IngestorStatistics.

Import Ingestor.

Context {Index : Type}.
Variable collaborators : Collaborators Index.

Lemma DocumentMap_Add_throws handle map e :
  DocumentMap_Add handle map = Thrown e ->
  is_Some (map !! DocumentHandleInternal.m_id handle).
Proof.
  unfold DocumentMap_Add.
  destruct (map !! DocumentHandleInternal.m_id handle) as [other|];
    [eauto|discriminate].
Qed.

(** Whatever the outcome of [Add], the document was counted and its
    posting count entered in the histogram; and when the last call of
    [Add] is [handle.Expire()], the insertion failed, the map is as it
    was and holds the id of the handle. *)
Lemma Add_outcome id document st r st' :
  Add collaborators id document st = Some (r, st') ->
  m_documentCount st' = wrap (m_documentCount st + 1) /\
  m_histogram st'
  = Histogram_AddDocument (GetPostingCount document) (m_histogram st) /\
  forall handle,
    last (calls st') = Some (CallExpire handle) ->
    (exists e, r = Thrown e) /\
    m_documentMap st' = m_documentMap st /\
    is_Some (m_documentMap st !! DocumentHandleInternal.m_id handle).
Proof.
  unfold Add, bind, try_catch, call, modify, throw, ret, documentMap_Add,
    LogB, increment_documentCount, histogram_AddDocument.
  cbn [m_index m_documentMap m_documentCount m_histogram m_log calls].
  intros H.
  destruct (AllocateDocument collaborators _ id (m_index st))
    as [[[handle|e] index1]|]; [| |discriminate H].
  2:{ inversion H; subst; cbn. repeat split.
      all: rewrite last_snoc in *; discriminate. }
  cbn in H.
  destruct (Ingest document handle index1) as [[[[]|e] index2]|];
    [| |discriminate H].
  2:{ inversion H; subst; cbn. repeat split.
      all: rewrite last_snoc in *; discriminate. }
  cbn in H.
  destruct (Activate collaborators handle index2) as [[[[]|e] index3]|];
    [| |discriminate H].
  2:{ inversion H; subst; cbn. repeat split.
      all: rewrite last_snoc in *; discriminate. }
  cbn in H.
  destruct (CommitDocument collaborators handle index3)
    as [[[full|e] index4]|]; [| |discriminate H].
  2:{ inversion H; subst; cbn. repeat split.
      all: rewrite last_snoc in *; discriminate. }
  cbn in H.
  destruct (DocumentMap_Add handle (m_documentMap st)) as [map|e] eqn:Hinsert.
  { inversion H; subst; cbn. repeat split.
    all: rewrite last_snoc in *; discriminate. }
  cbn in H.
  destruct (Expire collaborators handle index4) as [[[[]|e'] index5]|];
    [| |discriminate H].
  all: inversion H; subst; cbn; split; [reflexivity|]; split; [reflexivity|].
  all: intros handle' Hlast; rewrite last_snoc in Hlast.
  all: inversion Hlast; subst handle'.
  all: split; [eexists; reflexivity|]; split; [reflexivity|].
  all: eapply DocumentMap_Add_throws; exact Hinsert.
Qed.

End IngestorStatistics.

(** C9, as the source has it. [Add] increments the document count and
    enters the posting count of the document in the histogram before it
    asks for a handle, and nothing undoes that: whatever the outcome of
    [Add], both are incremented. When [Add] rolled the document back with
    [handle.Expire()], the insertion into the DocumentMap failed: [Add]
    fails, the map is unchanged and [Contains] is true for the id of the
    handle, the id being mapped already. *)
Theorem Add_statistics_persist {Index : Type}
    (collaborators : Ingestor.Collaborators Index) (id : Z)
    (document : Ingestor.IDocument Index) (st : Ingestor.t Index)
    (r : Result unit) (st' : Ingestor.t Index) :
  Ingestor.Add collaborators id document st = Some (r, st') ->
  Ingestor.m_documentCount st' = wrap (Ingestor.m_documentCount st + 1) /\
  Ingestor.m_histogram st'
  = Ingestor.Histogram_AddDocument (Ingestor.GetPostingCount document)
                                   (Ingestor.m_histogram st) /\
  forall handle,
    last (Ingestor.calls st') = Some (Ingestor.CallExpire handle) ->
    (exists e, r = Thrown e) /\
    Ingestor.m_documentMap st' = Ingestor.m_documentMap st /\
    Ingestor.Contains (DocumentHandleInternal.m_id handle) st' = true.
Proof.
  intros Hrun.
  destruct (Add_outcome collaborators id document st r st' Hrun)
    as (Hcount & Hhistogram & Hrollback).
  split; [exact Hcount|]. split; [exact Hhistogram|].
  intros handle Hlast.
  destruct (Hrollback handle Hlast) as (Hthrown & Hmap & [other Hother]).
  split; [exact Hthrown|]. split; [exact Hmap|].
  unfold Ingestor.Contains, Ingestor.DocumentMap_Find.
  rewrite Hmap, Hother. reflexivity.
Qed.

(** The ingestor of [SingleShard] after the document 7 was added: adding
    a document of the same id again. *)
Lemma Add_statistics_persist_duplicate :
  exists st1 st2 handle,
    Ingestor.Add SingleShard.collaborators 7
                 (SingleShard.document [mkTerm 5 0 1 0]) SingleShard.ingestor
    = Some (Returned tt, st1) /\
    Ingestor.Add SingleShard.collaborators 7
                 (SingleShard.document [mkTerm 6 0 1 0; mkTerm 5 0 1 0]) st1
    = Some (Thrown (RecoverableError "DocumentMap::Add: duplicate DocId."),
            st2) /\
    last (Ingestor.calls st2) = Some (Ingestor.CallExpire handle) /\
    Ingestor.m_documentCount st2 = 2 /\
    Ingestor.m_histogram st2 !! 2 = Some 1 /\
    Ingestor.Contains 7 st2 = true.
Proof.
  pose (st1 :=
          match Ingestor.Add SingleShard.collaborators 7
                  (SingleShard.document [mkTerm 5 0 1 0])
                  SingleShard.ingestor with
          | Some (_, st) => st
          | None => SingleShard.ingestor
          end).
  pose (st2 :=
          match Ingestor.Add SingleShard.collaborators 7
                  (SingleShard.document [mkTerm 6 0 1 0; mkTerm 5 0 1 0])
                  st1 with
          | Some (_, st) => st
          | None => st1
          end).
  pose (handle := DocumentHandleInternal.mk 4096 1 7).
  assert (H1 : Ingestor.Add SingleShard.collaborators 7
                 (SingleShard.document [mkTerm 5 0 1 0]) SingleShard.ingestor
               = Some (Returned tt, st1)) by (vm_compute; reflexivity).
  assert (H2 : Ingestor.Add SingleShard.collaborators 7
                 (SingleShard.document [mkTerm 6 0 1 0; mkTerm 5 0 1 0]) st1
               = Some (Thrown (RecoverableError
                                 "DocumentMap::Add: duplicate DocId."),
                       st2)) by (vm_compute; reflexivity).
  assert (Hlast : last (Ingestor.calls st2) = Some (Ingestor.CallExpire handle))
    by (vm_compute; reflexivity).
  destruct (Add_statistics_persist _ _ _ _ _ _ H2)
    as (Hcount & Hhistogram & Hrollback).
  destruct (Hrollback handle Hlast) as (_ & _ & Hcontains).
  exists st1, st2, handle.
  split; [exact H1|]. split; [exact H2|]. split; [exact Hlast|].
  split; [rewrite Hcount; vm_compute; reflexivity|].
  split; [rewrite Hhistogram; vm_compute; reflexivity|].
  exact Hcontains.
Defined.

(** C9 as the spec words it fails: after the failed and rolled-back [Add]
    of a document whose id is in the index already, [Contains] is true
    for that id. *)
Lemma failed_Add_of_duplicate_is_contained :
  exists st1 st2 handle,
    Ingestor.Add SingleShard.collaborators 7
                 (SingleShard.document [mkTerm 5 0 1 0]) SingleShard.ingestor
    = Some (Returned tt, st1) /\
    Ingestor.Add SingleShard.collaborators 7
                 (SingleShard.document [mkTerm 6 0 1 0; mkTerm 5 0 1 0]) st1
    = Some (Thrown (RecoverableError "DocumentMap::Add: duplicate DocId."),
            st2) /\
    last (Ingestor.calls st2) = Some (Ingestor.CallExpire handle) /\
    DocumentHandleInternal.m_id handle = 7 /\
    Ingestor.Contains 7 st2 <> false.
Proof.
  eexists _, _, _.
  split; [vm_compute; reflexivity|].
  split; [vm_compute; reflexivity|].
  split; [vm_compute; reflexivity|].
  split; [reflexivity|].
  vm_compute. discriminate.
Qed.

(** ** QueryParser: the position of an error *)

Section ParserErrors.

Import QueryParser.

(** A computation whose exceptions are ParseErrors that carry the
    position of the parser, the bad escape apart. *)
Let positioned {A : Type} (m : P A) : Prop :=
  forall s r s',
    m s = Some (r, s') ->
    match r with
    | Returned _ => True
    | Thrown e =>
        exists message position,
          e = ParseError message position /\
          (message = "Bad escape char"%string \/
           position = m_currentPosition s')
    end.

Lemma positioned_ret {A : Type} (a : A) : positioned (ret a).
Proof. intros s r s' H. inversion H. exact I. Qed.

Lemma positioned_out_of_fuel {A : Type} : positioned (@out_of_fuel A).
Proof. intros s r s' H. discriminate H. Qed.

Lemma positioned_bind {A B : Type} (m : P A) (k : A -> P B) :
  positioned m -> (forall a, positioned (k a)) -> positioned (bind m k).
Proof.
  intros Hm Hk s r s' H. unfold bind in H.
  destruct (m s) as [[[a|e] s1]|] eqn:Hms; [| |discriminate H].
  - exact (Hk a s1 r s' H).
  - inversion H; subst. exact (Hm s (Thrown e) s' Hms).
Qed.

Lemma positioned_if {A : Type} (b : bool) (m1 m2 : P A) :
  positioned m1 -> positioned m2 -> positioned (if b then m1 else m2).
Proof. destruct b; intros; assumption. Qed.

Lemma positioned_throw_here {A : Type} (message : string) :
  positioned
    (bind currentPosition
          (fun position => @throw A (ParseError message position))).
Proof.
  intros s r s' H. inversion H; subst.
  eexists _, _. split; [reflexivity|]. right. reflexivity.
Qed.

Lemma positioned_PeekChar : positioned PeekChar.
Proof.
  intros s r s' H. unfold PeekChar in H.
  destruct (m_haveChar s), (m_input s); inversion H; exact I.
Qed.

Lemma positioned_advance : positioned advance.
Proof. intros s r s' H. inversion H. exact I. Qed.

Lemma positioned_GetChar : positioned GetChar.
Proof.
  apply positioned_bind; [apply positioned_PeekChar|]. intros c.
  apply positioned_if; [apply positioned_throw_here|].
  apply positioned_bind; [apply positioned_advance|]. intros _.
  apply positioned_ret.
Qed.

Lemma positioned_GetWithEscape : positioned GetWithEscape.
Proof.
  apply positioned_bind; [apply positioned_PeekChar|]. intros c.
  apply positioned_if; [|apply positioned_GetChar].
  apply positioned_bind; [apply positioned_GetChar|]. intros _.
  apply positioned_bind; [apply positioned_PeekChar|]. intros c'.
  apply positioned_if; [apply positioned_GetChar|].
  intros s r s' H. inversion H; subst.
  eexists _, _. split; [reflexivity|]. left. reflexivity.
Qed.

Lemma positioned_SkipWhite (fuel : nat) : positioned (SkipWhite fuel).
Proof.
  induction fuel as [|fuel IH]; [apply positioned_out_of_fuel|].
  cbn [SkipWhite].
  apply positioned_bind; [apply positioned_PeekChar|]. intros c.
  apply positioned_if; [|apply positioned_ret].
  apply positioned_bind; [apply positioned_GetChar|]. intros _. exact IH.
Qed.

Lemma positioned_ExpectDelimeter (c : Z) : positioned (ExpectDelimeter c).
Proof.
  apply positioned_bind; [apply positioned_PeekChar|]. intros got.
  apply positioned_if; [apply positioned_throw_here|].
  apply positioned_bind; [apply positioned_GetChar|]. intros _.
  apply positioned_ret.
Qed.

Lemma positioned_ParseToken_loop (fuel : nat) :
  forall builder, positioned (ParseToken_loop fuel builder).
Proof.
  induction fuel as [|fuel IH]; intros builder;
    [apply positioned_out_of_fuel|].
  cbn [ParseToken_loop].
  apply positioned_bind; [apply positioned_PeekChar|]. intros c.
  apply positioned_if; [|apply positioned_ret].
  apply positioned_bind; [apply positioned_GetWithEscape|]. intros temp.
  apply IH.
Qed.

Lemma positioned_ParseToken (fuel : nat) : positioned (ParseToken fuel).
Proof.
  apply positioned_bind; [apply positioned_ParseToken_loop|].
  intros [|c token]; [apply positioned_throw_here|apply positioned_ret].
Qed.

Lemma positioned_ParsePhrase_loop (fuel : nat) :
  forall grams, positioned (ParsePhrase_loop fuel grams).
Proof.
  induction fuel as [|fuel IH]; intros grams;
    [apply positioned_out_of_fuel|].
  cbn [ParsePhrase_loop].
  apply positioned_bind; [apply positioned_SkipWhite|]. intros _.
  apply positioned_bind; [apply positioned_PeekChar|]. intros c.
  apply positioned_if.
  - apply positioned_bind; [apply positioned_ExpectDelimeter|]. intros _.
    apply positioned_ret.
  - apply positioned_bind; [apply positioned_ParseToken|]. intros token.
    apply IH.
Qed.

Lemma positioned_ParsePhrase (fuel : nat) (streamId : Z) :
  positioned (ParsePhrase fuel streamId).
Proof.
  apply positioned_bind; [apply positioned_ExpectDelimeter|]. intros _.
  apply positioned_bind; [apply positioned_ParsePhrase_loop|]. intros grams.
  apply positioned_ret.
Qed.

Lemma positioned_ParseTerm (fuel : nat) : positioned (ParseTerm fuel).
Proof.
  unfold ParseTerm.
  apply positioned_bind; [apply positioned_SkipWhite|]. intros _.
  apply positioned_bind; [apply positioned_PeekChar|]. intros c.
  apply positioned_if; [apply positioned_ParsePhrase|].
  apply positioned_bind; [apply positioned_ParseToken|]. intros left.
  apply positioned_bind; [apply positioned_PeekChar|]. intros c'.
  apply positioned_if; [|apply positioned_ret].
  apply positioned_bind; [apply positioned_GetChar|]. intros _.
  apply positioned_bind; [apply positioned_PeekChar|]. intros c''.
  apply positioned_if; [apply positioned_ParsePhrase|].
  apply positioned_bind; [apply positioned_ParseToken|]. intros right.
  apply positioned_ret.
Qed.

Lemma positioned_productions (fuel : nat) :
  positioned (ParseOr fuel) /\
  (forall children, positioned (ParseOr_loop fuel children)) /\
  positioned (ParseAnd fuel) /\
  (forall children, positioned (ParseAnd_loop fuel children)) /\
  positioned (ParseSimple fuel).
Proof.
  induction fuel as [|fuel (IHor & IHorl & IHand & IHandl & IHsimple)].
  - repeat split; intros; apply positioned_out_of_fuel.
  - split; [|split; [|split; [|split]]].
    + cbn [ParseOr].
      apply positioned_bind; [exact IHand|]. intros left. apply IHorl.
    + intros children. cbn [ParseOr_loop].
      apply positioned_bind; [apply positioned_SkipWhite|]. intros _.
      apply positioned_bind; [apply positioned_PeekChar|]. intros c.
      apply positioned_if; [apply positioned_ret|].
      apply positioned_bind; [apply positioned_GetChar|]. intros _.
      apply positioned_bind; [exact IHand|]. intros child. apply IHorl.
    + cbn [ParseAnd].
      apply positioned_bind; [exact IHsimple|]. intros left. apply IHandl.
    + intros children. cbn [ParseAnd_loop].
      apply positioned_bind; [apply positioned_SkipWhite|]. intros _.
      apply positioned_bind; [apply positioned_PeekChar|]. intros c.
      apply positioned_if; [|apply positioned_if; [|apply positioned_ret]].
      * apply positioned_bind; [apply positioned_GetChar|]. intros _.
        apply positioned_bind; [exact IHsimple|]. intros child.
        apply IHandl.
      * apply positioned_bind; [exact IHsimple|]. intros child.
        apply IHandl.
    + cbn [ParseSimple].
      apply positioned_bind; [apply positioned_SkipWhite|]. intros _.
      apply positioned_bind; [apply positioned_PeekChar|]. intros c.
      apply positioned_if; [|apply positioned_if].
      * apply positioned_bind; [apply positioned_GetChar|]. intros _.
        apply positioned_bind; [apply positioned_SkipWhite|]. intros _.
        apply positioned_bind; [exact IHsimple|]. intros simpleNode.
        apply positioned_ret.
      * apply positioned_bind; [apply positioned_GetChar|]. intros _.
        apply positioned_bind; [exact IHor|]. intros orNode.
        apply positioned_bind; [apply positioned_SkipWhite|]. intros _.
        apply positioned_bind; [apply positioned_ExpectDelimeter|].
        intros _. apply positioned_ret.
      * apply positioned_ParseTerm.
Qed.

(** Every exception of [Parse] is a ParseError, and every ParseError
    other than the one of a bad escape carries the position the parser
    stopped at. *)
Lemma Parse_errors_positioned (fuel : nat) (s : QueryParser.t) (e : Exn)
    (s' : QueryParser.t) :
  Parse fuel s = Some (Thrown e, s') ->
  exists message position,
    e = ParseError message position /\
    (message = "Bad escape char"%string \/
     position = m_currentPosition s').
Proof.
  intros H.
  exact (proj1 (positioned_productions fuel) s (Thrown e) s' H).
Qed.

End ParserErrors.

(** C8 at the input of two characters, a backslash and the letter a: the
    parser stops at offset 1, and the ParseError of the bad escape carries
    97, the code of the escaped character, where every other ParseError
    carries the offset. *)
Theorem Parse_bad_escape_position :
  exists s',
    QueryParser.Parse 8 (QueryParser.init (QueryParser.chars "\a"))
    = Some (Thrown (ParseError "Bad escape char" 97), s') /\
    QueryParser.m_currentPosition s' = 1.
Proof. eexists. split; vm_compute; reflexivity. Qed.

(** * Further properties of the code *)

(** ** Slice: any sequence of calls *)

Section SliceRuns.

Import Slice.

Variables (capacity refCount buffer : Z).
Hypothesis capacity_fits : 0 <= capacity < c_sizeModulus.

Let slice (unallocated commitPending expired : Z) : Slice.t :=
  Slice.mk capacity refCount buffer unallocated commitPending expired.

(** What one call does to a Slice whose counters are within bounds. *)
Lemma run_op_cases op u p e d :
  0 <= u -> 0 <= p -> 0 <= e -> u + p + e <= capacity ->
  run_op op (slice u p e) d
  = match op with
    | OpTryAllocateDocument =>
        if u =? 0 then (Allocated None, slice u p e, d)
        else (Allocated (Some (capacity - u)), slice (u - 1) (p + 1) e, d)
    | OpCommitDocument =>
        if 0 <? p
        then (Committed (Returned (u + p - 1 =? 0)), slice u (p - 1) e, d + 1)
        else (Committed
                (Thrown (FatalAssert
                           "CommitDocument with m_commitPendingCount == 0")),
              slice u p e, d + 1)
    | OpExpireDocument =>
        if e <? capacity - u - p
        then (Expired (Returned (e + 1 =? capacity)), slice u p (e + 1), d)
        else (Expired
                (Thrown (FatalAssert
                           "Slice expired more documents than committed.")),
              slice u p e, d)
    end.
Proof using capacity_fits.
  intros Hu Hp He Hcap. destruct op; unfold run_op.
  - destruct (Z.eqb_spec u 0) as [->|Hne].
    + reflexivity.
    + unfold slice.
      rewrite (TryAllocateDocument_some capacity refCount buffer capacity_fits)
        by lia.
      reflexivity.
  - destruct (Z.ltb_spec 0 p) as [Hpos|Hzero].
    + unfold slice.
      rewrite (CommitDocument_pending capacity refCount buffer capacity_fits)
        by lia.
      reflexivity.
    + assert (p = 0) as -> by lia. reflexivity.
  - unfold slice.
    rewrite (ExpireDocument_spec capacity refCount buffer capacity_fits)
      by lia.
    destruct (e <? capacity - u - p); reflexivity.
Qed.

(** The state a sequence of calls reaches from counters within bounds. *)
Lemma run_counters (ops : list Op) :
  forall u p e d,
    0 <= u -> 0 <= p -> 0 <= e -> u + p + e <= capacity ->
    exists outcomes u' p' e',
      run ops (slice u p e) d
      = (outcomes, slice u' p' e',
         d + Z.of_nat
               (length (List.filter
                          (fun op => match op with
                                     | OpCommitDocument => true
                                     | _ => false
                                     end)
                          ops))) /\
      0 <= u' <= u /\ 0 <= p' /\ e <= e' /\ u' + p' + e' <= capacity /\
      u' + p' <= u + p /\
      allocated_indexes outcomes = seqZ (capacity - u) (u - u').
Proof using capacity_fits.
  induction ops as [|op ops IH]; intros u p e d Hu Hp He Hcap.
  - exists [], u, p, e. cbn. rewrite Z.add_0_r, Z.sub_diag.
    repeat split; try lia.
  - cbn [run]. rewrite run_op_cases by assumption.
    destruct op.
    + destruct (Z.eqb_spec u 0) as [->|Hne].
      * destruct (IH 0 p e d) as (outs & u' & p' & e' & Hrun & H); try lia.
        rewrite Hrun. exists (Allocated None :: outs), u', p', e'.
        cbn [List.filter]. split; [reflexivity|].
        cbn [allocated_indexes flat_map app]. exact H.
      * destruct (IH (u - 1) (p + 1) e d)
          as (outs & u' & p' & e' & Hrun & H1 & H2 & H3 & H4 & H5 & H6);
          try lia.
        rewrite Hrun.
        exists (Allocated (Some (capacity - u)) :: outs), u', p', e'.
        cbn [List.filter]. split; [reflexivity|].
        repeat split; try lia.
        cbn [allocated_indexes flat_map app].
        fold (allocated_indexes outs). rewrite H6.
        replace (u - u') with (Z.succ (u - 1 - u')) by lia.
        rewrite (seqZ_cons (capacity - u)) by lia.
        f_equal. f_equal; lia.
    + destruct (Z.ltb_spec 0 p) as [Hpos|Hzero].
      * destruct (IH u (p - 1) e (d + 1))
          as (outs & u' & p' & e' & Hrun & H1 & H2 & H3 & H4 & H5 & H6);
          try lia.
        rewrite Hrun. eexists (_ :: outs), u', p', e'.
        cbn [List.filter length]. split; [f_equal; lia|].
        repeat split; try lia. exact H6.
      * destruct (IH u p e (d + 1))
          as (outs & u' & p' & e' & Hrun & H1 & H2 & H3 & H4 & H5 & H6);
          try lia.
        rewrite Hrun. eexists (_ :: outs), u', p', e'.
        cbn [List.filter length]. split; [f_equal; lia|].
        repeat split; try lia. exact H6.
    + destruct (Z.ltb_spec e (capacity - u - p)) as [Hlt|Hge].
      * destruct (IH u p (e + 1) d)
          as (outs & u' & p' & e' & Hrun & H1 & H2 & H3 & H4 & H5 & H6);
          try lia.
        rewrite Hrun. eexists (_ :: outs), u', p', e'.
        cbn [List.filter]. split; [reflexivity|].
        repeat split; try lia. exact H6.
      * destruct (IH u p e d)
          as (outs & u' & p' & e' & Hrun & H1 & H2 & H3 & H4 & H5 & H6);
          try lia.
        rewrite Hrun. eexists (_ :: outs), u', p', e'.
        cbn [List.filter]. split; [reflexivity|].
        repeat split; try lia. exact H6.
Qed.

(** One step of [run], with the call looked at by cases. *)
Ltac run_step H u p e d :=
  cbn [run] in H;
  rewrite run_op_cases in H by assumption;
  match type of H with
  | context [match ?op with OpTryAllocateDocument => _ | _ => _ end] =>
      destruct op
  end;
  [destruct (Z.eqb_spec u 0) as [?|?]
  |destruct (Z.ltb_spec 0 p) as [?|?]
  |destruct (Z.ltb_spec e (capacity - u - p)) as [?|?]];
  match type of H with
  | context [run ?ops ?s ?d0] =>
      destruct (run ops s d0) as [[?outs ?s1] ?d1] eqn:?Hrest
  end;
  inversion H; subst; clear H.

(** Once every DocIndex is committed, no [CommitDocument] returns. *)
Lemma run_full_no_report (ops : list Op) :
  forall e d outcomes s' d',
    0 <= e <= capacity ->
    run ops (slice 0 0 e) d = (outcomes, s', d') ->
    List.filter reported_full outcomes = [].
Proof using capacity_fits.
  induction ops as [|op ops IH]; intros e d outcomes s' d' He H.
  - inversion H. reflexivity.
  - assert (H0 : 0 <= 0) by lia.
    assert (He0 : 0 <= e) by lia.
    assert (Hcap : 0 + 0 + e <= capacity) by lia.
    run_step H 0 0 e d; cbn [List.filter reported_full]; try lia;
      (eapply IH; [|eassumption]; lia).
Qed.

Lemma run_one_full_report (ops : list Op) :
  forall u p e d outcomes s' d',
    0 <= u -> 0 <= p -> 0 <= e -> u + p + e <= capacity ->
    run ops (slice u p e) d = (outcomes, s', d') ->
    (length (List.filter reported_full outcomes) <= 1)%nat.
Proof using capacity_fits.
  induction ops as [|op ops IH]; intros u p e d outcomes s' d' Hu Hp He Hcap H.
  - inversion H. cbn. lia.
  - run_step H u p e d; cbn [List.filter reported_full].
    1,2,4,5,6: eapply IH; [| | | |eassumption]; lia.
    destruct (Z.eqb_spec (u + p - 1) 0) as [Hfull|_].
    + assert (u = 0) as -> by lia. assert (p - 1 = 0) as Hp1 by lia.
      rewrite Hp1 in Hrest.
      rewrite (run_full_no_report ops e _ _ _ _ ltac:(lia) Hrest).
      cbn. lia.
    + eapply IH; [| | | |eassumption]; lia.
Qed.

(** Once every DocIndex is expired, no [ExpireDocument] returns. *)
Lemma run_expired_no_report (ops : list Op) :
  forall d outcomes s' d',
    run ops (slice 0 0 capacity) d = (outcomes, s', d') ->
    List.filter reported_expired outcomes = [].
Proof using capacity_fits.
  induction ops as [|op ops IH]; intros d outcomes s' d' H.
  - inversion H. reflexivity.
  - assert (H0 : 0 <= 0) by lia.
    assert (He0 : 0 <= capacity) by lia.
    assert (Hcap : 0 + 0 + capacity <= capacity) by lia.
    run_step H 0 0 capacity d; cbn [List.filter reported_expired]; try lia;
      (eapply IH; eassumption).
Qed.

Lemma run_one_expired_report (ops : list Op) :
  forall u p e d outcomes s' d',
    0 <= u -> 0 <= p -> 0 <= e -> u + p + e <= capacity ->
    run ops (slice u p e) d = (outcomes, s', d') ->
    (length (List.filter reported_expired outcomes) <= 1)%nat.
Proof using capacity_fits.
  induction ops as [|op ops IH]; intros u p e d outcomes s' d' Hu Hp He Hcap H.
  - inversion H. cbn. lia.
  - run_step H u p e d; cbn [List.filter reported_expired].
    1,2,3,4,6: eapply IH; [| | | |eassumption]; lia.
    destruct (Z.eqb_spec (e + 1) capacity) as [Hexpired|_].
    + assert (u = 0) as -> by lia. assert (p = 0) as -> by lia.
      rewrite Hexpired in Hrest.
      rewrite (run_expired_no_report ops _ _ _ _ Hrest).
      cbn. lia.
    + eapply IH; [| | | |eassumption]; lia.
Qed.

(** While a DocIndex is unallocated or waiting for its commit, an
    [ExpireDocument] that returns [true] comes after a [CommitDocument]
    that returned [true]. *)
Lemma run_full_before_expired (ops : list Op) :
  forall u p e d before after s' d',
    0 <= u -> 0 <= p -> 0 <= e -> u + p + e <= capacity -> 0 < u + p ->
    run ops (slice u p e) d
    = (before ++ Expired (Returned true) :: after, s', d') ->
    In (Committed (Returned true)) before.
Proof using capacity_fits.
  induction ops as [|op ops IH];
    intros u p e d before after s' d' Hu Hp He Hcap Hopen H.
  - inversion H. destruct before; discriminate.
  - run_step H u p e d.
    all: match goal with
         | Heq : _ :: _ = ?l ++ _ |- _ =>
             destruct l as [|first l];
             cbn [app] in Heq; inversion Heq; subst; clear Heq
         end.
    all: try (right; eapply IH; [| | | | |eassumption]; lia).
    + destruct (Z.eqb_spec (u + p - 1) 0) as [Hfull|Hnot].
      * left. reflexivity.
      * right. eapply IH; [| | | | |eassumption]; lia.
    + destruct (Z.eqb_spec (e + 1) capacity) as [Hexpired|Hnot];
        [lia|discriminate].
Qed.

End SliceRuns.

(** X1. However the calls of [TryAllocateDocument], [CommitDocument] and
    [ExpireDocument] on a new Slice are interleaved, and whatever each of
    them returns, the counters of the Slice stay ordered: no more
    documents are expired than committed, no more committed than
    allocated, no more allocated than the capacity. The capacity, the
    buffer and the reference count are left alone, and every call of
    [CommitDocument], a failing one included, was counted as a document
    entered ([TemporaryRecordDocument] comes before the assertion). *)
Theorem Slice_run_keeps_counters_ordered
    (capacity buffer d : Z) (ops : list Slice.Op) :
  0 <= capacity < c_sizeModulus ->
  exists outcomes s d',
    Slice.run ops (Slice.init capacity buffer) d = (outcomes, s, d') /\
    Slice.m_capacity s = capacity /\
    Slice.m_buffer s = buffer /\
    Slice.m_refCount s = 1 /\
    0 <= Slice.m_unallocatedCount s /\
    0 <= Slice.m_commitPendingCount s /\
    0 <= Slice.m_expiredCount s
      <= capacity - Slice.m_unallocatedCount s - Slice.m_commitPendingCount s /\
    d' = d + Z.of_nat
               (length (List.filter
                          (fun op => match op with
                                     | Slice.OpCommitDocument => true
                                     | _ => false
                                     end)
                          ops)).
Proof.
  intros Hcap.
  destruct (run_counters capacity 1 buffer Hcap ops capacity 0 0 d)
    as (outcomes & u & p & e & Hrun & Hu & Hp & He & Hsum & _ & _); try lia.
  eexists outcomes, (Slice.mk capacity 1 buffer u p e), _.
  split; [exact Hrun|]. cbn. repeat split; lia.
Qed.

(** A Slice of two documents: a commit with nothing allocated, then an
    allocation, its commit and its expiry. *)
Lemma Slice_run_keeps_counters_ordered_2 :
  exists outcomes s d',
    Slice.run [Slice.OpCommitDocument; Slice.OpTryAllocateDocument;
               Slice.OpCommitDocument; Slice.OpExpireDocument]
              (Slice.init 2 4096) 0
    = (outcomes, s, d') /\
    Slice.m_expiredCount s
    <= 2 - Slice.m_unallocatedCount s - Slice.m_commitPendingCount s /\
    d' = 2.
Proof.
  destruct (Slice_run_keeps_counters_ordered
              2 4096 0
              [Slice.OpCommitDocument; Slice.OpTryAllocateDocument;
               Slice.OpCommitDocument; Slice.OpExpireDocument])
    as (outcomes & s & d' & Hrun & _ & _ & _ & _ & _ & Hordered & Hd).
  - split; [discriminate|reflexivity].
  - exists outcomes, s, d'. split; [exact Hrun|].
    split; [apply Hordered|exact Hd].
Defined.

(** X2. A Slice whose documents are all expired is final: with counters
    within bounds and [IsExpired()] true, [TryAllocateDocument] returns
    false, [CommitDocument] and [ExpireDocument] fail their assertion, and
    none of them changes the Slice. *)
Theorem Slice_expired_is_final (s : Slice.t) (d : Z) :
  Slice.wf s ->
  Slice.IsExpired s = true ->
  Slice.TryAllocateDocument s = (None, s) /\
  Slice.CommitDocument s d
  = (Thrown (FatalAssert "CommitDocument with m_commitPendingCount == 0"),
     s, d + 1) /\
  Slice.ExpireDocument s
  = (Thrown (FatalAssert "Slice expired more documents than committed."), s).
Proof.
  destruct s as [cap rc buf u p e].
  unfold Slice.wf, Slice.IsExpired. cbn.
  intros (Hu & Hp & He & Hsum & Hcap) Hexpired.
  apply Z.eqb_eq in Hexpired. subst e.
  assert (u = 0) as -> by lia. assert (p = 0) as -> by lia.
  assert (Hfit : 0 <= cap < c_sizeModulus) by lia.
  split; [reflexivity|]. split; [reflexivity|].
  rewrite (ExpireDocument_spec cap rc buf Hfit) by lia.
  destruct (Z.ltb_spec cap (cap - 0 - 0)); [lia|reflexivity].
Qed.

(** A Slice of 16 documents, all of them expired. *)
Lemma Slice_expired_is_final_16 :
  Slice.TryAllocateDocument (Slice.mk 16 1 4096 0 0 16)
  = (None, Slice.mk 16 1 4096 0 0 16).
Proof.
  refine (proj1 (Slice_expired_is_final (Slice.mk 16 1 4096 0 0 16) 0 _ _)).
  - unfold Slice.wf. cbn. repeat split; try discriminate.
  - reflexivity.
Defined.

(** X3. In any sequence of calls on a new Slice, [CommitDocument] returns
    true (the slice is full) at most once, [ExpireDocument] returns true
    (the slice is expired) at most once, and the second never comes
    before the first. *)
Theorem Slice_reports_full_then_expired
    (capacity buffer d : Z) (ops : list Slice.Op)
    (outcomes : list Slice.Outcome) (s : Slice.t) (d' : Z) :
  0 <= capacity < c_sizeModulus ->
  Slice.run ops (Slice.init capacity buffer) d = (outcomes, s, d') ->
  (length (List.filter Slice.reported_full outcomes) <= 1)%nat /\
  (length (List.filter Slice.reported_expired outcomes) <= 1)%nat /\
  forall before after,
    outcomes = before ++ Slice.Expired (Returned true) :: after ->
    In (Slice.Committed (Returned true)) before.
Proof.
  intros Hcap Hrun. unfold Slice.init in Hrun.
  split; [|split].
  - eapply (run_one_full_report capacity 1 buffer Hcap);
      [| | | |exact Hrun]; lia.
  - eapply (run_one_expired_report capacity 1 buffer Hcap);
      [| | | |exact Hrun]; lia.
  - intros before after ->.
    destruct (Z.eq_dec capacity 0) as [->|Hpos].
    + pose proof (run_expired_no_report 0 1 buffer Hcap ops _ _ _ _ Hrun)
        as Hnone.
      rewrite List.filter_app in Hnone. cbn in Hnone.
      destruct (List.filter Slice.reported_expired before); discriminate.
    + eapply (run_full_before_expired capacity 1 buffer Hcap);
        [| | | | |exact Hrun]; lia.
Qed.

(** A Slice of one document, allocated, committed and expired, with a
    second round of calls after that. *)
Lemma Slice_reports_full_then_expired_1 :
  (length
     (List.filter
        Slice.reported_expired
        (fst (fst (Slice.run
                     [Slice.OpTryAllocateDocument; Slice.OpCommitDocument;
                      Slice.OpExpireDocument; Slice.OpTryAllocateDocument;
                      Slice.OpCommitDocument; Slice.OpExpireDocument]
                     (Slice.init 1 4096) 0))))
   <= 1)%nat.
Proof.
  refine (proj1 (proj2 (Slice_reports_full_then_expired
                          1 4096 0
                          [Slice.OpTryAllocateDocument; Slice.OpCommitDocument;
                           Slice.OpExpireDocument; Slice.OpTryAllocateDocument;
                           Slice.OpCommitDocument; Slice.OpExpireDocument]
                          _ _ _ _ _))).
  - split; [discriminate|reflexivity].
  - reflexivity.
Defined.

(** X4. In any sequence of calls on a new Slice, the DocIndexes that
    [TryAllocateDocument] hands out are 0, 1, 2, ... in the order of the
    successful calls, whatever commits and expiries come in between: no
    DocIndex is handed out twice, and each is below the capacity. *)
Theorem Slice_indexes_handed_out_once
    (capacity buffer d : Z) (ops : list Slice.Op) :
  0 <= capacity < c_sizeModulus ->
  exists outcomes s d',
    Slice.run ops (Slice.init capacity buffer) d = (outcomes, s, d') /\
    Slice.allocated_indexes outcomes
    = seqZ 0 (capacity - Slice.m_unallocatedCount s) /\
    NoDup (Slice.allocated_indexes outcomes) /\
    Forall (fun index => 0 <= index < capacity)
           (Slice.allocated_indexes outcomes).
Proof.
  intros Hcap.
  destruct (run_counters capacity 1 buffer Hcap ops capacity 0 0 d)
    as (outcomes & u & p & e & Hrun & Hu & Hp & He & Hsum & _ & Hindexes);
    try lia.
  eexists outcomes, (Slice.mk capacity 1 buffer u p e), _.
  split; [exact Hrun|]. cbn [Slice.m_unallocatedCount].
  rewrite Z.sub_diag in Hindexes. rewrite Hindexes.
  split; [reflexivity|]. split; [apply NoDup_seqZ|].
  apply Forall_seqZ. intros index Hindex. lia.
Qed.

(** A Slice of two documents with three attempts to allocate, a commit
    and an expiry in between. *)
Lemma Slice_indexes_handed_out_once_2 :
  exists outcomes s d',
    Slice.run [Slice.OpTryAllocateDocument; Slice.OpCommitDocument;
               Slice.OpExpireDocument; Slice.OpTryAllocateDocument;
               Slice.OpTryAllocateDocument]
              (Slice.init 2 4096) 0
    = (outcomes, s, d') /\
    NoDup (Slice.allocated_indexes outcomes).
Proof.
  destruct (Slice_indexes_handed_out_once
              2 4096 0
              [Slice.OpTryAllocateDocument; Slice.OpCommitDocument;
               Slice.OpExpireDocument; Slice.OpTryAllocateDocument;
               Slice.OpTryAllocateDocument])
    as (outcomes & s & d' & Hrun & _ & Hnodup & _).
  - split; [discriminate|reflexivity].
  - exists outcomes, s, d'. split; [exact Hrun|exact Hnodup].
Defined.

(** ** Slice and Shard: reference counts and recycling *)

Lemma set_slice_set_slice h address s1 s2 :
  Shard.set_slice (Shard.set_slice h address s1) address s2
  = Shard.set_slice h address s2.
Proof. unfold Shard.set_slice. cbn. rewrite insert_insert_eq. reflexivity. Qed.

Lemma set_slice_id h address s :
  slices h !! address = Some s -> Shard.set_slice h address s = h.
Proof.
  intros Hs. destruct h as [ss bs rs]. unfold Shard.set_slice. cbn in *.
  rewrite insert_id by exact Hs. reflexivity.
Qed.

Lemma slices_set_slice h address s :
  slices (Shard.set_slice h address s) !! address = Some s.
Proof. cbn. apply lookup_insert_eq. Qed.

(** [RecycleSlice] on an expired Slice whose buffer is published once. *)
Lemma RecycleSlice_listed_once slice s sh h before after :
  slices h !! slice = Some s ->
  Slice.IsExpired s = true ->
  Shard.m_sliceBuffers sh = before ++ Slice.GetSliceBuffer s :: after ->
  Slice.GetSliceBuffer s ∉ before ->
  Slice.GetSliceBuffer s ∉ after ->
  Z.of_nat (length (Shard.m_sliceBuffers sh)) <= Shard.c_vectorMaxSize ->
  Shard.RecycleSlice slice sh h
  = Some (Returned tt,
          Shard.set_slices sh
            (if decide (Shard.m_activeSlice sh = Some slice) then None
             else Shard.m_activeSlice sh)
            (before ++ after),
          Shard.ScheduleRecyling h
            (DeferredSliceListDelete (Some slice) (Shard.m_sliceBuffers sh))).
Proof.
  intros Hslice Hexpired Hlist Hbefore Hafter Hlen.
  assert (Hmax : Shard.c_vectorMaxSize < c_sizeModulus - 1) by reflexivity.
  unfold Shard.RecycleSlice. rewrite Hslice, Hexpired. cbn [negb].
  rewrite Hlist in *. rewrite filter_remove_once by assumption.
  rewrite !length_app in *. cbn [length] in *.
  rewrite (wrap_small (_ - 1)) by lia.
  destruct (Z.gtb_spec (Z.of_nat (length before + S (length after)) - 1)
                       Shard.c_vectorMaxSize); [lia|].
  rewrite wrap_small by lia.
  destruct (Z.eqb_spec (Z.of_nat (length before + S (length after)))
                       (Z.of_nat (length before + length after) + 1));
    [reflexivity|lia].
Qed.

(** [RecycleSlice] on a Slice whose buffer is not published. *)
Lemma RecycleSlice_unlisted slice s sh h :
  slices h !! slice = Some s ->
  Slice.GetSliceBuffer s ∉ Shard.m_sliceBuffers sh ->
  Z.of_nat (length (Shard.m_sliceBuffers sh)) <= Shard.c_vectorMaxSize ->
  exists e, Shard.RecycleSlice slice sh h = Some (Thrown e, sh, h).
Proof.
  intros Hslice Hnot Hlen.
  assert (Hmax : Shard.c_vectorMaxSize < c_sizeModulus - 1) by reflexivity.
  unfold Shard.RecycleSlice. rewrite Hslice.
  destruct (negb (Slice.IsExpired s)); [eexists; reflexivity|].
  destruct (_ >? Shard.c_vectorMaxSize); [eexists; reflexivity|].
  rewrite filter_all_differ by exact Hnot.
  rewrite wrap_small by lia.
  match goal with
  | |- context [negb (?a =? ?b)] =>
      destruct (Z.eqb_spec a b) as [Heq|_]; [lia|]
  end.
  eexists. reflexivity.
Qed.

(** X5. A reference taken with [IncrementRefCount] and dropped with
    [DecrementRefCount] leaves the Slice, the shard and the recycler as
    they were: the Slice is not recycled while another reference is
    held. *)
Theorem RefCount_round_trip
    (slice : Z) (s : Slice.t) (sh : Shard.t) (h : Heap) :
  slices h !! slice = Some s ->
  1 <= Slice.m_refCount s < 2 ^ 32 ->
  Shard.DecrementRefCount
    slice sh (Shard.set_slice h slice (Slice.IncrementRefCount s))
  = Some (Returned tt, sh, h).
Proof.
  intros Hs Hrc. unfold Shard.DecrementRefCount.
  rewrite slices_set_slice, set_slice_set_slice.
  destruct s as [cap rc buf u p e].
  unfold Slice.IncrementRefCount, Slice.set_refCount. cbn in *.
  replace (rc + 1 - 1) with rc by lia.
  rewrite Z.mod_small by lia.
  destruct (Z.eqb_spec rc 0); [lia|].
  rewrite set_slice_id by exact Hs. reflexivity.
Qed.

(** The first Slice of the shard of [SingleShard], held once. *)
Lemma RefCount_round_trip_first :
  let s := Slice.init 64 1048576 in
  let h := Shard.set_slice SingleShard.heap 4096 s in
  Shard.DecrementRefCount
    4096 SingleShard.shard
    (Shard.set_slice h 4096 (Slice.IncrementRefCount s))
  = Some (Returned tt, SingleShard.shard, h).
Proof.
  intros s h. apply (RefCount_round_trip 4096 s SingleShard.shard h).
  - apply slices_set_slice.
  - split; [discriminate|reflexivity].
Defined.

(** X6. [DecrementRefCount] on the last reference of a Slice that is not
    fully expired throws the RecoverableError of [RecycleSlice] after the
    count was decremented: the shard and the recycler are as they were,
    the Slice is still published and its count is 0. The count is not
    restored, and a further [DecrementRefCount] on that Slice returns
    without recycling it. *)
Theorem DecrementRefCount_unexpired
    (slice : Z) (s : Slice.t) (sh : Shard.t) (h : Heap) :
  slices h !! slice = Some s ->
  Slice.m_refCount s = 1 ->
  Slice.IsExpired s = false ->
  let h0 := Shard.set_slice h slice (Slice.set_refCount s 0) in
  Shard.DecrementRefCount slice sh h
  = Some (Thrown (RecoverableError
                    "Slice being recycled has not been fully expired"),
          sh, h0) /\
  exists h1,
    Shard.DecrementRefCount slice sh h0 = Some (Returned tt, sh, h1) /\
    recycler h1 = recycler h.
Proof.
  intros Hs Hrc Hexpired h0. split.
  - unfold Shard.DecrementRefCount. rewrite Hs, Hrc.
    change ((1 - 1) mod 2 ^ 32) with 0. cbn [Z.eqb].
    unfold Shard.RecycleSlice. fold h0.
    unfold h0 at 1. rewrite slices_set_slice.
    replace (Slice.IsExpired (Slice.set_refCount s 0)) with false
      by (destruct s; exact (eq_sym Hexpired)).
    reflexivity.
  - unfold Shard.DecrementRefCount, h0.
    rewrite slices_set_slice.
    cbn [Slice.m_refCount Slice.set_refCount].
    change ((0 - 1) mod 2 ^ 32 =? 0) with false. cbn iota.
    eexists. split; [reflexivity|]. reflexivity.
Qed.

(** The first Slice of the shard of [SingleShard], with no document
    expired. *)
Lemma DecrementRefCount_unexpired_first :
  let s := Slice.init 64 1048576 in
  let h := Shard.set_slice SingleShard.heap 4096 s in
  Shard.DecrementRefCount 4096 SingleShard.shard h
  = Some (Thrown (RecoverableError
                    "Slice being recycled has not been fully expired"),
          SingleShard.shard,
          Shard.set_slice h 4096 (Slice.set_refCount s 0)).
Proof.
  intros s h.
  refine (proj1 (DecrementRefCount_unexpired 4096 s SingleShard.shard h
                   _ _ _)).
  - apply slices_set_slice.
  - reflexivity.
  - reflexivity.
Defined.

(** ** Shard: the life of a Slice *)

(** [AllocateDocument] on a path that creates a Slice: what it returns and
    the heap it leaves. *)
Lemma AllocateDocument_from_new_slice_returns env id sh h :
  0 < Shard.m_sliceCapacity sh < c_sizeModulus ->
  Z.of_nat (length (Shard.m_rowTables sh)) = c_maxRankValue + 1 ->
  exists content,
    Shard.AllocateDocument_from_new_slice env id sh h
    = Some (Returned (DocumentHandleInternal.mk (newSlice env) 0 id),
            Shard.set_slices sh (Some (newSlice env))
                             (Shard.m_sliceBuffers sh ++ [newBuffer env]),
            {| slices :=
                 <[newSlice env :=
                     Slice.mk (Shard.m_sliceCapacity sh) 1 (newBuffer env)
                              (Shard.m_sliceCapacity sh - 1) 1 0]>
                   (slices h);
               buffers := <[newBuffer env := content]> (buffers h);
               recycler :=
                 recycler h
                 ++ [DeferredSliceListDelete None (Shard.m_sliceBuffers sh)]
            |}).
Proof.
  intros Hcap Hcount.
  assert (Hfit : 0 <= Shard.m_sliceCapacity sh < c_sizeModulus) by lia.
  unfold Shard.AllocateDocument_from_new_slice.
  destruct (CreateNewActiveSlice_returns env sh h Hcount) as [content ->].
  exists content.
  cbn [Shard.m_activeSlice Shard.set_slices].
  unfold Shard.TryAllocateDocument_at.
  cbn [slices Shard.ScheduleRecyling Shard.set_slice].
  rewrite lookup_insert_eq. unfold Slice.init.
  rewrite (TryAllocateDocument_some _ 1 (newBuffer env) Hfit) by lia.
  rewrite Z.sub_diag. unfold Shard.set_slice, Shard.set_buffer. cbn.
  rewrite insert_insert_eq. reflexivity.
Qed.

Section FillUpAndExpire.

Variables (env : Heap -> Fresh) (id : Z).
Variables (capacity refCount buffer a : Z).
Hypothesis capacity_fits : 0 <= capacity < c_sizeModulus.

(** The iterations of [FillUpAndExpireSlice] after the first one: the
    active slice holds [i] documents, all of them expired. *)
Lemma FillUpAndExpireSlice_loop_fills (count : nat) :
  forall i sh h builder,
    1 <= i -> i + Z.of_nat count = capacity ->
    Shard.m_activeSlice sh = Some a ->
    Shard.m_docFrequencyTableBuilder sh = Some builder ->
    slices h !! a
    = Some (Slice.mk capacity refCount buffer (capacity - i) 0 i) ->
    exists sh' h',
      SliceUnitTest.FillUpAndExpireSlice_loop count i (Some a) true env id
                                              sh h
      = Some (Returned (Some a, true), sh', h') /\
      Shard.m_activeSlice sh' = Some a /\
      Shard.m_sliceBuffers sh' = Shard.m_sliceBuffers sh /\
      slices h' !! a = Some (Slice.mk capacity refCount buffer 0 0 capacity) /\
      recycler h' = recycler h.
Proof using capacity_fits.
  induction count as [|count IH]; intros i sh h builder Hi Hleft Hactive
    Hbuilder Hslice.
  - exists sh, h. cbn.
    replace (capacity - i) with 0 in Hslice by lia.
    replace i with capacity in Hslice by lia.
    repeat split; assumption.
  - cbn [SliceUnitTest.FillUpAndExpireSlice_loop].
    unfold Shard.AllocateDocument. rewrite Hactive.
    unfold Shard.TryAllocateDocument_at. rewrite Hslice.
    rewrite (TryAllocateDocument_some capacity refCount buffer capacity_fits)
      by lia.
    cbn [DocumentHandleInternal.m_slice].
    destruct (Z.eqb_spec i 0) as [|_]; [lia|].
    rewrite bool_decide_eq_true_2 by reflexivity. cbn [andb].
    unfold Shard.CommitDocument_at.
    rewrite slices_set_slice, Hbuilder.
    rewrite (CommitDocument_pending capacity refCount buffer capacity_fits)
      by lia.
    unfold Shard.ExpireDocument_at.
    rewrite slices_set_slice.
    rewrite (ExpireDocument_spec capacity refCount buffer capacity_fits)
      by lia.
    destruct (Z.ltb_spec i (capacity - (capacity - i - 1) - (0 + 1 - 1)))
      as [_|Hge]; [|lia].
    rewrite (wrap_small (i + 1)) by lia.
    rewrite !set_slice_set_slice.
    match goal with
    | |- context [SliceUnitTest.FillUpAndExpireSlice_loop
                    count (i + 1) (Some a) true env id ?sh1 ?h1] =>
        destruct (IH (i + 1) sh1 h1
                     (DocumentFrequencyTableBuilder.mk
                        (DocumentFrequencyTableBuilder.m_terms builder)
                        (DocumentFrequencyTableBuilder.m_documents builder
                         + 1)))
          as (sh' & h' & Hrun & H1 & H2 & H3 & H4)
    end.
    + lia.
    + lia.
    + exact Hactive.
    + reflexivity.
    + rewrite slices_set_slice. do 2 f_equal; lia.
    + exists sh', h'. split; [exact Hrun|].
      repeat split; assumption.
Qed.

End FillUpAndExpire.

(** X7. The scenario of RefCountTest, for any capacity. On a shard with
    no active slice, [FillUpAndExpireSlice(shard, capacity)] creates one
    Slice, takes every document from it (all its expectations hold) and
    leaves it fully expired, published and active, with one reference;
    [DecrementRefCount] on that Slice then recycles it: the list of
    buffers is the one before the test, there is no active slice, and the
    recycler has been given the old list of buffers, then the Slice with
    the list that held its buffer. *)
Theorem FillUpAndExpireSlice_then_DecrementRefCount
    (env : Heap -> Fresh) (id : Z) (sh : Shard.t) (h : Heap) :
  let capacity := Shard.m_sliceCapacity sh in
  let slice := newSlice (env h) in
  let buffer := newBuffer (env h) in
  0 < capacity < c_sizeModulus ->
  Z.of_nat (length (Shard.m_rowTables sh)) = c_maxRankValue + 1 ->
  Shard.m_activeSlice sh = None ->
  is_Some (Shard.m_docFrequencyTableBuilder sh) ->
  buffer ∉ Shard.m_sliceBuffers sh ->
  Z.of_nat (length (Shard.m_sliceBuffers sh)) < Shard.c_vectorMaxSize ->
  exists sh1 h1 s sh2 h2,
    SliceUnitTest.FillUpAndExpireSlice env id capacity sh h
    = Some (Returned (Some slice, true), sh1, h1) /\
    Shard.m_activeSlice sh1 = Some slice /\
    Shard.m_sliceBuffers sh1 = Shard.m_sliceBuffers sh ++ [buffer] /\
    slices h1 !! slice = Some s /\
    Slice.IsExpired s = true /\
    Slice.GetSliceBuffer s = buffer /\
    Slice.m_refCount s = 1 /\
    Shard.DecrementRefCount slice sh1 h1 = Some (Returned tt, sh2, h2) /\
    Shard.m_activeSlice sh2 = None /\
    Shard.m_sliceBuffers sh2 = Shard.m_sliceBuffers sh /\
    recycler h2
    = recycler h
      ++ [DeferredSliceListDelete None (Shard.m_sliceBuffers sh);
          DeferredSliceListDelete (Some slice)
                                  (Shard.m_sliceBuffers sh ++ [buffer])].
Proof.
  intros capacity slice buffer Hcap Hcount Hactive [builder Hbuilder]
    Hfresh Hlen.
  assert (Hfit : 0 <= capacity < c_sizeModulus) by lia.
  unfold SliceUnitTest.FillUpAndExpireSlice.
  destruct (Z.to_nat capacity) as [|count] eqn:Hiterations; [lia|].
  cbn [SliceUnitTest.FillUpAndExpireSlice_loop].
  unfold Shard.AllocateDocument. rewrite Hactive.
  destruct (AllocateDocument_from_new_slice_returns (env h) id sh h Hcap Hcount)
    as [content ->].
  fold capacity slice buffer.
  cbn [DocumentHandleInternal.m_slice Z.eqb andb].
  rewrite bool_decide_eq_true_2 by reflexivity. cbn [andb].
  unfold Shard.CommitDocument_at.
  cbn [slices Shard.m_docFrequencyTableBuilder Shard.set_slices].
  rewrite lookup_insert_eq, Hbuilder.
  rewrite (CommitDocument_pending capacity 1 buffer Hfit) by lia.
  unfold Shard.ExpireDocument_at. rewrite slices_set_slice.
  rewrite (ExpireDocument_spec capacity 1 buffer Hfit) by lia.
  destruct (Z.ltb_spec 0 (capacity - (capacity - 1) - (1 - 1)))
    as [_|Hge]; [|lia].
  change (wrap (0 + 1)) with 1.
  rewrite set_slice_set_slice.
  match goal with
  | |- context [SliceUnitTest.FillUpAndExpireSlice_loop
                  count 1 (Some slice) true env id ?sh1 ?h1] =>
      destruct (FillUpAndExpireSlice_loop_fills
                  env id capacity 1 buffer slice Hfit count 1 sh1 h1
                  (DocumentFrequencyTableBuilder.mk
                     (DocumentFrequencyTableBuilder.m_terms builder)
                     (DocumentFrequencyTableBuilder.m_documents builder + 1)))
        as (sh' & h' & Hrun & Hactive' & Hbuffers & Hslice & Hrecycler)
  end.
  - lia.
  - lia.
  - reflexivity.
  - reflexivity.
  - rewrite slices_set_slice. do 2 f_equal; lia.
  - cbn [Shard.m_sliceBuffers Shard.set_builder Shard.set_slices] in Hbuffers.
    cbn [recycler Shard.set_slice] in Hrecycler.
    set (s := Slice.mk capacity 1 buffer 0 0 capacity) in *.
    assert (Hrecycle :
              Shard.RecycleSlice
                slice sh' (Shard.set_slice h' slice (Slice.set_refCount s 0))
              = Some (Returned tt,
                      Shard.set_slices
                        sh'
                        (if decide (Shard.m_activeSlice sh' = Some slice)
                         then None else Shard.m_activeSlice sh')
                        (Shard.m_sliceBuffers sh ++ []),
                      Shard.ScheduleRecyling
                        (Shard.set_slice h' slice (Slice.set_refCount s 0))
                        (DeferredSliceListDelete
                           (Some slice) (Shard.m_sliceBuffers sh')))).
    { apply (RecycleSlice_listed_once
               slice (Slice.set_refCount s 0) sh' _
               (Shard.m_sliceBuffers sh) []).
      - apply slices_set_slice.
      - unfold Slice.IsExpired, s. cbn. apply Z.eqb_refl.
      - exact Hbuffers.
      - exact Hfresh.
      - apply not_elem_of_nil.
      - rewrite Hbuffers, length_app. cbn [length]. lia. }
    eexists sh', h', s, _, _.
    split; [exact Hrun|].
    split; [exact Hactive'|].
    split; [exact Hbuffers|].
    split; [exact Hslice|].
    split; [unfold Slice.IsExpired, s; cbn; apply Z.eqb_refl|].
    split; [reflexivity|]. split; [reflexivity|].
    split.
    { unfold Shard.DecrementRefCount. rewrite Hslice.
      cbn [Slice.m_refCount s].
      change ((1 - 1) mod 2 ^ 32) with 0. cbn [Z.eqb].
      exact Hrecycle. }
    cbn [Shard.m_activeSlice Shard.m_sliceBuffers Shard.set_slices
         recycler Shard.ScheduleRecyling Shard.set_slice].
    split; [rewrite Hactive'; rewrite decide_True by reflexivity;
            reflexivity|].
    split; [apply app_nil_r|].
    rewrite Hrecycler, Hbuffers, <- app_assoc. reflexivity.
Qed.

(** The test on the shard of [SingleShard]: 64 documents. *)
Lemma FillUpAndExpireSlice_then_DecrementRefCount_64 :
  exists sh1 h1 sh2 h2,
    SliceUnitTest.FillUpAndExpireSlice SingleShard.env 7 64
                                       SingleShard.shard SingleShard.heap
    = Some (Returned (Some 4096, true), sh1, h1) /\
    Shard.DecrementRefCount 4096 sh1 h1 = Some (Returned tt, sh2, h2) /\
    Shard.m_sliceBuffers sh2 = [].
Proof.
  destruct (FillUpAndExpireSlice_then_DecrementRefCount
              SingleShard.env 7 SingleShard.shard SingleShard.heap)
    as (sh1 & h1 & s & sh2 & h2 & H1 & _ & _ & _ & _ & _ & _ & H2 & _ & H3
        & _).
  - split; reflexivity.
  - reflexivity.
  - reflexivity.
  - eexists. reflexivity.
  - apply not_elem_of_nil.
  - reflexivity.
  - exists sh1, h1, sh2, h2.
    split; [exact H1|]. split; [exact H2|exact H3].
Defined.

(** X8. Recycling cannot be repeated: after [RecycleSlice] has recycled
    an expired Slice, a second [RecycleSlice] on that Slice throws, and
    publishes and schedules nothing. *)
Theorem RecycleSlice_twice
    (slice : Z) (s : Slice.t) (sh : Shard.t) (h : Heap)
    (before after : list Z) :
  slices h !! slice = Some s ->
  Slice.IsExpired s = true ->
  Shard.m_sliceBuffers sh = before ++ Slice.GetSliceBuffer s :: after ->
  Slice.GetSliceBuffer s ∉ before ->
  Slice.GetSliceBuffer s ∉ after ->
  Z.of_nat (length (Shard.m_sliceBuffers sh)) <= Shard.c_vectorMaxSize ->
  exists sh' h' e,
    Shard.RecycleSlice slice sh h = Some (Returned tt, sh', h') /\
    Shard.RecycleSlice slice sh' h' = Some (Thrown e, sh', h').
Proof.
  intros Hslice Hexpired Hlist Hbefore Hafter Hlen.
  rewrite (RecycleSlice_listed_once slice s sh h before after)
    by assumption.
  match goal with
  | |- context [Some (Returned tt, ?sh1, ?h1)] =>
      destruct (RecycleSlice_unlisted slice s sh1 h1) as [e He]
  end.
  - exact Hslice.
  - cbn [Shard.m_sliceBuffers Shard.set_slices].
    intros Hin. apply elem_of_app in Hin as [Hin|Hin]; contradiction.
  - cbn [Shard.m_sliceBuffers Shard.set_slices].
    rewrite Hlist, !length_app in *. cbn [length] in Hlen. lia.
  - eexists _, _, e. split; [reflexivity|exact He].
Qed.

(** An expired Slice of the shard of [SingleShard], its buffer the second
    of three published ones. *)
Lemma RecycleSlice_twice_listed :
  let s := Slice.mk 64 1 2097152 0 0 64 in
  let sh := Shard.set_slices SingleShard.shard (Some 4160)
                             [1048576; 2097152; 3145728] in
  let h := Shard.set_slice SingleShard.heap 4160 s in
  exists sh' h' e,
    Shard.RecycleSlice 4160 sh h = Some (Returned tt, sh', h') /\
    Shard.RecycleSlice 4160 sh' h' = Some (Thrown e, sh', h').
Proof.
  intros s sh h.
  apply (RecycleSlice_twice 4160 s sh h [1048576] [3145728]).
  - apply slices_set_slice.
  - reflexivity.
  - reflexivity.
  - intros Hin. apply list_elem_of_In in Hin. cbn in Hin.
    intuition discriminate.
  - intros Hin. apply list_elem_of_In in Hin. cbn in Hin.
    intuition discriminate.
  - discriminate.
Defined.

(** ** Shard: the capacity in use *)

Lemma wrap_add_l a b : wrap (wrap a + b) = wrap (a + b).
Proof. unfold wrap. apply Zplus_mod_idemp_l. Qed.

Lemma wrap_sub_l a b : wrap (wrap a - b) = wrap (a - b).
Proof. unfold wrap. apply Zminus_mod_idemp_l. Qed.

(** X9. [GetUsedCapacityInBytes] follows the published list of buffers:
    when [CreateNewActiveSlice] returns it has grown by the size of one
    slice buffer, and when [RecycleSlice] returns it has shrunk by that
    size, the buffer of the recycled Slice being no longer counted from
    the moment it is scheduled for recycling. *)
Theorem GetUsedCapacityInBytes_follows_slices
    (env : Fresh) (slice : Z) (sh sh' : Shard.t) (h h' : Heap) :
  Z.of_nat (length (Shard.m_sliceBuffers sh)) <= Shard.c_vectorMaxSize ->
  (Shard.CreateNewActiveSlice env sh h = (Returned tt, sh', h') ->
   Shard.GetUsedCapacityInBytes sh'
   = wrap (Shard.GetUsedCapacityInBytes sh + Shard.m_sliceBufferSize sh)) /\
  (Shard.RecycleSlice slice sh h = Some (Returned tt, sh', h') ->
   Shard.GetUsedCapacityInBytes sh'
   = wrap (Shard.GetUsedCapacityInBytes sh - Shard.m_sliceBufferSize sh)).
Proof.
  intros Hlen. unfold Shard.GetUsedCapacityInBytes. split.
  - unfold Shard.CreateNewActiveSlice.
    destruct (Slice.construct_buffer _ _ _ _ _ _) as [[[]|e] content];
      intros H; inversion H; subst; clear H.
    cbn [Shard.m_sliceBuffers Shard.m_sliceBufferSize Shard.set_slices].
    rewrite wrap_add_l, length_app. cbn [length]. f_equal. lia.
  - unfold Shard.RecycleSlice.
    destruct (slices h !! slice) as [s|]; [|discriminate].
    destruct (negb (Slice.IsExpired s)); [discriminate|].
    destruct (_ >? Shard.c_vectorMaxSize); [discriminate|].
    match goal with
    | |- context [negb (?a =? ?b)] =>
        destruct (Z.eqb_spec a b) as [Heq|_]; [|discriminate]
    end.
    intros H. inversion H; subst; clear H.
    cbn [Shard.m_sliceBuffers Shard.m_sliceBufferSize Shard.set_slices].
    rewrite wrap_sub_l.
    pose proof (length_filter (fun it => it <> Slice.GetSliceBuffer s)
                              (Shard.m_sliceBuffers sh)) as Hshort.
    assert (Hmax : Shard.c_vectorMaxSize < c_sizeModulus - 1) by reflexivity.
    rewrite wrap_small in Heq by lia.
    f_equal. lia.
Qed.

(** The shard of [SingleShard] when it creates its first Slice: 40 bytes
    are in use. *)
Lemma GetUsedCapacityInBytes_follows_slices_first :
  exists sh' h',
    Shard.CreateNewActiveSlice (SingleShard.env SingleShard.heap)
                               SingleShard.shard SingleShard.heap
    = (Returned tt, sh', h') /\
    Shard.GetUsedCapacityInBytes sh' = 40.
Proof.
  destruct (CreateNewActiveSlice_returns
              (SingleShard.env SingleShard.heap) SingleShard.shard
              SingleShard.heap eq_refl) as [content Hrun].
  eexists _, _. split; [exact Hrun|].
  rewrite (proj1 (GetUsedCapacityInBytes_follows_slices
                    (SingleShard.env SingleShard.heap) 0
                    SingleShard.shard _ SingleShard.heap _
                    ltac:(discriminate))
                 Hrun).
  reflexivity.
Defined.

(** ** Shard: what the constructor establishes *)

Lemma RowIdForActiveDocument_returns termTable rowId :
  Shard.RowIdForActiveDocument termTable = Returned rowId <->
  RowIdSequence termTable (GetDocumentActiveTerm termTable) = [rowId] /\
  GetRank rowId = 0.
Proof.
  unfold Shard.RowIdForActiveDocument.
  destruct (RowIdSequence termTable (GetDocumentActiveTerm termTable))
    as [|first [|second rest]].
  - split; [discriminate|]. intros [H _]. discriminate H.
  - destruct (Z.eqb_spec (GetRank first) 0) as [Hrank|Hrank]; cbn [negb].
    + split.
      * intros H. inversion H; subst. split; [reflexivity|exact Hrank].
      * intros [H _]. inversion H; subst. reflexivity.
    + split; [discriminate|].
      intros [H Hzero]. inversion H; subst. contradiction.
  - destruct (negb (GetRank first =? 0));
      (split; [discriminate|]); intros [H _]; discriminate H.
Qed.

Lemma RowIdForActiveDocument_throws termTable e :
  Shard.RowIdForActiveDocument termTable = Thrown e ->
  exists message, e = RecoverableError message.
Proof.
  unfold Shard.RowIdForActiveDocument.
  destruct (RowIdSequence termTable (GetDocumentActiveTerm termTable))
    as [|first [|second rest]];
    try destruct (negb (GetRank first =? 0));
    intros H; inversion H; eexists; reflexivity.
Qed.

Section CapacityFound.

Variables (schema : IDocumentDataSchema) (termTable : ITermTable).
Variable bufferSizeInBytes : Z.

Let quantum : Z := DocumentsInRank0Row 1 (GetMaxRankUsed termTable).

Let layout (capacity : Z) : Z :=
  Shard.InitializeDescriptors_size capacity schema termTable.

Lemma GetCapacityForByteSize_loop_step (fuel : nat) (start : Z) :
  Shard.GetCapacityForByteSize_loop (S fuel) bufferSizeInBytes schema
                                    termTable start
  = if layout (wrap (start + quantum)) >? bufferSizeInBytes then Some start
    else Shard.GetCapacityForByteSize_loop fuel bufferSizeInBytes schema
                                           termTable
                                           (wrap (start + quantum)).
Proof. reflexivity. Qed.

(** The capacity the loop stops at was accepted by an earlier iteration,
    unless it is the one the loop started with; its successor was
    refused. *)
Lemma GetCapacityForByteSize_loop_fits (fuel : nat) :
  forall start capacity,
    Shard.GetCapacityForByteSize_loop fuel bufferSizeInBytes schema termTable
                                      start
    = Some capacity ->
    (capacity = start \/
     (layout capacity <= bufferSizeInBytes /\
      0 <= capacity < c_sizeModulus)) /\
    bufferSizeInBytes < layout (wrap (capacity + quantum)).
Proof.
  induction fuel as [|fuel IH]; intros start capacity H; [discriminate H|].
  rewrite GetCapacityForByteSize_loop_step in H.
  destruct (Z.gtb_spec (layout (wrap (start + quantum))) bufferSizeInBytes)
    as [Hover|Hfits].
  - injection H as <-. split; [left; reflexivity|exact Hover].
  - destruct (IH _ _ H) as [[->|Hcase] Hnext].
    + split; [|exact Hnext]. right. split; [exact Hfits|apply wrap_range].
    + split; [right; exact Hcase|exact Hnext].
Qed.

(** The loop goes through multiples of the quantum. *)
Lemma GetCapacityForByteSize_loop_multiple (fuel : nat) :
  forall start capacity,
    (quantum | c_sizeModulus) -> (quantum | start) ->
    Shard.GetCapacityForByteSize_loop fuel bufferSizeInBytes schema termTable
                                      start
    = Some capacity ->
    (quantum | capacity).
Proof.
  induction fuel as [|fuel IH]; intros start capacity Hmodulus Hstart H;
    [discriminate H|].
  rewrite GetCapacityForByteSize_loop_step in H.
  destruct (_ >? bufferSizeInBytes).
  - injection H as <-. exact Hstart.
  - apply (IH _ _ Hmodulus) in H; [exact H|].
    unfold wrap. rewrite Z.mod_eq by (unfold c_sizeModulus; lia).
    apply Z.divide_sub_r.
    + apply Z.divide_add_r; [exact Hstart|apply Z.divide_refl].
    + apply Z.divide_mul_l. exact Hmodulus.
Qed.

End CapacityFound.

(** For the ranks of the index the quantum is a power of two that divides
    the range of [size_t]. *)
Lemma quantum_divides_modulus maxRank :
  0 <= maxRank <= c_maxRankValue ->
  DocumentsInRank0Row 1 maxRank = 2 ^ (maxRank + 6) /\
  (DocumentsInRank0Row 1 maxRank | c_sizeModulus).
Proof.
  unfold c_maxRankValue. intros Hrank.
  assert (Hvalue : DocumentsInRank0Row 1 maxRank = 2 ^ (maxRank + 6)).
  { unfold DocumentsInRank0Row. rewrite Z.mul_1_l.
    rewrite Z.pow_add_r by lia. change (2 ^ 6) with 64.
    apply wrap_small.
    assert (0 < 2 ^ maxRank) by (apply Z.pow_pos_nonneg; lia).
    assert (2 ^ maxRank <= 2 ^ 6) by (apply Z.pow_le_mono_r; lia).
    change (2 ^ 6) with 64 in *. unfold c_sizeModulus.
    change (2 ^ 64) with 18446744073709551616. lia. }
  split; [exact Hvalue|].
  rewrite Hvalue. exists (2 ^ (58 - maxRank)).
  unfold c_sizeModulus. rewrite <- Z.pow_add_r by lia.
  f_equal. lia.
Qed.

(** The RowTable descriptors of the loop of [InitializeDescriptors]: one
    for each rank from [r] on, in the order of the ranks. *)
Lemma InitializeRowTableDescriptors_ranks (count : nat) :
  forall r capacity termTable offset,
    length (fst (Shard.InitializeRowTableDescriptors
                   count r capacity termTable offset)) = count /\
    forall (k : nat) d,
      fst (Shard.InitializeRowTableDescriptors
             count r capacity termTable offset) !! k = Some d ->
      RowTableDescriptor.m_rank d = r + Z.of_nat k /\
      RowTableDescriptor.m_capacity d = capacity /\
      RowTableDescriptor.m_rowCount d
      = GetTotalRowCount termTable (r + Z.of_nat k).
Proof.
  induction count as [|count IH]; intros r capacity termTable offset.
  - split; [reflexivity|]. intros k d H. discriminate H.
  - cbn [Shard.InitializeRowTableDescriptors].
    match goal with
    | |- context [Shard.InitializeRowTableDescriptors count ?r1 ?c ?t ?o] =>
        specialize (IH r1 c t o);
        destruct (Shard.InitializeRowTableDescriptors count r1 c t o)
          as [rowTables final]
    end.
    cbn [fst] in *. destruct IH as [Hlen Hall].
    split; [cbn; rewrite Hlen; reflexivity|].
    intros [|k] d H.
    + inversion H; subst. cbn. rewrite Z.add_0_r. repeat split.
    + cbn in H. destruct (Hall k d H) as (H1 & H2 & H3).
      split; [rewrite H1; lia|]. split; [exact H2|].
      rewrite H3. f_equal. lia.
Qed.

(** What a shard the constructor returned is made of, the row of the
    active documents included. *)
Lemma construct_returns fuel termTable schema sliceBufferSize sh :
  Shard.construct fuel termTable schema sliceBufferSize = Some (Returned sh) ->
  Shard.RowIdForActiveDocument termTable
  = Returned (Shard.m_documentActiveRowId sh) /\
  Shard.GetCapacityForByteSize fuel sliceBufferSize schema termTable
  = Some (Returned (Shard.m_sliceCapacity sh)) /\
  fst (Shard.InitializeDescriptors (Shard.m_sliceCapacity sh) schema termTable)
  = (Shard.m_docTable sh, Shard.m_rowTables sh) /\
  Shard.m_termTable sh = termTable /\
  Shard.m_sliceBufferSize sh = sliceBufferSize /\
  Shard.m_activeSlice sh = None /\
  Shard.m_sliceBuffers sh = [].
Proof.
  unfold Shard.construct. intros H.
  destruct (Shard.RowIdForActiveDocument termTable) as [activeRow|e];
    [|discriminate H].
  destruct (Shard.GetCapacityForByteSize fuel sliceBufferSize schema termTable)
    as [[capacity|e]|]; try discriminate H.
  destruct (Shard.InitializeDescriptors capacity schema termTable)
    as [[docTable rowTables] bufferSize] eqn:Hlayout.
  destruct (LogAssertB (bufferSize <=? sliceBufferSize) _); [|discriminate H].
  injection H as <-. cbn. rewrite Hlayout. repeat split.
Qed.

Lemma GetCapacityForByteSize_returns fuel bufferSize schema termTable capacity :
  Shard.GetCapacityForByteSize fuel bufferSize schema termTable
  = Some (Returned capacity) ->
  Shard.GetCapacityForByteSize_loop fuel bufferSize schema termTable 0
  = Some capacity /\
  0 < capacity.
Proof.
  unfold Shard.GetCapacityForByteSize. intros H.
  destruct (Shard.GetCapacityForByteSize_loop _ _ _ _ _) as [c|];
    [|discriminate H].
  unfold LogAssertB in H.
  destruct (Z.ltb_spec 0 c) as [Hc|_]; [|discriminate H].
  injection H as <-. split; [reflexivity|exact Hc].
Qed.

(** The capacity of a shard that the constructor returns has a layout
    that fits the slice buffer. *)
Lemma construct_capacity_fits
    (fuel : nat) (termTable : ITermTable) (schema : IDocumentDataSchema)
    (sliceBufferSize : Z) (sh : Shard.t) :
  Shard.construct fuel termTable schema sliceBufferSize = Some (Returned sh) ->
  0 < Shard.m_sliceCapacity sh < c_sizeModulus /\
  Shard.InitializeDescriptors_size (Shard.m_sliceCapacity sh) schema termTable
  <= sliceBufferSize.
Proof.
  intros Hconstruct.
  destruct (construct_returns _ _ _ _ _ Hconstruct)
    as (_ & Hcapacity & _).
  apply GetCapacityForByteSize_returns in Hcapacity as [Hloop Hpositive].
  destruct (GetCapacityForByteSize_loop_fits _ _ _ _ _ _ Hloop)
    as [[Hzero|[Hfits Hrange]] _]; [lia|].
  split; [lia|exact Hfits].
Qed.

(** X10. A shard that the constructor returns has the one row of the
    document-active term, a row of rank 0, as its active-document row;
    its capacity is positive, the layout for that capacity fits the slice
    buffer and the layout for the next quantum does not; for the ranks of
    the index the capacity is a multiple of the quantum; and the shard
    has no active slice and no capacity in use. *)
Theorem construct_establishes
    (fuel : nat) (termTable : ITermTable) (schema : IDocumentDataSchema)
    (sliceBufferSize : Z) (sh : Shard.t) :
  Shard.construct fuel termTable schema sliceBufferSize = Some (Returned sh) ->
  let capacity := Shard.m_sliceCapacity sh in
  let quantum := DocumentsInRank0Row 1 (GetMaxRankUsed termTable) in
  RowIdSequence termTable (GetDocumentActiveTerm termTable)
  = [Shard.m_documentActiveRowId sh] /\
  GetRank (Shard.m_documentActiveRowId sh) = 0 /\
  0 < capacity < c_sizeModulus /\
  Shard.InitializeDescriptors_size capacity schema termTable
  <= sliceBufferSize /\
  sliceBufferSize
  < Shard.InitializeDescriptors_size (wrap (capacity + quantum)) schema
                                     termTable /\
  (0 <= GetMaxRankUsed termTable <= c_maxRankValue -> (quantum | capacity)) /\
  Shard.m_activeSlice sh = None /\
  Shard.GetUsedCapacityInBytes sh = 0.
Proof.
  intros Hconstruct capacity quantum.
  destruct (construct_returns _ _ _ _ _ Hconstruct)
    as (Hrow & Hcapacity & _ & _ & _ & Hactive & Hbuffers).
  apply RowIdForActiveDocument_returns in Hrow as [Hrows Hrank].
  apply GetCapacityForByteSize_returns in Hcapacity as [Hloop Hpositive].
  fold capacity in Hloop, Hpositive.
  destruct (GetCapacityForByteSize_loop_fits _ _ _ _ _ _ Hloop)
    as [[Hzero|[Hfits Hrange]] Hnext]; [lia|].
  split; [exact Hrows|]. split; [exact Hrank|].
  split; [lia|]. split; [exact Hfits|]. split; [exact Hnext|].
  split.
  { intros HmaxRank.
    destruct (quantum_divides_modulus _ HmaxRank) as [_ Hdivides].
    apply (GetCapacityForByteSize_loop_multiple
             schema termTable sliceBufferSize fuel 0 capacity Hdivides);
      [apply Z.divide_0_r|exact Hloop]. }
  split; [exact Hactive|].
  unfold Shard.GetUsedCapacityInBytes. rewrite Hbuffers. reflexivity.
Qed.

(** The shard of [SingleShard]: 64 documents a slice. *)
Lemma construct_establishes_SingleShard :
  0 < Shard.m_sliceCapacity SingleShard.shard < c_sizeModulus /\
  Shard.InitializeDescriptors_size
    (Shard.m_sliceCapacity SingleShard.shard)
    SingleShard.schema SingleShard.termTable
  <= 40.
Proof.
  destruct (construct_establishes
              2 SingleShard.termTable SingleShard.schema 40 SingleShard.shard
              SingleShard_shard_constructed)
    as (_ & _ & Hcapacity & Hfits & _).
  split; [exact Hcapacity|exact Hfits].
Defined.

Lemma InitializeDescriptors_size_eq capacity schema termTable :
  Shard.InitializeDescriptors_size capacity schema termTable
  = snd (Shard.InitializeDescriptors capacity schema termTable).
Proof. reflexivity. Qed.

(** The constructor by cases on its three checks. *)
Lemma construct_cases fuel termTable schema sliceBufferSize :
  Shard.construct fuel termTable schema sliceBufferSize
  = match Shard.RowIdForActiveDocument termTable with
    | Thrown e => Some (Thrown e)
    | Returned documentActiveRowId =>
        match Shard.GetCapacityForByteSize fuel sliceBufferSize schema
                                           termTable with
        | None => None
        | Some (Thrown e) => Some (Thrown e)
        | Some (Returned sliceCapacity) =>
            match LogAssertB
                    (Shard.InitializeDescriptors_size sliceCapacity schema
                                                      termTable
                     <=? sliceBufferSize)
                    "Shard sliceBufferSize too small." with
            | Thrown e => Some (Thrown e)
            | Returned _ =>
                Some (Returned
                        (Shard.mk
                           termTable documentActiveRowId None []
                           sliceCapacity sliceBufferSize
                           (Some (DocumentFrequencyTableBuilder.mk [] 0))
                           (fst (fst (Shard.InitializeDescriptors
                                        sliceCapacity schema termTable)))
                           (snd (fst (Shard.InitializeDescriptors
                                        sliceCapacity schema termTable)))))
            end
        end
    end.
Proof.
  unfold Shard.construct.
  destruct (Shard.RowIdForActiveDocument termTable); [|reflexivity].
  destruct (Shard.GetCapacityForByteSize _ _ _ _) as [[capacity|e]|];
    [|reflexivity|reflexivity].
  rewrite InitializeDescriptors_size_eq.
  destruct (Shard.InitializeDescriptors capacity schema termTable)
    as [[docTable rowTables] bufferSize].
  reflexivity.
Qed.

Lemma LogAssertB_then_returned {A : Type} (condition : bool) (message : string)
    (a : A) (e : Exn) :
  match LogAssertB condition message with
  | Returned _ => Some (Returned a)
  | Thrown e0 => Some (Thrown e0)
  end = Some (Thrown e) ->
  condition = false /\ e = FatalAssert message.
Proof.
  unfold LogAssertB. destruct condition; intros H.
  - discriminate H.
  - injection H as <-. split; reflexivity.
Qed.

(** X11. The constructor has three ways to fail, and its last assertion
    is not one of them: an exception it throws is the RecoverableError of
    [RowIdForActiveDocument] or the failed assertion of
    [GetCapacityForByteSize]; a capacity that function returns has a
    layout that fits, so that the assertion on the size of the slice
    buffer that ends the constructor never fails. *)
Theorem construct_exceptions
    (fuel : nat) (termTable : ITermTable) (schema : IDocumentDataSchema)
    (sliceBufferSize : Z) (e : Exn) :
  Shard.construct fuel termTable schema sliceBufferSize = Some (Thrown e) ->
  (Shard.RowIdForActiveDocument termTable = Thrown e \/
   e = FatalAssert "Shard with 0 capacity.") /\
  e <> FatalAssert "Shard sliceBufferSize too small.".
Proof.
  rewrite construct_cases. intros H.
  destruct (Shard.RowIdForActiveDocument termTable) as [activeRow|e0]
    eqn:Hrow.
  2:{ injection H as <-. split; [left; reflexivity|].
      destruct (RowIdForActiveDocument_throws _ _ Hrow) as [message ->].
      discriminate. }
  destruct (Shard.GetCapacityForByteSize fuel sliceBufferSize schema termTable)
    as [[capacity|e0]|] eqn:Hcapacity; [| |discriminate H].
  - exfalso.
    apply LogAssertB_then_returned in H as [Hle _].
    apply Z.leb_gt in Hle.
    apply GetCapacityForByteSize_returns in Hcapacity as [Hloop Hpositive].
    destruct (GetCapacityForByteSize_loop_fits _ _ _ _ _ _ Hloop)
      as [[Hzero|[Hfits _]] _]; [lia|].
    cbv zeta in Hfits.
    remember (Shard.InitializeDescriptors_size capacity schema termTable)
      as size eqn:Hsize.
    clear Hsize Hloop. lia.
  - injection H as <-.
    unfold Shard.GetCapacityForByteSize in Hcapacity.
    destruct (Shard.GetCapacityForByteSize_loop _ _ _ _ _) as [c|];
      [|discriminate Hcapacity].
    unfold LogAssertB in Hcapacity.
    destruct (0 <? c); [discriminate Hcapacity|].
    injection Hcapacity as <-.
    split; [right; reflexivity|discriminate].
Qed.

(** A slice buffer of 16 bytes is too small for the shard of
    [SingleShard]: the failure is the one of [GetCapacityForByteSize]. *)
Lemma construct_exceptions_too_small :
  (Shard.RowIdForActiveDocument SingleShard.termTable
   = Thrown (FatalAssert "Shard with 0 capacity.") \/
   FatalAssert "Shard with 0 capacity."
   = FatalAssert "Shard with 0 capacity.") /\
  FatalAssert "Shard with 0 capacity."
  <> FatalAssert "Shard sliceBufferSize too small.".
Proof.
  apply (construct_exceptions 1 SingleShard.termTable SingleShard.schema 16).
  reflexivity.
Defined.

(** ** Shard: the tables of a slice buffer *)

Lemma construct_row_tables_eq fuel termTable schema sliceBufferSize sh :
  Shard.construct fuel termTable schema sliceBufferSize = Some (Returned sh) ->
  Shard.m_docTable sh
  = DocTableDescriptor.mk (Shard.m_sliceCapacity sh) schema 0 /\
  Shard.m_rowTables sh
  = fst (Shard.InitializeRowTableDescriptors
           (Z.to_nat (c_maxRankValue + 1)) 0 (Shard.m_sliceCapacity sh)
           termTable
           (to_ptrdiff
              (0 + DocTableDescriptor.GetBufferSize (Shard.m_sliceCapacity sh)
                                                    schema))).
Proof.
  intros Hconstruct.
  destruct (construct_returns _ _ _ _ _ Hconstruct)
    as (_ & _ & Hlayout & _).
  unfold Shard.InitializeDescriptors in Hlayout.
  destruct (Shard.InitializeRowTableDescriptors _ _ _ _ _)
    as [rowTables final].
  cbn [fst] in Hlayout.
  split.
  - exact (eq_sym (f_equal fst Hlayout)).
  - exact (eq_sym (f_equal snd Hlayout)).
Qed.

(** X12. In a shard that the constructor returns there is one RowTable
    for each rank from 0 to [c_maxRankValue], found by [GetRowTable] at
    its rank, with the capacity of the shard and the row count the term
    table gives for the rank; [GetRowTable] throws [std::out_of_range]
    for a higher rank, and [GetRowOffset] is the offset the table of the
    rank of the row gives for the index of the row. *)
Theorem construct_row_tables
    (fuel : nat) (termTable : ITermTable) (schema : IDocumentDataSchema)
    (sliceBufferSize : Z) (sh : Shard.t) :
  Shard.construct fuel termTable schema sliceBufferSize = Some (Returned sh) ->
  (forall rank,
     0 <= rank <= c_maxRankValue ->
     exists rowTable,
       Shard.GetRowTable sh rank = Returned rowTable /\
       RowTableDescriptor.m_rank rowTable = rank /\
       RowTableDescriptor.m_capacity rowTable = Shard.m_sliceCapacity sh /\
       RowTableDescriptor.m_rowCount rowTable
       = GetTotalRowCount termTable rank /\
       forall index,
         Shard.GetRowOffset sh (mkRowId rank index)
         = Returned (RowTableDescriptor.GetRowOffset rowTable index)) /\
  (forall rank index,
     c_maxRankValue < rank ->
     Shard.GetRowTable sh rank = Thrown OutOfRange /\
     Shard.GetRowOffset sh (mkRowId rank index) = Thrown OutOfRange).
Proof.
  intros Hconstruct.
  destruct (construct_row_tables_eq _ _ _ _ _ Hconstruct) as [_ HrowTables].
  match type of HrowTables with
  | _ = fst (Shard.InitializeRowTableDescriptors ?count ?r ?c ?t ?o) =>
      destruct (InitializeRowTableDescriptors_ranks count r c t o)
        as [Hlen Hall]
  end.
  rewrite <- HrowTables in Hlen, Hall. clear HrowTables.
  change (Z.to_nat (c_maxRankValue + 1)) with 7%nat in Hlen.
  unfold c_maxRankValue. split.
  - intros rank Hrank.
    destruct (lookup_lt_is_Some_2 (Shard.m_rowTables sh) (Z.to_nat rank))
      as [rowTable Hlookup]; [lia|].
    destruct (Hall _ _ Hlookup) as (H1 & H2 & H3).
    rewrite Z2Nat.id, Z.add_0_l in H1, H3 by lia.
    exists rowTable. unfold Shard.GetRowOffset, Shard.GetRowTable.
    cbn [GetRank GetIndex]. rewrite Hlookup.
    repeat split; assumption.
  - intros rank index Hrank.
    unfold Shard.GetRowOffset, Shard.GetRowTable. cbn [GetRank].
    rewrite (lookup_ge_None_2 (Shard.m_rowTables sh) (Z.to_nat rank))
      by lia.
    split; reflexivity.
Qed.

(** The table of rank 0 of the shard of [SingleShard] has three rows. *)
Lemma construct_row_tables_SingleShard :
  exists rowTable,
    Shard.GetRowTable SingleShard.shard 0 = Returned rowTable /\
    RowTableDescriptor.m_rowCount rowTable = 3.
Proof.
  destruct (proj1 (construct_row_tables
                     2 SingleShard.termTable SingleShard.schema 40
                     SingleShard.shard SingleShard_shard_constructed)
                  0)
    as (rowTable & Hfound & _ & _ & Hcount & _).
  - split; [reflexivity|discriminate].
  - exists rowTable. split; [exact Hfound|exact Hcount].
Defined.

Lemma rowTables_extent_S (k : nat) :
  forall r capacity termTable,
    Shard.rowTables_extent (S k) r capacity termTable
    = Shard.rowTables_extent k r capacity termTable
      + RowTableDescriptor.GetBufferSize
          capacity (GetTotalRowCount termTable (r + Z.of_nat k))
          (r + Z.of_nat k).
Proof.
  induction k as [|k IH]; intros r capacity termTable.
  - cbn [Shard.rowTables_extent]. change (Z.of_nat 0) with 0.
    rewrite !Z.add_0_r. lia.
  - change (Shard.rowTables_extent (S (S k)) r capacity termTable)
      with (RowTableDescriptor.GetBufferSize
              capacity (GetTotalRowCount termTable r) r
            + Shard.rowTables_extent (S k) (r + 1) capacity termTable).
    rewrite IH.
    change (Shard.rowTables_extent (S k) r capacity termTable)
      with (RowTableDescriptor.GetBufferSize
              capacity (GetTotalRowCount termTable r) r
            + Shard.rowTables_extent k (r + 1) capacity termTable).
    replace (r + 1 + Z.of_nat k) with (r + Z.of_nat (S k)) by lia.
    lia.
Qed.

(** Without overflow, the table at position [k] starts where the tables
    before it end. *)
Lemma InitializeRowTableDescriptors_offsets (count : nat) :
  forall r capacity termTable offset,
    0 <= offset ->
    offset + Shard.rowTables_extent count r capacity termTable < 2 ^ 63 ->
    forall (k : nat) d,
      fst (Shard.InitializeRowTableDescriptors
             count r capacity termTable offset) !! k = Some d ->
      RowTableDescriptor.m_bufferOffset d
      = offset + Shard.rowTables_extent k r capacity termTable.
Proof.
  induction count as [|count IH]; intros r capacity termTable offset Hoff Hmax
    k d H.
  - discriminate H.
  - cbn [Shard.InitializeRowTableDescriptors Shard.rowTables_extent] in *.
    pose proof (RowTable_GetBufferSize_nonneg
                  capacity (GetTotalRowCount termTable r) r) as Hsize.
    pose proof (rowTables_extent_nonneg count (r + 1) capacity termTable)
      as Hrest.
    rewrite to_ptrdiff_small in H by lia.
    match type of H with
    | context [Shard.InitializeRowTableDescriptors count ?r1 ?c ?t ?o] =>
        specialize (IH r1 c t o);
        destruct (Shard.InitializeRowTableDescriptors count r1 c t o)
          as [rowTables final]
    end.
    cbn [fst] in *. destruct k as [|k].
    + injection H as <-. cbn. lia.
    + cbn in H. rewrite (IH ltac:(lia) ltac:(lia) k d H).
      cbn [Shard.rowTables_extent]. lia.
Qed.

(** Without overflow [InitializeDescriptors] returns the sum of the sizes
    of the regions. *)
Lemma InitializeDescriptors_size_no_overflow capacity schema termTable :
  Shard.layout_extent capacity schema termTable < 2 ^ 63 ->
  Shard.InitializeDescriptors_size capacity schema termTable
  = Shard.layout_extent capacity schema termTable.
Proof.
  unfold Shard.layout_extent. intros Hextent.
  pose proof (wrap_range (capacity * DocTableDescriptor.GetBytesPerItem schema))
    as HdocSize.
  fold (DocTableDescriptor.GetBufferSize capacity schema) in HdocSize.
  pose proof (rowTables_extent_nonneg (Z.to_nat (c_maxRankValue + 1)) 0
                capacity termTable) as Hrest.
  unfold c_sizeofPointer in *.
  rewrite InitializeDescriptors_size_eq.
  unfold Shard.InitializeDescriptors.
  rewrite Z.add_0_l, to_ptrdiff_small by lia.
  destruct (InitializeRowTableDescriptors_regions
              (Z.to_nat (c_maxRankValue + 1)) 0 capacity termTable
              (DocTableDescriptor.GetBufferSize capacity schema))
    as (rowTables & Hrun & _); [lia|lia|].
  rewrite Hrun. cbn [snd].
  unfold c_sizeofPointer.
  rewrite to_ptrdiff_small by lia.
  apply wrap_small.
  unfold c_sizeModulus. change (2 ^ 63) with 9223372036854775808 in *.
  change (2 ^ 64) with 18446744073709551616. lia.
Qed.

Lemma GetRowTable_returns sh rank rowTable :
  Shard.GetRowTable sh rank = Returned rowTable ->
  Shard.m_rowTables sh !! Z.to_nat rank = Some rowTable.
Proof.
  unfold Shard.GetRowTable.
  destruct (Shard.m_rowTables sh !! Z.to_nat rank) as [d|];
    [|discriminate].
  intros H. injection H as <-. reflexivity.
Qed.

(** X13. The layout of a shard that the constructor returns is packed,
    provided its size was computed without overflow: the DocTable starts
    at offset 0, the RowTable of rank 0 where the DocTable ends, the
    RowTable of each further rank where the one before it ends, and the
    eight bytes after the last RowTable end the layout, whose size is at
    most the size of the slice buffer. *)
Theorem construct_layout_is_packed
    (fuel : nat) (termTable : ITermTable) (schema : IDocumentDataSchema)
    (sliceBufferSize : Z) (sh : Shard.t) :
  Shard.construct fuel termTable schema sliceBufferSize = Some (Returned sh) ->
  Shard.layout_extent (Shard.m_sliceCapacity sh) schema termTable < 2 ^ 63 ->
  let region rowTable :=
    RowTableDescriptor.GetBufferSize
      (RowTableDescriptor.m_capacity rowTable)
      (RowTableDescriptor.m_rowCount rowTable)
      (RowTableDescriptor.m_rank rowTable) in
  DocTableDescriptor.m_bufferOffset (Shard.m_docTable sh) = 0 /\
  (forall rowTable,
     Shard.GetRowTable sh 0 = Returned rowTable ->
     RowTableDescriptor.m_bufferOffset rowTable
     = DocTableDescriptor.GetBufferSize (Shard.m_sliceCapacity sh) schema) /\
  (forall rank rowTable next,
     0 <= rank < c_maxRankValue ->
     Shard.GetRowTable sh rank = Returned rowTable ->
     Shard.GetRowTable sh (rank + 1) = Returned next ->
     RowTableDescriptor.m_bufferOffset next
     = RowTableDescriptor.m_bufferOffset rowTable + region rowTable) /\
  (forall rowTable,
     Shard.GetRowTable sh c_maxRankValue = Returned rowTable ->
     RowTableDescriptor.m_bufferOffset rowTable + region rowTable
     + c_sizeofPointer
     = Shard.InitializeDescriptors_size (Shard.m_sliceCapacity sh) schema
                                        termTable) /\
  Shard.InitializeDescriptors_size (Shard.m_sliceCapacity sh) schema termTable
  <= sliceBufferSize.
Proof.
  intros Hconstruct Hextent region.
  destruct (construct_row_tables_eq _ _ _ _ _ Hconstruct)
    as [HdocTable HrowTables].
  destruct (construct_capacity_fits _ _ _ _ _ Hconstruct) as [_ Hfits].
  rewrite (InitializeDescriptors_size_no_overflow _ _ _ Hextent) in *.
  remember (Shard.m_sliceCapacity sh) as capacity eqn:Hcapacity.
  clear Hcapacity Hconstruct.
  unfold Shard.layout_extent in *.
  pose proof (wrap_range (capacity * DocTableDescriptor.GetBytesPerItem schema))
    as HdocSize.
  fold (DocTableDescriptor.GetBufferSize capacity schema) in HdocSize.
  remember (DocTableDescriptor.GetBufferSize capacity schema) as docSize
    eqn:HdocSizeEq.
  clear HdocSizeEq.
  pose proof (rowTables_extent_nonneg (Z.to_nat (c_maxRankValue + 1)) 0
                capacity termTable) as Hrest.
  change (Z.to_nat (c_maxRankValue + 1)) with 7%nat in *.
  unfold c_sizeofPointer, c_maxRankValue in *.
  rewrite Z.add_0_l, to_ptrdiff_small in HrowTables by lia.
  pose proof (InitializeRowTableDescriptors_offsets
                7 0 capacity termTable docSize ltac:(lia) ltac:(lia))
    as Hoffsets.
  destruct (InitializeRowTableDescriptors_ranks 7 0 capacity termTable docSize)
    as [_ Hranks].
  rewrite <- HrowTables in Hoffsets, Hranks. clear HrowTables.
  assert (Htable : forall rank rowTable,
            0 <= rank ->
            Shard.GetRowTable sh rank = Returned rowTable ->
            RowTableDescriptor.m_bufferOffset rowTable
            = docSize
              + Shard.rowTables_extent (Z.to_nat rank) 0 capacity termTable /\
            region rowTable
            = RowTableDescriptor.GetBufferSize
                capacity (GetTotalRowCount termTable rank) rank).
  { intros rank rowTable Hrank Hfound.
    apply GetRowTable_returns in Hfound.
    split; [exact (Hoffsets _ _ Hfound)|].
    destruct (Hranks _ _ Hfound) as (H1 & H2 & H3).
    rewrite Z2Nat.id, Z.add_0_l in H1, H3 by lia.
    unfold region. rewrite H1, H2, H3. reflexivity. }
  split; [rewrite HdocTable; reflexivity|].
  split.
  { intros rowTable Hfound.
    destruct (Htable 0 rowTable ltac:(lia) Hfound) as [-> _].
    change (Z.to_nat 0) with 0%nat. cbn [Shard.rowTables_extent]. lia. }
  split.
  { intros rank rowTable next Hrank Hfound Hnext.
    destruct (Htable rank rowTable ltac:(lia) Hfound) as [-> ->].
    destruct (Htable (rank + 1) next ltac:(lia) Hnext) as [-> _].
    replace (Z.to_nat (rank + 1)) with (S (Z.to_nat rank)) by lia.
    rewrite rowTables_extent_S, Z.add_0_l, Z2Nat.id by lia. lia. }
  split; [|exact Hfits].
  intros rowTable Hfound.
  destruct (Htable 6 rowTable ltac:(lia) Hfound) as [-> ->].
  change 7%nat with (S (Z.to_nat 6)).
  rewrite rowTables_extent_S, Z.add_0_l, Z2Nat.id by lia. lia.
Qed.

(** The shard of [SingleShard]: three rows of eight bytes at rank 0, and
    the pointer, in a slice buffer of 40 bytes. *)
Lemma construct_layout_is_packed_SingleShard :
  Shard.InitializeDescriptors_size
    (Shard.m_sliceCapacity SingleShard.shard)
    SingleShard.schema SingleShard.termTable
  <= 40.
Proof.
  refine (proj2 (proj2 (proj2 (proj2
            (construct_layout_is_packed
               2 SingleShard.termTable SingleShard.schema 40
               SingleShard.shard SingleShard_shard_constructed _))))).
  reflexivity.
Defined.

(** ** Shard: a run of allocations *)

Section AllocationRun.

Variable capacity : Z.
Hypothesis capacity_fits : 0 < capacity < c_sizeModulus.

(** The shard is ready to allocate with [u] documents left in its active
    slice ([u = 0] when it has none). *)
Let ready (sh : Shard.t) (h : Heap) (u : Z) : Prop :=
  Shard.m_sliceCapacity sh = capacity /\
  Z.of_nat (length (Shard.m_rowTables sh)) = c_maxRankValue + 1 /\
  match Shard.m_activeSlice sh with
  | None => u = 0
  | Some active =>
      exists rc buf p e,
        slices h !! active = Some (Slice.mk capacity rc buf u p e) /\
        0 <= p /\ u + p <= capacity
  end.

Lemma AllocateDocument_step env id sh h u :
  ready sh h u -> 0 <= u < capacity ->
  exists slice sh' h',
    Shard.AllocateDocument env id sh h
    = Some (Returned (DocumentHandleInternal.mk
                        slice ((capacity - u) mod capacity) id),
            sh', h') /\
    ready sh' h' (if u =? 0 then capacity - 1 else u - 1) /\
    Shard.m_sliceBuffers sh'
    = Shard.m_sliceBuffers sh ++ (if u =? 0 then [newBuffer env] else []).
Proof using capacity_fits.
  intros (Hcap & Hcount & Hactive) Hu.
  assert (Hfit : 0 <= capacity < c_sizeModulus) by lia.
  assert (Hnew : forall h0,
            u = 0 ->
            exists slice sh' h',
              Shard.AllocateDocument_from_new_slice env id sh h0
              = Some (Returned (DocumentHandleInternal.mk
                                  slice ((capacity - u) mod capacity) id),
                      sh', h') /\
              ready sh' h' (capacity - 1) /\
              Shard.m_sliceBuffers sh'
              = Shard.m_sliceBuffers sh ++ [newBuffer env]).
  { intros h0 ->.
    destruct (AllocateDocument_from_new_slice_returns env id sh h0)
      as [content Hrun]; [lia|exact Hcount|].
    rewrite Hrun, Hcap, Z.sub_0_r, Z_mod_same_full.
    eexists _, _, _. split; [reflexivity|].
    split; [|reflexivity].
    split; [exact Hcap|]. split; [exact Hcount|].
    cbn [Shard.m_activeSlice Shard.set_slices slices].
    exists 1, (newBuffer env), 1, 0.
    split; [apply lookup_insert_eq|lia]. }
  unfold Shard.AllocateDocument.
  destruct (Shard.m_activeSlice sh) as [active|] eqn:Hact.
  - destruct Hactive as (rc & buf & p & e & Hslice & Hp & Hsum).
    unfold Shard.TryAllocateDocument_at. rewrite Hslice.
    destruct (Z.eqb_spec u 0) as [Hzero|Hpositive].
    + subst u. cbn [Slice.TryAllocateDocument Slice.m_unallocatedCount Z.eqb].
      apply Hnew. reflexivity.
    + rewrite (TryAllocateDocument_some capacity rc buf Hfit) by lia.
      rewrite Z.mod_small by lia.
      eexists _, _, _. split; [reflexivity|].
      split; [|rewrite app_nil_r; reflexivity].
      split; [exact Hcap|]. split; [exact Hcount|].
      rewrite Hact. exists rc, buf, (p + 1), e.
      split; [apply slices_set_slice|lia].
  - subst u. cbn [Z.eqb]. apply Hnew. reflexivity.
Qed.

(** [n] allocations from a shard that is ready with [u] documents left:
    the DocIndexes go round the capacity, and a Slice is created each
    time they start again from 0. *)
Lemma AllocateDocument_times_ready (n : nat) :
  forall env id sh h u,
    ready sh h u -> 0 <= u < capacity ->
    exists handles sh' h',
      Shard.AllocateDocument_times n env id sh h
      = Some (Returned handles, sh', h') /\
      length handles = n /\
      (forall (k : nat) handle,
         handles !! k = Some handle ->
         DocumentHandleInternal.m_index handle
         = (capacity - u + Z.of_nat k) mod capacity /\
         DocumentHandleInternal.m_id handle = id + Z.of_nat k) /\
      Z.of_nat (length (Shard.m_sliceBuffers sh'))
      = Z.of_nat (length (Shard.m_sliceBuffers sh))
        + (capacity - u - 1 + Z.of_nat n) / capacity.
Proof using capacity_fits.
  induction n as [|n IH]; intros env id sh h u Hready Hu.
  - exists [], sh, h. split; [reflexivity|]. split; [reflexivity|].
    split; [intros k handle H; discriminate H|].
    rewrite Z.add_0_r, Z.div_small by lia. lia.
  - cbn [Shard.AllocateDocument_times].
    destruct (AllocateDocument_step (env h) id sh h u Hready Hu)
      as (slice & sh1 & h1 & Hrun & Hready1 & Hbuffers).
    rewrite Hrun.
    destruct (IH env (id + 1) sh1 h1 _ Hready1)
      as (handles & sh' & h' & Hrest & Hlen & Hall & Hcount).
    { destruct (Z.eqb_spec u 0); lia. }
    rewrite Hrest.
    eexists (_ :: handles), sh', h'. split; [reflexivity|].
    split; [cbn; rewrite Hlen; reflexivity|].
    split.
    + intros [|k] handle Hk.
      * injection Hk as <-. cbn. rewrite !Z.add_0_r. split; reflexivity.
      * cbn in Hk. destruct (Hall k handle Hk) as [Hindex Hid].
        rewrite Hindex, Hid. split; [|lia].
        destruct (Z.eqb_spec u 0) as [->|Hne].
        -- replace (capacity - 0 + Z.of_nat (S k))
             with (1 + Z.of_nat k + 1 * capacity) by lia.
           rewrite Z_mod_plus_full. f_equal. lia.
        -- f_equal. lia.
    + rewrite Hcount, Hbuffers, length_app.
      destruct (Z.eqb_spec u 0) as [->|Hne].
      * cbn [length].
        replace (capacity - 0 - 1 + Z.of_nat (S n))
          with (Z.of_nat n + 1 * capacity) by lia.
        rewrite Z_div_plus_full by lia.
        replace (capacity - (capacity - 1) - 1 + Z.of_nat n)
          with (Z.of_nat n) by lia.
        lia.
      * cbn [length]. rewrite Nat.add_0_r.
        do 2 f_equal. lia.
Qed.

End AllocationRun.

(** X14. [n] calls of [AllocateDocument] on a shard that has no active
    slice, for the ids [id], [id + 1], ...: every call returns, the call
    number [k] hands out the DocIndex [k mod capacity] with the id
    [id + k], and the shard publishes one more slice buffer for every
    [capacity] calls, [ceil(n / capacity)] in all: a Slice is filled
    before the next one is created. *)
Theorem AllocateDocument_times_fills_slices
    (n : nat) (env : Heap -> Fresh) (id : Z) (sh : Shard.t) (h : Heap) :
  let capacity := Shard.m_sliceCapacity sh in
  0 < capacity < c_sizeModulus ->
  Z.of_nat (length (Shard.m_rowTables sh)) = c_maxRankValue + 1 ->
  Shard.m_activeSlice sh = None ->
  exists handles sh' h',
    Shard.AllocateDocument_times n env id sh h
    = Some (Returned handles, sh', h') /\
    length handles = n /\
    (forall (k : nat) handle,
       handles !! k = Some handle ->
       DocumentHandleInternal.m_index handle = Z.of_nat k mod capacity /\
       DocumentHandleInternal.m_id handle = id + Z.of_nat k) /\
    Z.of_nat (length (Shard.m_sliceBuffers sh'))
    = Z.of_nat (length (Shard.m_sliceBuffers sh))
      + (Z.of_nat n + capacity - 1) / capacity.
Proof.
  intros capacity Hcap Hcount Hactive.
  destruct (AllocateDocument_times_ready capacity Hcap n env id sh h 0)
    as (handles & sh' & h' & Hrun & Hlen & Hall & Hbuffers).
  - split; [reflexivity|]. split; [exact Hcount|].
    rewrite Hactive. reflexivity.
  - lia.
  - exists handles, sh', h'. split; [exact Hrun|]. split; [exact Hlen|].
    split.
    + intros k handle Hk. destruct (Hall k handle Hk) as [Hindex Hid].
      split; [|exact Hid]. rewrite Hindex.
      replace (capacity - 0 + Z.of_nat k)
        with (Z.of_nat k + 1 * capacity) by lia.
      apply Z_mod_plus_full.
    + rewrite Hbuffers. do 2 f_equal. lia.
Qed.

(** 130 documents on the shard of [SingleShard]: three slices. *)
Lemma AllocateDocument_times_fills_slices_130 :
  exists handles sh' h',
    Shard.AllocateDocument_times 130 SingleShard.env 0
                                 SingleShard.shard SingleShard.heap
    = Some (Returned handles, sh', h') /\
    Z.of_nat (length (Shard.m_sliceBuffers sh')) = 3.
Proof.
  destruct (AllocateDocument_times_fills_slices
              130 SingleShard.env 0 SingleShard.shard SingleShard.heap)
    as (handles & sh' & h' & Hrun & _ & _ & Hbuffers).
  - split; reflexivity.
  - reflexivity.
  - reflexivity.
  - exists handles, sh', h'. split; [exact Hrun|].
    rewrite Hbuffers. reflexivity.
Defined.

(** ** Shard: facts *)

Lemma bitOf_range d docIndex : 0 <= RowTableDescriptor.bitOf d docIndex < 8.
Proof.
  unfold RowTableDescriptor.bitOf.
  change 7 with (Z.ones 3). rewrite Z.land_ones by lia.
  change (2 ^ 3) with 8. apply Z.mod_pos_bound. lia.
Qed.

(** [ClearBit] turns off the bit it addresses and leaves the other bits of
    the bytes of the buffer as they were. *)
Lemma ClearBit_testbit d buffer row docIndex offset bit :
  0 <= bit < 8 ->
  Z.testbit (RowTableDescriptor.ClearBit d buffer row docIndex offset) bit
  = Z.testbit (buffer offset) bit
    && negb ((offset =? RowTableDescriptor.byteOf d row docIndex)
             && (bit =? RowTableDescriptor.bitOf d docIndex)).
Proof.
  intros Hbit. unfold RowTableDescriptor.ClearBit, store_byte.
  pose proof (bitOf_range d docIndex) as Hrange.
  destruct (Z.eqb_spec offset (RowTableDescriptor.byteOf d row docIndex))
    as [->|_].
  - rewrite Z.land_spec, Z.lxor_spec, Z.shiftl_1_l.
    rewrite Z.pow2_bits_eqb by lia.
    change 255 with (Z.ones 8). rewrite Z.ones_spec_low by lia.
    rewrite (Z.eqb_sym bit). cbn [andb xorb]. reflexivity.
  - rewrite andb_true_r. reflexivity.
Qed.

(** X15. [Shard::AssertFact] throws a RecoverableError and leaves the
    slice buffer alone when the term of the fact has no row or more than
    one. When it has one row, whose rank has a table, the call returns;
    [GetBit] at the row and the DocIndex is then the value asserted, the
    latest assertion overriding the ones before it, and every other bit
    of the bytes of the buffer is as it was. *)
Theorem AssertFact_cases
    (fact : Z) (value : bool) (index : Z) (buffer : SliceBuffer)
    (sh : Shard.t) :
  let rows := RowIdSequence (Shard.m_termTable sh) (mkTerm fact 0 0 1) in
  (rows = [] ->
   Shard.AssertFact fact value index buffer sh
   = Some (Thrown (RecoverableError
                     "Shard::AssertFact: expected at least one row."),
           buffer)) /\
  (forall first second rest,
     rows = first :: second :: rest ->
     Shard.AssertFact fact value index buffer sh
     = Some (Thrown (RecoverableError
                       "Shard::AssertFact: expected no more than one row."),
             buffer)) /\
  (forall row rowTable,
     rows = [row] ->
     0 <= GetRank row ->
     Shard.m_rowTables sh !! Z.to_nat (GetRank row) = Some rowTable ->
     exists buffer',
       Shard.AssertFact fact value index buffer sh
       = Some (Returned tt, buffer') /\
       RowTableDescriptor.GetBit rowTable buffer' (GetIndex row) index
       = value /\
       (forall value' buffer'',
          Shard.AssertFact fact value' index buffer' sh
          = Some (Returned tt, buffer'') ->
          RowTableDescriptor.GetBit rowTable buffer'' (GetIndex row) index
          = value') /\
       forall offset bit,
         0 <= bit < 8 ->
         offset <> RowTableDescriptor.byteOf rowTable (GetIndex row) index \/
         bit <> RowTableDescriptor.bitOf rowTable index ->
         Z.testbit (buffer' offset) bit = Z.testbit (buffer offset) bit).
Proof.
  intros rows. subst rows. unfold Shard.AssertFact.
  split; [intros ->; reflexivity|].
  split; [intros first second rest ->; reflexivity|].
  intros row rowTable Hrows Hrank Htable. rewrite Hrows.
  destruct (Z.ltb_spec (GetRank row) 0) as [|_]; [lia|].
  rewrite Htable.
  pose proof (bitOf_range rowTable index) as Hbit.
  assert (Hget : forall (value0 : bool) buffer0,
            RowTableDescriptor.GetBit
              rowTable
              (if value0
               then RowTableDescriptor.SetBit rowTable buffer0
                                              (GetIndex row) index
               else RowTableDescriptor.ClearBit rowTable buffer0
                                                (GetIndex row) index)
              (GetIndex row) index
            = value0).
  { intros value0 buffer0. unfold RowTableDescriptor.GetBit.
    destruct value0.
    - rewrite SetBit_testbit, !Z.eqb_refl. apply orb_true_r.
    - rewrite ClearBit_testbit, !Z.eqb_refl by exact Hbit.
      apply andb_false_r. }
  eexists. split; [reflexivity|].
  split; [apply Hget|].
  split.
  { intros value' buffer'' H. injection H as <-. apply Hget. }
  intros offset bit Hrange Hother.
  assert (Hmiss :
            (offset =? RowTableDescriptor.byteOf rowTable (GetIndex row) index)
            && (bit =? RowTableDescriptor.bitOf rowTable index) = false).
  { apply andb_false_iff.
    destruct Hother as [H|H]; [left|right]; apply Z.eqb_neq; exact H. }
  destruct value.
  - rewrite SetBit_testbit, Hmiss. apply orb_false_r.
  - rewrite ClearBit_testbit, Hmiss by exact Hrange. apply andb_true_r.
Qed.

(** ** Ingestor: adding, finding and deleting a document *)

Section IngestorDelete.

Import Ingestor.

Context {Index : Type}.
Variable collaborators : Collaborators Index.

Lemma Contains_lookup id (st : Ingestor.t Index) :
  Contains id st = bool_decide (is_Some (m_documentMap st !! id)).
Proof.
  unfold Contains, DocumentMap_Find.
  destruct (m_documentMap st !! id) as [location|].
  - symmetry. apply bool_decide_eq_true_2. eauto.
  - symmetry. apply bool_decide_eq_false_2. intros [location H].
    discriminate H.
Qed.

Lemma Delete_missing RequestToken id st index1 :
  RequestToken (m_index st) = Some (Returned tt, index1) ->
  m_documentMap st !! id = None ->
  Delete collaborators RequestToken id st
  = Some (Returned false,
          {| m_documentCount := m_documentCount st;
             m_histogram := m_histogram st;
             m_documentMap := m_documentMap st;
             m_index := index1;
             m_log := m_log st;
             calls := calls st |}).
Proof.
  intros Htoken Hmissing.
  unfold Delete, bind, run_operation, documentMap_Find, DocumentMap_Find, ret.
  rewrite Htoken. cbn [m_documentMap]. rewrite Hmissing. reflexivity.
Qed.

Lemma Delete_found RequestToken id st index1 location r index2 :
  RequestToken (m_index st) = Some (Returned tt, index1) ->
  m_documentMap st !! id = Some location ->
  Expire collaborators location index1 = Some (r, index2) ->
  Delete collaborators RequestToken id st
  = Some (match r with
          | Returned _ => Returned true
          | Thrown e => Thrown e
          end,
          {| m_documentCount := m_documentCount st;
             m_histogram := m_histogram st;
             m_documentMap := delete id (m_documentMap st);
             m_index := index2;
             m_log := m_log st;
             calls := calls st ++ [CallExpire location] |}).
Proof.
  intros Htoken Hfound Hexpire.
  unfold Delete, bind, run_operation, documentMap_Find, DocumentMap_Find,
    documentMap_Delete, DocumentMap_Delete, modify, call, ret.
  rewrite Htoken. cbn [m_documentMap]. rewrite Hfound.
  cbn [m_index]. rewrite Hexpire.
  destruct r as [[]|e]; reflexivity.
Qed.

Lemma Add_returns id document st handle index1 index2 index3 full index4 :
  AllocateDocument collaborators
                   (GetShard collaborators (GetPostingCount document)) id
                   (m_index st)
  = Some (Returned handle, index1) ->
  Ingest document handle index1 = Some (Returned tt, index2) ->
  Activate collaborators handle index2 = Some (Returned tt, index3) ->
  CommitDocument collaborators handle index3 = Some (Returned full, index4) ->
  m_documentMap st !! DocumentHandleInternal.m_id handle = None ->
  Add collaborators id document st
  = Some (Returned tt,
          {| m_documentCount := wrap (m_documentCount st + 1);
             m_histogram :=
               Histogram_AddDocument (GetPostingCount document)
                                     (m_histogram st);
             m_documentMap :=
               <[DocumentHandleInternal.m_id handle := handle]>
                 (m_documentMap st);
             m_index := index4;
             m_log := m_log st;
             calls :=
               calls st
               ++ [CallAllocateDocument
                     (GetShard collaborators (GetPostingCount document)) id;
                   CallIngest handle; CallActivate handle;
                   CallCommitDocument handle; CallDocumentMapAdd handle] |}).
Proof.
  intros Hallocate Hingest Hactivate Hcommit Hfresh.
  unfold Add, bind, try_catch, call, modify, throw, ret, documentMap_Add,
    DocumentMap_Add, LogB, increment_documentCount, histogram_AddDocument.
  cbn [m_index m_documentMap m_documentCount m_histogram m_log calls].
  rewrite Hallocate. cbn. rewrite Hingest. cbn. rewrite Hactivate. cbn.
  rewrite Hcommit. cbn. rewrite Hfresh.
  rewrite <- !app_assoc. reflexivity.
Qed.

End IngestorDelete.

(** X16. [Ingestor::Delete] of an id that is not in the DocumentMap
    returns false without an error and without calling [Expire]; the
    DocumentMap, the document count and the calls made are as before. For
    an id in the map it removes the mapping and then calls [Expire] on
    the location found: the id is no longer contained, also when [Expire]
    throws (the exception reaches the caller and the mapping is not put
    back), the other ids are contained as before, and the document count
    is not decremented. *)
Theorem Delete_outcome {Index : Type}
    (collaborators : Ingestor.Collaborators Index)
    (RequestToken : @Ingestor.Operation Index unit) (id : Z)
    (st : Ingestor.t Index) (index1 : Index) :
  RequestToken (Ingestor.m_index st) = Some (Returned tt, index1) ->
  match Ingestor.m_documentMap st !! id with
  | None =>
      exists st',
        Ingestor.Delete collaborators RequestToken id st
        = Some (Returned false, st') /\
        Ingestor.m_documentMap st' = Ingestor.m_documentMap st /\
        Ingestor.m_documentCount st' = Ingestor.m_documentCount st /\
        Ingestor.calls st' = Ingestor.calls st /\
        Ingestor.m_index st' = index1
  | Some location =>
      forall r index2,
        Ingestor.Expire collaborators location index1 = Some (r, index2) ->
        exists st',
          Ingestor.Delete collaborators RequestToken id st
          = Some (match r with
                  | Returned _ => Returned true
                  | Thrown e => Thrown e
                  end, st') /\
          Ingestor.Contains id st' = false /\
          (forall other, other <> id ->
             Ingestor.Contains other st' = Ingestor.Contains other st) /\
          Ingestor.m_documentCount st' = Ingestor.m_documentCount st /\
          Ingestor.calls st'
          = Ingestor.calls st ++ [Ingestor.CallExpire location] /\
          Ingestor.m_index st' = index2
  end.
Proof.
  intros Htoken.
  destruct (Ingestor.m_documentMap st !! id) as [location|] eqn:Hlookup.
  - intros r index2 Hexpire.
    rewrite (Delete_found collaborators RequestToken id st index1 location
               r index2 Htoken Hlookup Hexpire).
    eexists. split; [reflexivity|].
    unfold Ingestor.Contains, Ingestor.DocumentMap_Find. cbn.
    split; [rewrite lookup_delete_eq; reflexivity|].
    split; [|repeat split].
    intros other Hother. rewrite lookup_delete_ne by congruence. reflexivity.
  - rewrite (Delete_missing collaborators RequestToken id st index1
               Htoken Hlookup).
    eexists. split; [reflexivity|]. repeat split.
Qed.

(** [Delete(42)] on the empty index of [SingleShard] returns false. *)
Lemma Delete_outcome_absent :
  exists st',
    Ingestor.Delete SingleShard.collaborators
                    (fun index => Some (Returned tt, index)) 42
                    SingleShard.ingestor
    = Some (Returned false, st').
Proof.
  pose proof (Delete_outcome
                SingleShard.collaborators
                (fun index => Some (Returned tt, index)) 42
                SingleShard.ingestor _ eq_refl) as H.
  cbn [Ingestor.m_documentMap SingleShard.ingestor] in H.
  rewrite lookup_empty in H.
  destruct H as (st' & Hrun & _). exists st'. exact Hrun.
Defined.

(** X17. When the collaborators of [Ingestor::Add] return and the id of
    the handle is not in the DocumentMap, [Add] returns after five calls,
    in the order AllocateDocument, Ingest, Activate, CommitDocument,
    DocumentMap insertion; the id is then contained and mapped to the
    handle that [AllocateDocument] returned, the other ids are contained
    as before, and nothing was logged. *)
Theorem Add_then_Contains {Index : Type}
    (collaborators : Ingestor.Collaborators Index) (id : Z)
    (document : Ingestor.IDocument Index) (st : Ingestor.t Index)
    (handle : DocumentHandleInternal.t) (index1 index2 index3 : Index)
    (full : bool) (index4 : Index) :
  let shardId :=
    Ingestor.GetShard collaborators (Ingestor.GetPostingCount document) in
  Ingestor.AllocateDocument collaborators shardId id (Ingestor.m_index st)
  = Some (Returned handle, index1) ->
  Ingestor.Ingest document handle index1 = Some (Returned tt, index2) ->
  Ingestor.Activate collaborators handle index2 = Some (Returned tt, index3) ->
  Ingestor.CommitDocument collaborators handle index3
  = Some (Returned full, index4) ->
  Ingestor.Contains (DocumentHandleInternal.m_id handle) st = false ->
  exists st',
    Ingestor.Add collaborators id document st = Some (Returned tt, st') /\
    Ingestor.Contains (DocumentHandleInternal.m_id handle) st' = true /\
    Ingestor.DocumentMap_Find (DocumentHandleInternal.m_id handle)
                              (Ingestor.m_documentMap st')
    = Some handle /\
    (forall other, other <> DocumentHandleInternal.m_id handle ->
       Ingestor.Contains other st' = Ingestor.Contains other st) /\
    Ingestor.calls st'
    = Ingestor.calls st
      ++ [Ingestor.CallAllocateDocument shardId id;
          Ingestor.CallIngest handle; Ingestor.CallActivate handle;
          Ingestor.CallCommitDocument handle;
          Ingestor.CallDocumentMapAdd handle] /\
    Ingestor.m_log st' = Ingestor.m_log st /\
    Ingestor.m_index st' = index4.
Proof.
  intros shardId Hallocate Hingest Hactivate Hcommit Hfresh.
  assert (Hlookup : Ingestor.m_documentMap st
                      !! DocumentHandleInternal.m_id handle = None).
  { unfold Ingestor.Contains, Ingestor.DocumentMap_Find in Hfresh.
    destruct (Ingestor.m_documentMap st !! DocumentHandleInternal.m_id handle);
      [discriminate Hfresh|reflexivity]. }
  rewrite (Add_returns collaborators id document st handle index1 index2
             index3 full index4 Hallocate Hingest Hactivate Hcommit Hlookup).
  eexists. split; [reflexivity|].
  unfold Ingestor.Contains, Ingestor.DocumentMap_Find. cbn.
  rewrite lookup_insert_eq.
  split; [reflexivity|]. split; [reflexivity|].
  split; [|repeat split].
  intros other Hother. rewrite lookup_insert_ne by congruence. reflexivity.
Qed.

(** The first document added to the ingestor of [SingleShard]. *)
Lemma Add_then_Contains_first :
  exists st',
    Ingestor.Add SingleShard.collaborators 7
                 (SingleShard.document [mkTerm 5 0 1 0]) SingleShard.ingestor
    = Some (Returned tt, st') /\
    Ingestor.Contains 7 st' = true.
Proof.
  pose (document := SingleShard.document [mkTerm 5 0 1 0]).
  pose (handle := DocumentHandleInternal.mk 4096 0 7).
  pose (after :=
          fun (A : Type) (op : option (Result A * SingleShard.Index)) =>
            match op with
            | Some (_, index) => index
            | None => Ingestor.m_index SingleShard.ingestor
            end).
  pose (index1 :=
          after _ (SingleShard.AllocateDocument
                     0 7 (Ingestor.m_index SingleShard.ingestor))).
  pose (index2 := after _ (Ingestor.Ingest document handle index1)).
  pose (index3 := after _ (SingleShard.Activate handle index2)).
  pose (index4 := after _ (SingleShard.CommitDocument handle index3)).
  destruct (Add_then_Contains
              SingleShard.collaborators 7 document SingleShard.ingestor
              handle index1 index2 index3 false index4)
    as (st' & Hrun & Hcontains & _).
  - vm_compute. reflexivity.
  - vm_compute. reflexivity.
  - vm_compute. reflexivity.
  - vm_compute. reflexivity.
  - reflexivity.
  - exists st'. split; [exact Hrun|exact Hcontains].
Defined.

(** X18. [Add] followed by [Delete] of the same id: when the collaborators
    return, [Delete] finds the handle that [Add] stored and returns true,
    the id is no longer contained and the DocumentMap is the one before
    [Add]; the document count stays incremented, [Delete] leaving it
    alone. *)
Theorem Add_then_Delete {Index : Type}
    (collaborators : Ingestor.Collaborators Index)
    (RequestToken : @Ingestor.Operation Index unit) (id : Z)
    (document : Ingestor.IDocument Index) (st : Ingestor.t Index)
    (handle : DocumentHandleInternal.t) (index1 index2 index3 : Index)
    (full : bool) (index4 index5 index6 : Index) :
  let shardId :=
    Ingestor.GetShard collaborators (Ingestor.GetPostingCount document) in
  Ingestor.AllocateDocument collaborators shardId id (Ingestor.m_index st)
  = Some (Returned handle, index1) ->
  Ingestor.Ingest document handle index1 = Some (Returned tt, index2) ->
  Ingestor.Activate collaborators handle index2 = Some (Returned tt, index3) ->
  Ingestor.CommitDocument collaborators handle index3
  = Some (Returned full, index4) ->
  Ingestor.Contains (DocumentHandleInternal.m_id handle) st = false ->
  RequestToken index4 = Some (Returned tt, index5) ->
  Ingestor.Expire collaborators handle index5 = Some (Returned tt, index6) ->
  exists st1 st2,
    Ingestor.Add collaborators id document st = Some (Returned tt, st1) /\
    Ingestor.Delete collaborators RequestToken
                    (DocumentHandleInternal.m_id handle) st1
    = Some (Returned true, st2) /\
    Ingestor.Contains (DocumentHandleInternal.m_id handle) st2 = false /\
    Ingestor.m_documentMap st2 = Ingestor.m_documentMap st /\
    Ingestor.m_documentCount st2 = wrap (Ingestor.m_documentCount st + 1) /\
    last (Ingestor.calls st2) = Some (Ingestor.CallExpire handle).
Proof.
  intros shardId Hallocate Hingest Hactivate Hcommit Hfresh Htoken Hexpire.
  assert (Hlookup : Ingestor.m_documentMap st
                      !! DocumentHandleInternal.m_id handle = None).
  { unfold Ingestor.Contains, Ingestor.DocumentMap_Find in Hfresh.
    destruct (Ingestor.m_documentMap st !! DocumentHandleInternal.m_id handle);
      [discriminate Hfresh|reflexivity]. }
  rewrite (Add_returns collaborators id document st handle index1 index2
             index3 full index4 Hallocate Hingest Hactivate Hcommit Hlookup).
  eexists _, _. split; [reflexivity|].
  split.
  { apply (Delete_found collaborators RequestToken
             (DocumentHandleInternal.m_id handle) _ index5 handle
             (Returned tt) index6).
    - exact Htoken.
    - cbn. apply lookup_insert_eq.
    - exact Hexpire. }
  unfold Ingestor.Contains, Ingestor.DocumentMap_Find. cbn.
  rewrite lookup_delete_eq.
  split; [reflexivity|].
  split; [apply delete_insert_id; exact Hlookup|].
  split; [reflexivity|]. apply last_snoc.
Qed.

(** Document 7 added to the ingestor of [SingleShard], then deleted. *)
Lemma Add_then_Delete_first :
  exists st1 st2,
    Ingestor.Add SingleShard.collaborators 7
                 (SingleShard.document [mkTerm 5 0 1 0]) SingleShard.ingestor
    = Some (Returned tt, st1) /\
    Ingestor.Delete SingleShard.collaborators
                    (fun index => Some (Returned tt, index)) 7 st1
    = Some (Returned true, st2) /\
    Ingestor.Contains 7 st2 = false /\
    Ingestor.m_documentCount st2 = 1.
Proof.
  pose (document := SingleShard.document [mkTerm 5 0 1 0]).
  pose (handle := DocumentHandleInternal.mk 4096 0 7).
  pose (after :=
          fun (A : Type) (op : option (Result A * SingleShard.Index)) =>
            match op with
            | Some (_, index) => index
            | None => Ingestor.m_index SingleShard.ingestor
            end).
  pose (index1 :=
          after _ (SingleShard.AllocateDocument
                     0 7 (Ingestor.m_index SingleShard.ingestor))).
  pose (index2 := after _ (Ingestor.Ingest document handle index1)).
  pose (index3 := after _ (SingleShard.Activate handle index2)).
  pose (index4 := after _ (SingleShard.CommitDocument handle index3)).
  pose (index6 := after _ (SingleShard.Expire handle index4)).
  destruct (Add_then_Delete
              SingleShard.collaborators
              (fun index => Some (Returned tt, index)) 7 document
              SingleShard.ingestor
              handle index1 index2 index3 false index4 index4 index6)
    as (st1 & st2 & Hadd & Hdelete & Hcontains & _ & Hcount & _).
  - vm_compute. reflexivity.
  - vm_compute. reflexivity.
  - vm_compute. reflexivity.
  - vm_compute. reflexivity.
  - reflexivity.
  - reflexivity.
  - vm_compute. reflexivity.
  - exists st1, st2. split; [exact Hadd|]. split; [exact Hdelete|].
    split; [exact Hcontains|]. rewrite Hcount. reflexivity.
Defined.

(** ** QueryParser: what every parsing function keeps *)

Section ParserInvariant.

Import QueryParser.

(** A property of the state of the parser that [PeekChar] and [GetChar],
    the two functions that touch the state, keep. *)
Variable I : QueryParser.t -> Prop.

Let preserves {A : Type} (m : P A) : Prop :=
  forall s r s', I s -> m s = Some (r, s') -> I s'.

Hypothesis I_PeekChar : preserves PeekChar.
Hypothesis I_GetChar : preserves GetChar.

Lemma preserves_ret {A : Type} (a : A) : preserves (ret a).
Proof. intros s r s' Hs H. inversion H; subst. exact Hs. Qed.

Lemma preserves_throw {A : Type} (e : Exn) : preserves (@throw A e).
Proof. intros s r s' Hs H. inversion H; subst. exact Hs. Qed.

Lemma preserves_out_of_fuel {A : Type} : preserves (@out_of_fuel A).
Proof. intros s r s' Hs H. discriminate H. Qed.

Lemma preserves_currentPosition : preserves currentPosition.
Proof. intros s r s' Hs H. inversion H; subst. exact Hs. Qed.

Lemma preserves_bind {A B : Type} (m : P A) (k : A -> P B) :
  preserves m -> (forall a, preserves (k a)) -> preserves (bind m k).
Proof.
  intros Hm Hk s r s' Hs H. unfold bind in H.
  destruct (m s) as [[[a|e] s1]|] eqn:Hms; [| |discriminate H].
  - exact (Hk a s1 r s' (Hm _ _ _ Hs Hms) H).
  - inversion H; subst. exact (Hm _ _ _ Hs Hms).
Qed.

Lemma preserves_if {A : Type} (b : bool) (m1 m2 : P A) :
  preserves m1 -> preserves m2 -> preserves (if b then m1 else m2).
Proof. destruct b; intros; assumption. Qed.

(** The steps that show that a function built from the ones above keeps
    the property. *)
Ltac preserve :=
  repeat first
    [ apply preserves_ret
    | apply preserves_throw
    | apply preserves_out_of_fuel
    | apply preserves_currentPosition
    | apply I_PeekChar
    | apply I_GetChar
    | assumption
    | match goal with H : forall _, preserves _ |- _ => apply H end
    | apply preserves_if
    | apply preserves_bind; [|intros ?]
    | match goal with
      | |- preserves (match ?x with [] => _ | _ :: _ => _ end) => destruct x
      end ].

Lemma preserves_GetWithEscape : preserves GetWithEscape.
Proof. unfold GetWithEscape. preserve. Qed.

Lemma preserves_SkipWhite (fuel : nat) : preserves (SkipWhite fuel).
Proof.
  induction fuel as [|fuel IH]; cbn [SkipWhite]; preserve.
Qed.

Lemma preserves_ExpectDelimeter (c : Z) : preserves (ExpectDelimeter c).
Proof. unfold ExpectDelimeter. preserve. Qed.

Lemma preserves_ParseToken_loop (fuel : nat) :
  forall builder, preserves (ParseToken_loop fuel builder).
Proof.
  pose proof preserves_GetWithEscape.
  induction fuel as [|fuel IH]; intros builder; cbn [ParseToken_loop];
    preserve.
Qed.

Lemma preserves_ParseToken (fuel : nat) : preserves (ParseToken fuel).
Proof.
  unfold ParseToken. pose proof (preserves_ParseToken_loop fuel). preserve.
Qed.

Lemma preserves_ParsePhrase_loop (fuel : nat) :
  forall grams, preserves (ParsePhrase_loop fuel grams).
Proof.
  pose proof (preserves_ExpectDelimeter c_quote).
  induction fuel as [|fuel IH]; intros grams; cbn [ParsePhrase_loop].
  - preserve.
  - pose proof (preserves_SkipWhite fuel).
    pose proof (preserves_ParseToken fuel).
    preserve.
Qed.

Lemma preserves_ParsePhrase (fuel : nat) (streamId : Z) :
  preserves (ParsePhrase fuel streamId).
Proof.
  unfold ParsePhrase.
  pose proof (preserves_ExpectDelimeter c_quote).
  pose proof (preserves_ParsePhrase_loop fuel).
  preserve.
Qed.

Lemma preserves_ParseTerm (fuel : nat) : preserves (ParseTerm fuel).
Proof.
  unfold ParseTerm.
  pose proof (preserves_SkipWhite fuel).
  pose proof (preserves_ParseToken fuel).
  pose proof (preserves_ParsePhrase fuel).
  preserve.
Qed.

Lemma preserves_productions (fuel : nat) :
  preserves (ParseOr fuel) /\
  (forall children, preserves (ParseOr_loop fuel children)) /\
  preserves (ParseAnd fuel) /\
  (forall children, preserves (ParseAnd_loop fuel children)) /\
  preserves (ParseSimple fuel).
Proof.
  induction fuel as [|fuel (IHor & IHorl & IHand & IHandl & IHsimple)].
  - repeat split; intros; apply preserves_out_of_fuel.
  - pose proof (preserves_SkipWhite fuel).
    pose proof (preserves_ExpectDelimeter 41).
    pose proof (preserves_ParseTerm fuel).
    split; [|split; [|split; [|split]]].
    + cbn [ParseOr]. preserve.
    + intros children. cbn [ParseOr_loop]. preserve.
    + cbn [ParseAnd]. preserve.
    + intros children. cbn [ParseAnd_loop]. preserve.
    + cbn [ParseSimple]. preserve.
Qed.

Lemma preserves_Parse (fuel : nat) : preserves (Parse fuel).
Proof. exact (proj1 (preserves_productions fuel)). Qed.

End ParserInvariant.

(** ** QueryParser: the position counts the characters consumed *)

Section ParserAccounting.

Import QueryParser.

Variable input : list Z.
Hypothesis input_fits : Z.of_nat (length input) < c_sizeModulus.

(** The characters before [m_currentPosition] have been consumed and none
    of them is NUL; the rest of the input is the character held in
    [m_nextChar], when there is one, and what is left of the stream. At
    the end of the stream the character held is the NUL that [PeekChar]
    puts there. *)
Let accounted (s : QueryParser.t) : Prop :=
  exists consumed,
    Forall (fun c => c <> 0) consumed /\
    m_currentPosition s = Z.of_nat (length consumed) /\
    if m_haveChar s then
      input = consumed ++ m_nextChar s :: m_input s \/
      (m_nextChar s = 0 /\ m_input s = [] /\ input = consumed)
    else input = consumed ++ m_input s.

Lemma accounted_init : accounted (init input).
Proof. exists []. split; [constructor|]. split; reflexivity. Qed.

Lemma accounted_PeekChar s r s' :
  accounted s -> PeekChar s = Some (r, s') -> accounted s'.
Proof.
  intros (consumed & Hnz & Hpos & Hin) H. unfold PeekChar in H.
  destruct (m_haveChar s) eqn:Hhave.
  - injection H as <- <-. exists consumed. rewrite Hhave. auto.
  - destruct (m_input s) as [|temp rest] eqn:Hrest;
      injection H as <- <-; exists consumed; cbn;
      (split; [exact Hnz|]); (split; [exact Hpos|]).
    + right. rewrite app_nil_r in Hin. auto.
    + left. exact Hin.
Qed.

Lemma accounted_GetChar s r s' :
  accounted s -> GetChar s = Some (r, s') -> accounted s'.
Proof.
  intros Hs H. unfold GetChar, bind in H.
  destruct (PeekChar s) as [[[c|e] s1]|] eqn:Hpeek; [| |discriminate H].
  2:{ injection H as <- <-. exact (accounted_PeekChar _ _ _ Hs Hpeek). }
  pose proof (accounted_PeekChar _ _ _ Hs Hpeek) as Hs1.
  assert (Hlook : m_haveChar s1 = true /\ m_nextChar s1 = c).
  { unfold PeekChar in Hpeek.
    destruct (m_haveChar s) eqn:Hhave.
    - injection Hpeek as <- <-. auto.
    - destruct (m_input s); injection Hpeek as <- <-; auto. }
  destruct Hlook as [Hhave Hnext].
  destruct (c =? 0) eqn:Hc.
  - cbn in H. injection H as <- <-. exact Hs1.
  - cbn in H. injection H as <- <-.
    destruct Hs1 as (consumed & Hnz & Hpos & Hin).
    rewrite Hhave, Hnext in Hin.
    apply Z.eqb_neq in Hc.
    destruct Hin as [Hin|(Hzero & _)]; [|contradiction].
    exists (consumed ++ [c]). cbn.
    split; [apply Forall_app; split; [exact Hnz|repeat constructor; exact Hc]|].
    assert (Hlen : (length (consumed ++ [c]) <= length input)%nat).
    { rewrite Hin, !length_app. cbn. lia. }
    split.
    + rewrite Hpos. rewrite length_app in *. cbn in *.
      rewrite wrap_small; lia.
    + rewrite <- app_assoc. exact Hin.
Qed.

Lemma accounted_Parse fuel s r s' :
  accounted s -> Parse fuel s = Some (r, s') -> accounted s'.
Proof.
  exact (preserves_Parse accounted accounted_PeekChar accounted_GetChar
           fuel s r s').
Qed.

Lemma accounted_position s :
  accounted s ->
  let position := Z.to_nat (m_currentPosition s) in
  m_currentPosition s = Z.of_nat position /\
  (position <= length input)%nat /\
  Forall (fun c => c <> 0) (take position input) /\
  if m_haveChar s then
    m_nextChar s :: m_input s = drop position input \/
    (m_nextChar s = 0 /\ m_input s = [] /\ position = length input)
  else m_input s = drop position input.
Proof.
  intros (consumed & Hnz & Hpos & Hin) position.
  assert (Hp : position = length consumed) by (unfold position; lia).
  rewrite Hp. split; [exact Hpos|].
  destruct (m_haveChar s).
  - destruct Hin as [Hin|(Hzero & Hnil & Hin)]; rewrite Hin.
    + split; [rewrite length_app; lia|].
      split; [rewrite take_app_length; exact Hnz|].
      left. rewrite drop_app_length. reflexivity.
    + split; [lia|]. split; [rewrite firstn_all; exact Hnz|].
      right. auto.
  - rewrite Hin. split; [rewrite length_app; lia|].
    split; [rewrite take_app_length; exact Hnz|].
    rewrite drop_app_length. reflexivity.
Qed.

End ParserAccounting.

(** X19. Whatever [Parse] does with an input shorter than 2^64
    characters, when it stops [m_currentPosition] is the number of
    characters it has consumed: these are a prefix of the input with no
    NUL byte in it, and the rest of the input is the character held in
    [m_nextChar] followed by what is left of the stream, [m_nextChar]
    being the NUL that stands for the end when the input is used up. *)
Theorem Parse_position_counts_consumed (input : list Z) (fuel : nat)
    (r : Result QueryParser.TermMatchNode) (s' : QueryParser.t) :
  Z.of_nat (length input) < c_sizeModulus ->
  QueryParser.Parse fuel (QueryParser.init input) = Some (r, s') ->
  let position := Z.to_nat (QueryParser.m_currentPosition s') in
  QueryParser.m_currentPosition s' = Z.of_nat position /\
  (position <= length input)%nat /\
  Forall (fun c => c <> 0) (take position input) /\
  if QueryParser.m_haveChar s' then
    QueryParser.m_nextChar s' :: QueryParser.m_input s'
    = drop position input \/
    (QueryParser.m_nextChar s' = 0 /\ QueryParser.m_input s' = [] /\
     position = length input)
  else QueryParser.m_input s' = drop position input.
Proof.
  intros Hfits H.
  apply (accounted_position input).
  exact (accounted_Parse input Hfits fuel _ r s' (accounted_init input) H).
Qed.

(** X19 at the query [a|b c]: the five characters are consumed, and none
    of them is NUL. *)
Lemma Parse_position_counts_consumed_or :
  exists r s',
    QueryParser.Parse 16 (QueryParser.init (QueryParser.chars "a|b c"))
    = Some (r, s') /\
    QueryParser.m_currentPosition s' = 5 /\
    Forall (fun c => c <> 0)
      (take (Z.to_nat (QueryParser.m_currentPosition s'))
         (QueryParser.chars "a|b c")).
Proof.
  eexists _, _.
  split; [vm_compute; reflexivity|].
  split; [vm_compute; reflexivity|].
  destruct (Parse_position_counts_consumed (QueryParser.chars "a|b c") 16
              _ _ ltac:(vm_compute; reflexivity)
              ltac:(vm_compute; reflexivity)) as (_ & _ & H & _).
  exact H.
Defined.

(** X20. An exception of [Parse] on an input shorter than 2^64 characters
    is a ParseError, and unless it is the one of a bad escape its
    position lies within the input, at most at its end, with no NUL byte
    before it. *)
Theorem Parse_error_position_within_input (input : list Z) (fuel : nat)
    (e : Exn) (s' : QueryParser.t) :
  Z.of_nat (length input) < c_sizeModulus ->
  QueryParser.Parse fuel (QueryParser.init input) = Some (Thrown e, s') ->
  exists message position,
    e = ParseError message position /\
    (message = "Bad escape char"%string \/
     (0 <= position <= Z.of_nat (length input) /\
      Forall (fun c => c <> 0) (take (Z.to_nat position) input))).
Proof.
  intros Hfits H.
  destruct (Parse_errors_positioned fuel _ e s' H)
    as (message & position & -> & Hposition).
  exists message, position. split; [reflexivity|].
  destruct Hposition as [Hbad| ->]; [left; exact Hbad|right].
  destruct (accounted_position input s'
              (accounted_Parse input Hfits fuel _ _ s'
                 (accounted_init input) H))
    as (Hpos & Hle & Hnz & _).
  split; [lia|exact Hnz].
Qed.

(** X20 at the query [a&]: the token after the ampersand is missing, and
    the error is at the end of the input. *)
Lemma Parse_error_position_within_input_missing :
  exists e s',
    QueryParser.Parse 16 (QueryParser.init (QueryParser.chars "a&"))
    = Some (Thrown e, s') /\
    e = ParseError "Expected token." 2 /\
    exists message position,
      e = ParseError message position /\
      (message = "Bad escape char"%string \/
       (0 <= position <= Z.of_nat (length (QueryParser.chars "a&")) /\
        Forall (fun c => c <> 0)
          (take (Z.to_nat position) (QueryParser.chars "a&")))).
Proof.
  eexists _, _.
  split; [vm_compute; reflexivity|].
  split; [reflexivity|].
  eapply (Parse_error_position_within_input (QueryParser.chars "a&") 16);
    vm_compute; reflexivity.
Defined.

(** ** QueryParser: blank queries and escaped tokens *)

Section ParserRuns.

Import QueryParser.

Lemma isspace_not_NUL c : isspace c = true -> (c =? 0) = false.
Proof. unfold isspace. lia. Qed.

(** What [PeekChar] has read is given back: a function that starts with
    [PeekChar] does the same whether the character is still in the stream
    or already held. *)
Lemma PeekChar_held c more position held :
  PeekChar {| m_input := c :: more; m_currentPosition := position;
              m_haveChar := false; m_nextChar := held |}
  = Some (Returned c,
          {| m_input := more; m_currentPosition := position;
             m_haveChar := true; m_nextChar := c |}).
Proof. reflexivity. Qed.

Lemma PeekChar_again c more position :
  PeekChar {| m_input := more; m_currentPosition := position;
              m_haveChar := true; m_nextChar := c |}
  = Some (Returned c,
          {| m_input := more; m_currentPosition := position;
             m_haveChar := true; m_nextChar := c |}).
Proof. reflexivity. Qed.

Lemma PeekChar_end position held :
  PeekChar {| m_input := []; m_currentPosition := position;
              m_haveChar := false; m_nextChar := held |}
  = Some (Returned 0,
          {| m_input := []; m_currentPosition := position;
             m_haveChar := true; m_nextChar := 0 |}).
Proof. reflexivity. Qed.

Lemma GetChar_held c more position :
  (c =? 0) = false ->
  GetChar {| m_input := more; m_currentPosition := position;
             m_haveChar := true; m_nextChar := c |}
  = Some (Returned c,
          {| m_input := more; m_currentPosition := wrap (position + 1);
             m_haveChar := false; m_nextChar := c |}).
Proof.
  intros Hc. unfold GetChar, bind. rewrite PeekChar_again, Hc. reflexivity.
Qed.

Lemma SkipWhite_blank (blank : list Z) :
  forall (fuel : nat) (position held : Z),
    Forall (fun c => isspace c = true) blank ->
    (length blank < fuel)%nat ->
    0 <= position ->
    position + Z.of_nat (length blank) < c_sizeModulus ->
    SkipWhite fuel
      {| m_input := blank; m_currentPosition := position;
         m_haveChar := false; m_nextChar := held |}
    = Some (Returned tt,
            {| m_input := [];
               m_currentPosition := position + Z.of_nat (length blank);
               m_haveChar := true; m_nextChar := 0 |}).
Proof.
  induction blank as [|c blank IH]; intros fuel position held Hblank Hfuel
    Hposition Hfits;
    (destruct fuel as [|fuel]; [cbn in Hfuel; lia|]).
  - cbn [SkipWhite]. unfold bind. rewrite PeekChar_end.
    cbn. rewrite Z.add_0_r. reflexivity.
  - inversion Hblank as [|? ? Hc Hrest]; subst.
    cbn [SkipWhite]. unfold bind at 1. rewrite PeekChar_held, Hc.
    unfold bind at 1.
    rewrite (GetChar_held c blank position (isspace_not_NUL c Hc)).
    cbn [length] in *.
    rewrite (IH fuel (wrap (position + 1)) c Hrest ltac:(lia)
               ltac:(apply wrap_range)
               ltac:(rewrite wrap_small; lia)).
    rewrite wrap_small by lia.
    do 3 f_equal. lia.
Qed.

Lemma SkipWhite_held c more position fuel :
  isspace c = false ->
  SkipWhite (S fuel)
    {| m_input := more; m_currentPosition := position;
       m_haveChar := true; m_nextChar := c |}
  = Some (Returned tt,
          {| m_input := more; m_currentPosition := position;
             m_haveChar := true; m_nextChar := c |}).
Proof.
  intros Hc. cbn [SkipWhite]. unfold bind. rewrite PeekChar_again, Hc.
  reflexivity.
Qed.

(** The productions above a term pass a state in which a character other
    than a minus sign and an opening parenthesis is held on to
    [ParseTerm]. *)
Lemma ParseSimple_is_ParseTerm c more position fuel :
  isspace c = false -> (c =? 45) = false -> (c =? 40) = false ->
  ParseSimple (S (S fuel))
    {| m_input := more; m_currentPosition := position;
       m_haveChar := true; m_nextChar := c |}
  = ParseTerm (S fuel)
      {| m_input := more; m_currentPosition := position;
         m_haveChar := true; m_nextChar := c |}.
Proof.
  intros Hspace Hminus Hparen.
  cbn [ParseSimple]. unfold bind at 1.
  rewrite (SkipWhite_held c more position fuel Hspace).
  unfold bind at 1. rewrite PeekChar_again, Hminus, Hparen.
  reflexivity.
Qed.


Lemma bind_thrown {A B : Type} (m : P A) (k : A -> P B) s e s' :
  m s = Some (Thrown e, s') -> bind m k s = Some (Thrown e, s').
Proof. intros H. unfold bind. rewrite H. reflexivity. Qed.

Lemma bind_returned {A B : Type} (m : P A) (k : A -> P B) s a s' :
  m s = Some (Returned a, s') -> bind m k s = k a s'.
Proof. intros H. unfold bind. rewrite H. reflexivity. Qed.

(** The state at the end of the input, [position] characters consumed. *)
Local Abbreviation at_end position :=
  {| m_input := []; m_currentPosition := position;
     m_haveChar := true; m_nextChar := 0 |}.

Lemma ParseTerm_at_end position fuel :
  ParseTerm (S fuel) (at_end position)
  = Some (Thrown (ParseError "Expected token." position), at_end position).
Proof. reflexivity. Qed.

Lemma ParseSimple_at_end position fuel :
  ParseSimple (S (S fuel)) (at_end position)
  = Some (Thrown (ParseError "Expected token." position), at_end position).
Proof. reflexivity. Qed.



(** X21. A query that is empty or made of white space only is refused:
    [Parse] consumes it all and throws the ParseError "Expected token."
    with the length of the query as its position. *)
Theorem Parse_blank_query (blank : list Z) (fuel : nat) :
  Forall (fun c => QueryParser.isspace c = true) blank ->
  Z.of_nat (length blank) < c_sizeModulus ->
  (length blank + 4 <= fuel)%nat ->
  QueryParser.Parse fuel (QueryParser.init blank)
  = Some (Thrown (ParseError "Expected token." (Z.of_nat (length blank))),
          {| QueryParser.m_input := [];
             QueryParser.m_currentPosition := Z.of_nat (length blank);
             QueryParser.m_haveChar := true;
             QueryParser.m_nextChar := 0 |}).
Proof.
  intros Hblank Hfits Hfuel.
  destruct fuel as [|[|[|[|fuel]]]]; try lia.
  unfold Parse. cbn [ParseOr]. apply bind_thrown.
  cbn [ParseAnd]. apply bind_thrown.
  cbn [ParseSimple].
  erewrite bind_returned
    by (apply (SkipWhite_blank blank (S fuel) 0 0 Hblank); lia).
  rewrite Z.add_0_l.
  reflexivity.
Qed.

(** The characters that [GetWithEscape] accepts after a backslash. *)
Local Abbreviation special c :=
  (existsb (Z.eqb c) (chars "&|\()" ++ [c_quote] ++ chars ":-")).










End ParserRuns.

(** X21 at the query of two spaces. *)
Lemma Parse_blank_query_spaces :
  QueryParser.Parse 6 (QueryParser.init (QueryParser.chars "  "))
  = Some (Thrown (ParseError "Expected token." 2),
          {| QueryParser.m_input := [];
             QueryParser.m_currentPosition := 2;
             QueryParser.m_haveChar := true;
             QueryParser.m_nextChar := 0 |}).
Proof.
  apply (Parse_blank_query (QueryParser.chars "  ") 6).
  - repeat constructor.
  - vm_compute. reflexivity.
  - cbn. lia.
Defined.


(** ** QueryParser: parsing terminates *)

Section ParserTermination.

Import QueryParser.

(** The characters [GetChar] can still return: those left in the stream
    and the one held, unless it is NUL. *)
Let remaining (s : QueryParser.t) : nat :=
  if m_haveChar s && negb (m_nextChar s =? 0)
  then S (length (m_input s))
  else length (m_input s).

(** [m] returns or throws from [s], and when it returns it has consumed
    [least] characters or more. *)
Let consumes {A : Type} (m : P A) (s : QueryParser.t) (least : nat)
    : Prop :=
  exists r s',
    m s = Some (r, s') /\
    (remaining s' <= remaining s)%nat /\
    forall a, r = Returned a -> (remaining s' + least <= remaining s)%nat.

Lemma consumes_ret {A : Type} (a : A) s : consumes (ret a) s 0.
Proof. exists (Returned a), s. split; [reflexivity|]. split; intros; lia. Qed.

Lemma consumes_throw {A : Type} (e : Exn) s least :
  consumes (@throw A e) s least.
Proof.
  exists (Thrown e), s. split; [reflexivity|]. split; [lia|].
  intros a H. discriminate H.
Qed.

Lemma consumes_less {A : Type} (m : P A) s least least' :
  consumes m s least -> (least' <= least)%nat -> consumes m s least'.
Proof.
  intros (r & s' & H & Hle & Hret) Hless.
  exists r, s'. split; [exact H|]. split; [exact Hle|].
  intros a Ha. specialize (Hret a Ha). lia.
Qed.

Lemma consumes_bind {A B : Type} (m : P A) (k : A -> P B) s
    (least1 least2 : nat) :
  consumes m s least1 ->
  (forall a s1,
     m s = Some (Returned a, s1) ->
     (remaining s1 + least1 <= remaining s)%nat ->
     consumes (k a) s1 least2) ->
  consumes (bind m k) s (least1 + least2).
Proof.
  intros (r & s1 & H & Hle & Hret) Hk. unfold bind.
  destruct r as [a|e].
  - specialize (Hret a eq_refl).
    destruct (Hk a s1 H Hret) as (r2 & s2 & H2 & Hle2 & Hret2).
    exists r2, s2. rewrite H. split; [exact H2|]. split; [lia|].
    intros b Hb. specialize (Hret2 b Hb). lia.
  - exists (Thrown e), s1. rewrite H. split; [reflexivity|].
    split; [exact Hle|]. intros b Hb. discriminate Hb.
Qed.

Lemma consumes_currentPosition s : consumes currentPosition s 0.
Proof.
  exists (Returned (m_currentPosition s)), s.
  split; [reflexivity|]. split; intros; lia.
Qed.

Lemma consumes_PeekChar s : consumes PeekChar s 0.
Proof.
  unfold consumes, PeekChar, remaining.
  destruct s as [input position [|] next]; cbn.
  - eexists _, _. split; [reflexivity|]. cbn.
    destruct (next =? 0); cbn; split; intros; lia.
  - destruct input as [|temp rest]; eexists _, _;
      (split; [reflexivity|]); cbn;
      try destruct (temp =? 0); cbn; split; intros; lia.
Qed.

Lemma consumes_GetChar s : consumes GetChar s 1.
Proof.
  unfold consumes, GetChar, bind, PeekChar, remaining.
  destruct s as [input position [|] next]; cbn.
  - destruct (next =? 0) eqn:Hnext; cbn; eexists _, _;
      (split; [reflexivity|]); cbn; rewrite ?Hnext; cbn;
      split; intros; try discriminate; lia.
  - destruct input as [|temp rest]; cbn.
    + eexists _, _. split; [reflexivity|]. cbn.
      split; intros; try discriminate; lia.
    + destruct (temp =? 0) eqn:Htemp; cbn; eexists _, _;
        (split; [reflexivity|]); cbn; rewrite ?Htemp; cbn;
        split; intros; try discriminate; lia.
Qed.

(** [m] consumes [least1] characters and what follows [least2]. *)
Ltac seq least1 least2 :=
  apply (consumes_less _ _ (least1 + least2)%nat);
  [apply (consumes_bind _ _ _ least1 least2); [|intros ? ? _ ?]
  |cbn; lia].

Lemma consumes_throw_here {A : Type} (message : string) s least :
  consumes
    (bind currentPosition
          (fun position => @throw A (ParseError message position)))
    s least.
Proof.
  exists (Thrown (ParseError message (m_currentPosition s))), s.
  split; [reflexivity|]. split; [lia|]. intros a H. discriminate H.
Qed.

Lemma consumes_GetWithEscape s : consumes GetWithEscape s 1.
Proof.
  unfold GetWithEscape.
  seq 0%nat 1%nat; [apply consumes_PeekChar|]. cbv zeta.
  destruct (_ =? c_backslash); [|apply consumes_GetChar].
  seq 1%nat 1%nat; [apply consumes_GetChar|].
  seq 0%nat 1%nat; [apply consumes_PeekChar|].
  destruct (strchr _ _); [apply consumes_GetChar|apply consumes_throw].
Qed.

Lemma consumes_SkipWhite (fuel : nat) :
  forall s, (remaining s < fuel)%nat -> consumes (SkipWhite fuel) s 0.
Proof.
  induction fuel as [|fuel IH]; intros s Hfuel; [lia|].
  cbn [SkipWhite].
  seq 0%nat 0%nat; [apply consumes_PeekChar|].
  destruct (isspace _); [|apply consumes_ret].
  seq 1%nat 0%nat; [apply consumes_GetChar|].
  apply IH. lia.
Qed.

Lemma consumes_ExpectDelimeter (c : Z) s :
  consumes (ExpectDelimeter c) s 1.
Proof.
  unfold ExpectDelimeter.
  seq 0%nat 1%nat; [apply consumes_PeekChar|].
  destruct (negb _); [apply consumes_throw_here|].
  seq 1%nat 0%nat; [apply consumes_GetChar|apply consumes_ret].
Qed.

(** The token that [ParseToken_loop] returns is the one it was given, or
    a character has been consumed. *)
Lemma ParseToken_loop_consumes (fuel : nat) :
  forall builder s,
    (remaining s < fuel)%nat ->
    exists r s',
      ParseToken_loop fuel builder s = Some (r, s') /\
      (remaining s' <= remaining s)%nat /\
      forall token,
        r = Returned token ->
        token = builder \/ (remaining s' + 1 <= remaining s)%nat.
Proof.
  induction fuel as [|fuel IH]; intros builder s Hfuel; [lia|].
  cbn [ParseToken_loop]. unfold bind.
  destruct (consumes_PeekChar s) as (r1 & s1 & H1 & Hle1 & _).
  rewrite H1.
  destruct r1 as [c|e].
  2:{ exists (Thrown e), s1. split; [reflexivity|]. split; [lia|].
      intros token H. discriminate H. }
  destruct (negb (isspace c) && negb (strchr _ c)).
  - destruct (consumes_GetWithEscape s1) as (r2 & s2 & H2 & Hle2 & Hret2).
    rewrite H2.
    destruct r2 as [temp|e].
    2:{ exists (Thrown e), s2. split; [reflexivity|]. split; [lia|].
        intros token H. discriminate H. }
    specialize (Hret2 temp eq_refl).
    destruct (IH (builder ++ [temp]) s2 ltac:(lia))
      as (r3 & s3 & H3 & Hle3 & _).
    exists r3, s3. split; [exact H3|]. split; [lia|].
    intros token _. right. lia.
  - exists (Returned builder), s1. split; [reflexivity|]. split; [lia|].
    intros token H. injection H as <-. left. reflexivity.
Qed.

Lemma consumes_ParseToken (fuel : nat) s :
  (remaining s < fuel)%nat -> consumes (ParseToken fuel) s 1.
Proof.
  intros Hfuel. unfold ParseToken, consumes, bind.
  destruct (ParseToken_loop_consumes fuel [] s Hfuel)
    as (r & s1 & H & Hle & Hret).
  rewrite H.
  destruct r as [[|c token]|e].
  - eexists _, _. split; [reflexivity|]. split; [exact Hle|].
    intros a Ha. discriminate Ha.
  - eexists _, _. split; [reflexivity|]. split; [exact Hle|].
    intros a _.
    destruct (Hret (c :: token) eq_refl) as [Hnil|Hless];
      [discriminate Hnil|exact Hless].
  - eexists _, _. split; [reflexivity|]. split; [exact Hle|].
    intros a Ha. discriminate Ha.
Qed.

Lemma consumes_ParsePhrase_loop (fuel : nat) :
  forall grams s,
    (remaining s + 1 < fuel)%nat ->
    consumes (ParsePhrase_loop fuel grams) s 1.
Proof.
  induction fuel as [|fuel IH]; intros grams s Hfuel; [lia|].
  cbn [ParsePhrase_loop].
  seq 0%nat 1%nat; [apply consumes_SkipWhite; lia|].
  seq 0%nat 1%nat; [apply consumes_PeekChar|].
  destruct (_ =? c_quote).
  - seq 1%nat 0%nat; [apply consumes_ExpectDelimeter|apply consumes_ret].
  - seq 1%nat 1%nat; [apply consumes_ParseToken; lia|].
    apply IH. lia.
Qed.

Lemma consumes_ParsePhrase (fuel : nat) (streamId : Z) s :
  (remaining s + 1 < fuel)%nat ->
  consumes (ParsePhrase fuel streamId) s 1.
Proof.
  intros Hfuel. unfold ParsePhrase.
  seq 1%nat 1%nat; [apply consumes_ExpectDelimeter|].
  seq 1%nat 0%nat; [apply consumes_ParsePhrase_loop; lia|].
  apply consumes_ret.
Qed.

Lemma consumes_ParseTerm (fuel : nat) s :
  (remaining s + 1 < fuel)%nat -> consumes (ParseTerm fuel) s 1.
Proof.
  intros Hfuel. unfold ParseTerm. cbv zeta.
  seq 0%nat 1%nat; [apply consumes_SkipWhite; lia|].
  seq 0%nat 1%nat; [apply consumes_PeekChar|].
  destruct (_ =? c_quote); [apply consumes_ParsePhrase; lia|].
  seq 1%nat 0%nat; [apply consumes_ParseToken; lia|].
  seq 0%nat 0%nat; [apply consumes_PeekChar|].
  destruct (_ =? 58); [|apply consumes_ret].
  seq 1%nat 0%nat; [apply consumes_GetChar|].
  seq 0%nat 0%nat; [apply consumes_PeekChar|].
  destruct (_ =? c_quote);
    [apply (consumes_less _ _ 1); [apply consumes_ParsePhrase|]; lia|].
  seq 1%nat 0%nat; [apply consumes_ParseToken; lia|].
  apply consumes_ret.
Qed.

(** Three steps of the recursion for each character that is left, and
    one for each production between [ParseOr] and [ParseTerm], are
    enough. *)
Lemma consumes_productions (fuel : nat) :
  (forall s, (3 * remaining s + 6 <= fuel)%nat ->
             consumes (ParseOr fuel) s 1) /\
  (forall children s,
     (3 * remaining s + 6 <= fuel)%nat ->
     consumes (ParseOr_loop fuel children) s 0) /\
  (forall s, (3 * remaining s + 5 <= fuel)%nat ->
             consumes (ParseAnd fuel) s 1) /\
  (forall children s,
     (3 * remaining s + 5 <= fuel)%nat ->
     consumes (ParseAnd_loop fuel children) s 0) /\
  (forall s, (3 * remaining s + 4 <= fuel)%nat ->
             consumes (ParseSimple fuel) s 1).
Proof.
  induction fuel as [|fuel (IHor & IHorl & IHand & IHandl & IHsimple)].
  - repeat split; intros; lia.
  - split; [|split; [|split; [|split]]].
    + intros s Hfuel. cbn [ParseOr].
      seq 1%nat 0%nat; [apply IHand; lia|].
      apply IHorl. lia.
    + intros children s Hfuel. cbn [ParseOr_loop].
      seq 0%nat 0%nat; [apply consumes_SkipWhite; lia|].
      seq 0%nat 0%nat; [apply consumes_PeekChar|].
      destruct (negb _); [apply consumes_ret|].
      seq 1%nat 0%nat; [apply consumes_GetChar|].
      seq 1%nat 0%nat; [apply IHand; lia|].
      apply IHorl. lia.
    + intros s Hfuel. cbn [ParseAnd].
      seq 1%nat 0%nat; [apply IHsimple; lia|].
      apply IHandl. lia.
    + intros children s Hfuel. cbn [ParseAnd_loop]. cbv zeta.
      seq 0%nat 0%nat; [apply consumes_SkipWhite; lia|].
      seq 0%nat 0%nat; [apply consumes_PeekChar|].
      destruct (_ =? 38); [|destruct (negb _); [|apply consumes_ret]].
      * seq 1%nat 0%nat; [apply consumes_GetChar|].
        seq 1%nat 0%nat; [apply IHsimple; lia|].
        apply IHandl. lia.
      * seq 1%nat 0%nat; [apply IHsimple; lia|].
        apply IHandl. lia.
    + intros s Hfuel. cbn [ParseSimple].
      seq 0%nat 1%nat; [apply consumes_SkipWhite; lia|].
      seq 0%nat 1%nat; [apply consumes_PeekChar|].
      destruct (_ =? 45); [|destruct (_ =? 40)].
      * seq 1%nat 0%nat; [apply consumes_GetChar|].
        seq 0%nat 0%nat; [apply consumes_SkipWhite; lia|].
        seq 1%nat 0%nat; [apply IHsimple; lia|].
        apply consumes_ret.
      * seq 1%nat 0%nat; [apply consumes_GetChar|].
        seq 1%nat 0%nat; [apply IHor; lia|].
        seq 0%nat 0%nat; [apply consumes_SkipWhite; lia|].
        seq 1%nat 0%nat; [apply consumes_ExpectDelimeter|].
        apply consumes_ret.
      * apply consumes_ParseTerm. lia.
Qed.

(** X23. [Parse] terminates on every input: three steps of the recursion
    for each character and six more are enough for it to return a tree or
    to throw. *)
Theorem Parse_terminates (input : list Z) (fuel : nat) :
  (3 * length input + 6 <= fuel)%nat ->
  exists r s',
    QueryParser.Parse fuel (QueryParser.init input) = Some (r, s').
Proof.
  intros Hfuel.
  destruct (proj1 (consumes_productions fuel) (init input) Hfuel)
    as (r & s' & H & _).
  exists r, s'. exact H.
Qed.

End ParserTermination.

(** X23 at the query [(a|"b c")]: 39 steps are enough. *)
Lemma Parse_terminates_39 :
  exists r s',
    QueryParser.Parse 39
      (QueryParser.init
         (QueryParser.chars "(a|" ++ [QueryParser.c_quote]
          ++ QueryParser.chars "b c" ++ [QueryParser.c_quote]
          ++ QueryParser.chars ")"))
    = Some (r, s').
Proof.
  apply (Parse_terminates _ 39). cbn. lia.
Defined.

(** ** FileManager: where the files are *)

(** X24. The manager that [CreateFileManager] makes from an intermediate,
    an index and a backup directory puts the document length histogram
    and the cumulative term counts in the intermediate directory and
    every other file in the directory given as the backup directory: the
    factory passes its last two arguments to the constructor in the other
    order, and no file is in the directory given as the index
    directory. *)
Theorem CreateFileManager_directories
    (intermediateDirectory indexDirectory backupDirectory : string)
    (shard : Z) :
  let manager :=
    FileManager.CreateFileManager intermediateDirectory indexDirectory
      backupDirectory in
  map FileManager.path
    [FileManager.m_file0 (FileManager.DocumentLengthHistogram manager);
     FileManager.m_file1 (FileManager.CumulativeTermCounts manager shard)]
  = [intermediateDirectory; intermediateDirectory] /\
  map FileManager.path
    [FileManager.m_file0 (FileManager.TermToText manager);
     FileManager.m_file1 (FileManager.DocFreqTable manager shard);
     FileManager.m_file1 (FileManager.IndexedIdfTable manager shard);
     FileManager.m_file1 (FileManager.TermTable manager shard)]
  = [backupDirectory; backupDirectory; backupDirectory; backupDirectory].
Proof.
  intros manager. subst manager.
  unfold FileManager.CreateFileManager, FileManager.construct.
  split; reflexivity.
Qed.
